(** * Discovery engine of github-scraping-agent-ai: search, enrichment, cache

    A shallow embedding of [src/github.py] and [src/cache.py], with the part
    of [src/main.py] that calls them, and the properties of the discovery
    engine proved (or refuted) on that embedding. The evaluation loop and
    the end of a run, [src/discord.py], [src/prompt.py], [parse_since_date]
    and what the providers of [src/llm] make of an answer follow.

    Conventions.
    - Python [int] is [Z]; [len(l)] is [Z.of_nat (length l)].
    - Python [str] is [string]; each character stands for one code point.
    - A Python [dict] keeps insertion order, so it is an association list
      with unique keys ([PyDict]); [dict.values()] and [json.dumps] follow
      that order.
    - A call that talks to the network runs in the monad [M]: the [World]
      is threaded explicitly, an exception is the result [Raise e], and a
      loop that is cut by its fuel is [OutOfFuel].
    - [asyncio.gather] over a semaphore is a labelled step function on the
      state of the tasks ([estep]); the schedule and the network outcomes
      are the labels.
    - A file holds bytes, one character per byte; [Path.read_text] goes
      through the codec of the locale and the newline translation of text
      mode ([read_text]).
    - [date.today()] is read anew at each call: the loop of
      [run_pipeline_async] takes the clock as a function of the reading. *)

From Stdlib Require Import String Ascii.
From Stdlib Require Import ZArith List Bool Lia Permutation Sorted.
From Stdlib Require Import DecimalString.
Import ListNotations.
Local Open Scope string_scope.
Local Open Scope list_scope.
Local Open Scope Z_scope.

(* ===================================================================== *)
(** * Python values, exceptions and built-ins                             *)
(* ===================================================================== *)

(** The exceptions that the modelled code can raise or let through. *)
Inductive Exn : Type :=
| HTTPError                    (* httpx.HTTPError: transport errors and HTTPStatusError *)
| JSONDecodeError              (* json.JSONDecodeError, from response.json() / json.loads *)
| KeyError (key : string)      (* d[key] on a missing key *)
| BinasciiError                (* binascii.Error, from base64.b64decode *)
| RuntimeError (msg : string)
| TypeError (msg : string)
| ValueError (msg : string)
| AttributeError (msg : string)
| OverflowError (msg : string)
| UnicodeDecodeError.           (* bytes that the codec of a text file rejects *)

(** [len(l)] *)
Definition len {A : Type} (l : list A) : Z := Z.of_nat (length l).

(** [l[:n]] on a list: a negative [n] counts from the end. *)
Definition slice_to {A : Type} (l : list A) (n : Z) : list A :=
  if 0 <=? n then firstn (Z.to_nat n) l
  else firstn (Z.to_nat (len l + n)) l.

(** [l[i:j]] for non-negative [i], [j]. *)
Definition slice {A : Type} (l : list A) (i j : nat) : list A :=
  firstn (j - i) (skipn i l).

(** [range(0, stop, step)] for a positive [step]: 0, step, 2*step, ... < stop. *)
Definition range_step (stop step : nat) : list nat :=
  map (fun k => (k * step)%nat) (seq 0 ((stop + step - 1) / step)).

(** [sep.join(l)] *)
Fixpoint join (sep : string) (l : list string) : string :=
  match l with
  | [] => ""
  | [x] => x
  | x :: rest => (x ++ sep ++ join sep rest)%string
  end.

(** [s[:n]] on a string. *)
Definition str_slice_to (s : string) (n : Z) : string :=
  string_of_list_ascii (slice_to (list_ascii_of_string s) n).

(** ** Ordered dictionaries *)
Module PyDict.

Definition t (V : Type) : Type := list (string * V).

Definition empty {V : Type} : t V := [].

(** [d.get(k)] / [d[k]] *)
Fixpoint get {V : Type} (d : t V) (k : string) : option V :=
  match d with
  | [] => None
  | (k', v) :: rest => if String.eqb k' k then Some v else get rest k
  end.

(** [k in d] *)
Definition contains {V : Type} (d : t V) (k : string) : bool :=
  match get d k with Some _ => true | None => false end.

(** [d[k] = v]: an existing key keeps its position, a new key goes last. *)
Fixpoint set {V : Type} (d : t V) (k : string) (v : V) : t V :=
  match d with
  | [] => [(k, v)]
  | (k', v') :: rest =>
      if String.eqb k' k then (k', v) :: rest else (k', v') :: set rest k v
  end.

(** [d.keys()], [d.values()], [d.items()] *)
Definition keys {V : Type} (d : t V) : list string := map fst d.
Definition values {V : Type} (d : t V) : list V := map snd d.
Definition items {V : Type} (d : t V) : list (string * V) := d.

(** [dict(pairs)]: pairs are inserted from left to right. *)
Definition of_pairs {V : Type} (pairs : list (string * V)) : t V :=
  fold_left (fun d kv => set d (fst kv) (snd kv)) pairs empty.

End PyDict.

(* ===================================================================== *)
(** * The HTTP world                                                      *)
(* ===================================================================== *)

Inductive Param : Type :=
| PStr (s : string)
| PInt (z : Z).

(** [client.get(path, params=...)] *)
Record Request : Type := mkRequest {
  path : string;
  params : list (string * Param)
}.

(** One item of the [items] array of a search response. A field that the
    object does not carry (or carries as [null]) is [None]. *)
Record ApiItem : Type := mkApiItem {
  j_full_name : option string;
  j_html_url : option string;
  j_description : option string;
  j_stargazers_count : option Z;
  j_language : option string;
  j_topics : option (list string);
  j_fork : option bool
}.

(** The body of a response: either not JSON at all, or a JSON object of which
    the client reads the keys [items] and [content]. *)
Inductive Body : Type :=
| NotJson
| JsonObject (items : option (list ApiItem)) (content : option string).

(** What [client.get] does: raise an [httpx.HTTPError] (connection failure,
    timeout, ...) or return a response. *)
Inductive Outcome : Type :=
| TransportError
| Response (status_code : Z) (body : Body).

(** The world a sequential client runs in. The server answers a request as a
    function of the requests it has seen so far; [exchanged] is the log of
    the requests sent and of their outcomes. *)
Record World : Type := mkWorld {
  server : list Request -> Request -> Outcome;
  exchanged : list (Request * Outcome)
}.

Inductive Res (A : Type) : Type :=
| Ret (a : A)
| Raise (e : Exn)
| OutOfFuel.
Arguments Ret {A} a.
Arguments Raise {A} e.
Arguments OutOfFuel {A}.

Definition M (A : Type) : Type := World -> Res A * World.

Definition ret {A : Type} (a : A) : M A := fun w => (Ret a, w).
Definition raise {A : Type} (e : Exn) : M A := fun w => (Raise e, w).
Definition out_of_fuel {A : Type} : M A := fun w => (OutOfFuel, w).

Definition bind {A B : Type} (c : M A) (k : A -> M B) : M B :=
  fun w =>
    match c w with
    | (Ret a, w') => k a w'
    | (Raise e, w') => (Raise e, w')
    | (OutOfFuel, w') => (OutOfFuel, w')
    end.

Declare Scope py_scope.
Delimit Scope py_scope with py.
Notation "x <- c ;; k" := (bind c (fun x => k))
  (at level 61, c at next level, right associativity) : py_scope.
Notation "c ;;; k" := (bind c (fun _ => k))
  (at level 61, right associativity) : py_scope.
Local Open Scope py_scope.

(** Lift a pure computation that may raise. *)
Definition lift {A : Type} (r : Exn + A) : M A :=
  match r with
  | inr a => ret a
  | inl e => raise e
  end.

(** [self._client.get(path, params=params)]: the request goes out, the
    exchange is logged, a transport failure raises. *)
Definition client_get (req : Request) : M (Z * Body) :=
  fun w =>
    let o := server w (map fst (exchanged w)) req in
    let w' := {| server := server w; exchanged := exchanged w ++ [(req, o)] |} in
    match o with
    | TransportError => (Raise HTTPError, w')
    | Response st b => (Ret (st, b), w')
    end.

(** [response.raise_for_status()]: HTTPStatusError unless the status is 2xx. *)
Definition is_success (status_code : Z) : bool :=
  (200 <=? status_code) && (status_code <=? 299).

Definition raise_for_status (status_code : Z) : Exn + unit :=
  if is_success status_code then inr tt else inl HTTPError.

(** [response.json()] on the two keys the client reads. *)
Definition json (b : Body) : Exn + (option (list ApiItem) * option string) :=
  match b with
  | NotJson => inl JSONDecodeError
  | JsonObject items content => inr (items, content)
  end.

(* ===================================================================== *)
(** * src/github.py                                                       *)
(* ===================================================================== *)

Record Repository : Type := mkRepository {
  full_name : string;
  url : string;
  description : string;
  stars : Z;
  language : string;
  topics : list string;
  is_fork : bool;
  readme : string
}.

(** [data[key]] *)
Definition subscript {A : Type} (key : string) (field : option A) : Exn + A :=
  match field with
  | Some a => inr a
  | None => inl (KeyError key)
  end.

(** [data.get(key) or default] on a string: [None] and [""] both give the default. *)
Definition get_or (field : option string) (default : string) : string :=
  match field with
  | Some s => if String.eqb s "" then default else s
  | None => default
  end.

(** [Repository.from_api] *)
Definition from_api (data : ApiItem) : Exn + Repository :=
  match subscript "full_name" (j_full_name data) with
  | inl e => inl e
  | inr fn =>
  match subscript "html_url" (j_html_url data) with
  | inl e => inl e
  | inr u =>
  match subscript "stargazers_count" (j_stargazers_count data) with
  | inl e => inl e
  | inr s =>
      inr {| full_name := fn;
             url := u;
             description := get_or (j_description data) "";
             stars := s;
             language := get_or (j_language data) "";
             topics := match j_topics data with Some t => t | None => [] end;
             is_fork := match j_fork data with Some b => b | None => false end;
             readme := "" |}
  end end end.

Definition per_page : Z := 100.
Definition MAX_KEYWORDS_PER_QUERY : nat := 6.

(** The query string of [_search_repos_single]. *)
Definition build_query (since_date : string) (exclude_forks : bool)
    (keywords : option (list string)) : string :=
  let query := ("created:>" ++ since_date)%string in
  let query := if exclude_forks then (query ++ " fork:false")%string else query in
  match keywords with
  | Some (k :: ks) => (query ++ " (" ++ join " OR " (k :: ks) ++ ")")%string
  | _ => query
  end.

Definition search_request (query : string) (page : Z) : Request :=
  {| path := "/search/repositories";
     params := [("q", PStr query); ("sort", PStr "stars"); ("order", PStr "desc");
                ("per_page", PInt per_page); ("page", PInt page)] |}.

(** The inner loop: [for item in items: repos.append(from_api(item)); if
    len(repos) >= max_repos: break]. *)
Fixpoint append_items (items : list ApiItem) (repos : list Repository)
    (max_repos : Z) : Exn + list Repository :=
  match items with
  | [] => inr repos
  | item :: rest =>
      match from_api item with
      | inl e => inl e
      | inr repo =>
          let repos' := repos ++ [repo] in
          if len repos' >=? max_repos then inr repos'
          else append_items rest repos' max_repos
      end
  end.

(** The [while len(repos) < max_repos] loop of [_search_repos_single]; each
    unit of fuel pays for one iteration. *)
Fixpoint search_loop (fuel : nat) (query : string) (max_repos : Z) (page : Z)
    (repos : list Repository) : M (list Repository) :=
  if len repos <? max_repos then
    match fuel with
    | O => out_of_fuel
    | S fuel' =>
        response <- client_get (search_request query page) ;;
        lift (raise_for_status (fst response)) ;;;
        data <- lift (json (snd response)) ;;
        match fst data with
        | None | Some [] => ret repos
        | Some items =>
            repos' <- lift (append_items items repos max_repos) ;;
            let page' := page + 1 in
            if page' >? 10 then ret repos'
            else search_loop fuel' query max_repos page' repos'
        end
    end
  else ret repos.

(** The fuel given to the loop: the page counter allows ten iterations. *)
Definition search_fuel : nat := 10.

(** [GitHubClient._search_repos_single] and
    [AsyncGitHubClient._search_repos_single] (the same text in both). *)
Definition _search_repos_single (since_date : string) (max_repos : Z)
    (exclude_forks : bool) (keywords : option (list string)) : M (list Repository) :=
  search_loop search_fuel (build_query since_date exclude_forks keywords)
    max_repos 1 [].

(** [keywords[i:i + 6] for i in range(0, len(keywords), 6)] *)
Definition keyword_batches (keywords : list string) : list (list string) :=
  map (fun i => slice keywords i (i + MAX_KEYWORDS_PER_QUERY))
      (range_step (length keywords) MAX_KEYWORDS_PER_QUERY).

(** [for repo in batch_repos: if repo.full_name not in all_repos:
    all_repos[repo.full_name] = repo] *)
Definition merge_batch (all_repos : PyDict.t Repository)
    (batch_repos : list Repository) : PyDict.t Repository :=
  fold_left
    (fun d repo =>
       if PyDict.contains d (full_name repo) then d
       else PyDict.set d (full_name repo) repo)
    batch_repos all_repos.

(** [for batch in keyword_batches: batch_repos = _search_repos_single(...);
    merge] *)
Fixpoint search_batches (since_date : string) (max_repos : Z)
    (exclude_forks : bool) (batches : list (list string))
    (all_repos : PyDict.t Repository) : M (PyDict.t Repository) :=
  match batches with
  | [] => ret all_repos
  | batch :: rest =>
      batch_repos <- _search_repos_single since_date max_repos exclude_forks (Some batch) ;;
      search_batches since_date max_repos exclude_forks rest
        (merge_batch all_repos batch_repos)
  end.

(** [sorted(l, key=lambda r: r.stars, reverse=True)]: Python's sort is
    stable, and [reverse=True] keeps the original order of equal keys; a
    stable insertion sort computes the same list. Elements are inserted
    from the last to the first, each one in front of those with the same
    number of stars. *)
Fixpoint insert_by_stars (r : Repository) (l : list Repository) : list Repository :=
  match l with
  | [] => [r]
  | x :: rest =>
      if stars x >? stars r then x :: insert_by_stars r rest
      else r :: x :: rest
  end.

Definition sorted_by_stars_desc (l : list Repository) : list Repository :=
  fold_right insert_by_stars [] l.

(** The body shared by [GitHubClient.search_repos] (lines 72-92) and
    [AsyncGitHubClient.search_repos] (lines 211-231). *)
Definition search_repos_body (since_date : string) (max_repos : Z)
    (exclude_forks : bool) (keywords : option (list string)) : M (list Repository) :=
  match keywords with
  | Some kws =>
      if (MAX_KEYWORDS_PER_QUERY <? length kws)%nat then
        all_repos <- search_batches since_date max_repos exclude_forks
                       (keyword_batches kws) PyDict.empty ;;
        let sorted_repos := sorted_by_stars_desc (PyDict.values all_repos) in
        ret (slice_to sorted_repos max_repos)
      else _search_repos_single since_date max_repos exclude_forks keywords
  | None => _search_repos_single since_date max_repos exclude_forks keywords
  end.

(** [GitHubClient.search_repos]: the client is built in [__init__]. *)
Definition GitHubClient_search_repos := search_repos_body.

(** The [httpx.AsyncClient] held by an entered [AsyncGitHubClient]. *)
Record AsyncClient : Type := mkAsyncClient {
  base_url : string;
  headers : list (string * string);
  timeout : Z
}.

Record AsyncGitHubClient : Type := mkAsyncGitHubClient {
  token : string;
  max_concurrency : Z;
  _client : option AsyncClient
}.

Definition BASE_URL : string := "https://api.github.com".

(** [AsyncGitHubClient.__init__] *)
Definition AsyncGitHubClient_init (token : string) (max_concurrency : Z) : AsyncGitHubClient :=
  {| token := token; max_concurrency := max_concurrency; _client := None |}.

(** [AsyncGitHubClient.__aenter__] *)
Definition __aenter__ (self : AsyncGitHubClient) : AsyncGitHubClient :=
  {| token := token self;
     max_concurrency := max_concurrency self;
     _client := Some {| base_url := BASE_URL;
                        headers := [("Authorization", ("Bearer " ++ token self)%string);
                                    ("Accept", "application/vnd.github+json");
                                    ("X-GitHub-Api-Version", "2022-11-28")];
                        timeout := 30 |} |}.

(** [AsyncGitHubClient.search_repos] *)
Definition search_repos (self : AsyncGitHubClient) (since_date : string)
    (max_repos : Z) (exclude_forks : bool) (keywords : option (list string))
    : M (list Repository) :=
  match _client self with
  | None => raise (RuntimeError "Client not initialized. Use 'async with' context manager.")
  | Some _ => search_repos_body since_date max_repos exclude_forks keywords
  end.

(** ** Readme enrichment *)

Definition readme_request (full_name : string) : Request :=
  {| path := ("/repos/" ++ full_name ++ "/readme")%string; params := [] |}.

(** [try: ... except httpx.HTTPError: handler] *)
Definition except_HTTPError {A : Type} (body : Exn + A) (handler : A) : Exn + A :=
  match body with
  | inl HTTPError => inr handler
  | other => other
  end.

Section Enrichment.

(** [base64.b64decode]; [None] is [binascii.Error]. *)
Variable b64decode : string -> option (list Byte.byte).
(** [bytes.decode("utf-8", errors="replace")], which never fails. *)
Variable decode_utf8_replace : list Byte.byte -> string.

(** The [try] block of [fetch_readme] / [_fetch_single_readme], from the
    outcome of [self._client.get(...)] on. *)
Definition readme_try (max_chars : Z) (o : Outcome) : Exn + string :=
  match o with
  | TransportError => inl HTTPError
  | Response status_code body =>
      if status_code =? 404 then inr ""
      else
        match raise_for_status status_code with
        | inl e => inl e
        | inr _ =>
        match json body with
        | inl e => inl e
        | inr data =>
        match subscript "content" (snd data) with
        | inl e => inl e
        | inr c =>
        match b64decode c with
        | None => inl BinasciiError
        | Some raw => inr (str_slice_to (decode_utf8_replace raw) max_chars)
        end end end end
  end.

(** [try: ... except httpx.HTTPError: return ""] *)
Definition readme_of_outcome (max_chars : Z) (o : Outcome) : Exn + string :=
  except_HTTPError (readme_try max_chars o) "".

(** [GitHubClient.fetch_readme] *)
Definition fetch_readme (full_name : string) (max_chars : Z) : M string :=
  fun w =>
    let req := readme_request full_name in
    let o := server w (map fst (exchanged w)) req in
    let w' := {| server := server w; exchanged := exchanged w ++ [(req, o)] |} in
    lift (readme_of_outcome max_chars o) w'.

(** *** The tasks of [fetch_readmes]

    [asyncio.gather] runs one task per repository on a single event loop.
    A task is suspended at two points only: on [semaphore.acquire()] while
    the semaphore is at zero, and on [self._client.get(...)] until the
    outcome arrives. *)
Inductive Task : Type :=
| Pending (full_name : string)    (* created, or waiting on the semaphore *)
| InFlight (full_name : string)   (* holds the semaphore, awaits the response *)
| Returned (result : string * string)
| Failed (e : Exn).

Record Gather : Type := mkGather {
  sem_value : Z;                  (* asyncio.Semaphore._value *)
  tasks : list Task;
  first_raised : option Exn;      (* the exception gather propagates *)
  sent : list Request             (* the requests issued so far *)
}.

(** What the event loop can do next: let task [i] run from its start up to
    its first suspension, or deliver the outcome of the request of task [i]. *)
Inductive Event : Type :=
| Start (i : nat)
| Complete (i : nat) (o : Outcome).

Fixpoint set_nth {A : Type} (i : nat) (x : A) (l : list A) {struct l} : list A :=
  match l, i with
  | [], _ => []
  | _ :: rest, O => x :: rest
  | y :: rest, S i' => y :: set_nth i' x rest
  end.

(** One step of [_fetch_single_readme] for task [i]. [None]: the event is
    not enabled in this state. *)
Definition estep (self : AsyncGitHubClient) (max_chars : Z) (g : Gather)
    (ev : Event) : option Gather :=
  match ev with
  | Start i =>
      match nth_error (tasks g) i with
      | Some (Pending name) =>
          match _client self with
          | None =>
              (* if not self._client: return full_name, "" *)
              Some {| sem_value := sem_value g;
                      tasks := set_nth i (Returned (name, "")) (tasks g);
                      first_raised := first_raised g;
                      sent := sent g |}
          | Some _ =>
              (* async with semaphore: acquire, then send the request *)
              if 0 <? sem_value g then
                Some {| sem_value := sem_value g - 1;
                        tasks := set_nth i (InFlight name) (tasks g);
                        first_raised := first_raised g;
                        sent := sent g ++ [readme_request name] |}
              else None
          end
      | _ => None
      end
  | Complete i o =>
      match nth_error (tasks g) i with
      | Some (InFlight name) =>
          (* the semaphore is released on the way out, also by an exception *)
          match readme_of_outcome max_chars o with
          | inr content =>
              Some {| sem_value := sem_value g + 1;
                      tasks := set_nth i (Returned (name, content)) (tasks g);
                      first_raised := first_raised g;
                      sent := sent g |}
          | inl e =>
              Some {| sem_value := sem_value g + 1;
                      tasks := set_nth i (Failed e) (tasks g);
                      first_raised := match first_raised g with
                                      | Some e0 => Some e0
                                      | None => Some e
                                      end;
                      sent := sent g |}
          end
      | _ => None
      end
  end.

Fixpoint run (self : AsyncGitHubClient) (max_chars : Z) (g : Gather)
    (sched : list Event) : option Gather :=
  match sched with
  | [] => Some g
  | ev :: rest =>
      match estep self max_chars g ev with
      | Some g' => run self max_chars g' rest
      | None => None
      end
  end.

(** [semaphore = asyncio.Semaphore(self.max_concurrency)] and the list of
    coroutines; a negative value makes the constructor raise. *)
Definition fetch_readmes_start (self : AsyncGitHubClient)
    (repos : list Repository) : Exn + Gather :=
  if max_concurrency self <? 0
  then inl (ValueError "Semaphore initial value must be >= 0")
  else inr {| sem_value := max_concurrency self;
              tasks := map (fun repo => Pending (full_name repo)) repos;
              first_raised := None;
              sent := [] |}.

Fixpoint all_returned (ts : list Task) : option (list (string * string)) :=
  match ts with
  | [] => Some []
  | Returned r :: rest =>
      match all_returned rest with
      | Some rs => Some (r :: rs)
      | None => None
      end
  | _ :: _ => None
  end.

(** [await asyncio.gather] over all the tasks: the list of results in task order once
    every task has returned, the first exception as soon as a task raises,
    and nothing yet otherwise. *)
Definition gather (g : Gather) : option (Exn + list (string * string)) :=
  match first_raised g with
  | Some e => Some (inl e)
  | None =>
      match all_returned (tasks g) with
      | Some results => Some (inr results)
      | None => None
      end
  end.

(** [AsyncGitHubClient.fetch_readmes] under the schedule [sched]: what the
    call returns or raises, and the requests it has issued; [None] when the
    schedule is not one the event loop can follow, or when the call is
    still waiting at its end. *)
Definition fetch_readmes (self : AsyncGitHubClient) (repos : list Repository)
    (max_chars : Z) (sched : list Event)
    : option ((Exn + PyDict.t string) * list Request) :=
  match fetch_readmes_start self repos with
  | inl e => match sched with [] => Some (inl e, []) | _ => None end
  | inr g0 =>
      match run self max_chars g0 sched with
      | None => None
      | Some g =>
          match gather g with
          | None => None
          | Some (inl e) => Some (inl e, sent g)
          | Some (inr results) => Some (inr (PyDict.of_pairs results), sent g)
          end
      end
  end.

Definition in_flight (g : Gather) : Z :=
  len (filter (fun t => match t with InFlight _ => true | _ => false end) (tasks g)).

Definition pending (g : Gather) : Z :=
  len (filter (fun t => match t with Pending _ => true | _ => false end) (tasks g)).

End Enrichment.

(** ** The call of [search_repos] in src/main.py *)

(** The values passed as keyword arguments. *)
Inductive Arg : Type :=
| AStr (s : string)
| AInt (z : Z)
| ABool (b : bool)
| AKeywords (k : option (list string))
| ASet (ids : list string).

(** The parameters of [AsyncGitHubClient.search_repos] after [self]. *)
Definition search_repos_parameters : list string :=
  ["since_date"; "max_repos"; "exclude_forks"; "keywords"].

Definition unexpected_keyword (kwargs : list (string * Arg)) : option string :=
  match find (fun kv => negb (existsb (String.eqb (fst kv)) search_repos_parameters)) kwargs with
  | Some kv => Some (fst kv)
  | None => None
  end.

(** [await github.search_repos(name=value, ...)]: Python binds the keyword
    arguments to the signature before the body runs; a name that the
    signature does not have is a [TypeError], a missing [since_date] too,
    and the other parameters have the defaults of the signature. *)
Definition call_search_repos (self : AsyncGitHubClient)
    (kwargs : list (string * Arg)) : M (list Repository) :=
  match unexpected_keyword kwargs with
  | Some name =>
      raise (TypeError ("search_repos() got an unexpected keyword argument '"
                        ++ name ++ "'")%string)
  | None =>
      match PyDict.get kwargs "since_date" with
      | Some (AStr since_date) =>
          search_repos self since_date
            (match PyDict.get kwargs "max_repos" with Some (AInt n) => n | _ => 1000 end)
            (match PyDict.get kwargs "exclude_forks" with Some (ABool b) => b | _ => true end)
            (match PyDict.get kwargs "keywords" with Some (AKeywords k) => k | _ => None end)
      | _ =>
          raise (TypeError "search_repos() missing 1 required positional argument: 'since_date'")
      end
  end.

(** Lines 104-110 of [run_pipeline_async]: [config.keywords if
    config.keywords else None], and the skip-set handed over as [skip_repos]. *)
Definition pipeline_search (github : AsyncGitHubClient) (since_date : string)
    (config_max_repos : Z) (config_keywords : list string)
    (cached_repos : list string) : M (list Repository) :=
  call_search_repos github
    [("since_date", AStr since_date);
     ("max_repos", AInt config_max_repos);
     ("exclude_forks", ABool true);
     ("keywords", AKeywords (match config_keywords with
                             | [] => None
                             | _ => Some config_keywords
                             end));
     ("skip_repos", ASet cached_repos)].

(* ===================================================================== *)
(** * src/cache.py                                                        *)
(* ===================================================================== *)

(** The files of the cache directory: path to text content. *)
Definition FS : Type := PyDict.t string.

Record RepoCache : Type := mkRepoCache {
  cache_path : string;
  cache_days : Z;
  _data : PyDict.t string
}.

(** ** [json.dumps(d, indent=2)] for a [dict[str, str]] *)

Definition dquote : string := String (ascii_of_nat 34) EmptyString.
Definition backslash : string := String (ascii_of_nat 92) EmptyString.
Definition newline : string := String (ascii_of_nat 10) EmptyString.

Definition hex_digit (n : nat) : string :=
  String (nth n (list_ascii_of_string "0123456789abcdef") "0"%char) EmptyString.

(** One character of a JSON string with [ensure_ascii=True]. *)
Definition json_escape_char (c : ascii) : string :=
  let n := nat_of_ascii c in
  if (n =? 34)%nat then (backslash ++ dquote)%string
  else if (n =? 92)%nat then (backslash ++ backslash)%string
  else if (n =? 10)%nat then (backslash ++ "n")%string
  else if (n =? 13)%nat then (backslash ++ "r")%string
  else if (n =? 9)%nat then (backslash ++ "t")%string
  else if (n =? 8)%nat then (backslash ++ "b")%string
  else if (n =? 12)%nat then (backslash ++ "f")%string
  else if ((n <? 32) || (126 <? n))%nat
       then (backslash ++ "u00" ++ hex_digit (n / 16) ++ hex_digit (n mod 16))%string
  else String c EmptyString.

Fixpoint json_escape (s : string) : string :=
  match s with
  | EmptyString => EmptyString
  | String c rest => (json_escape_char c ++ json_escape rest)%string
  end.

Definition json_string (s : string) : string :=
  (dquote ++ json_escape s ++ dquote)%string.

Definition json_dumps (d : PyDict.t string) : string :=
  match PyDict.items d with
  | [] => "{}"
  | entries =>
      ("{" ++ newline
       ++ join ("," ++ newline)
            (map (fun kv => "  " ++ json_string (fst kv) ++ ": " ++ json_string (snd kv))
                 entries)
       ++ newline ++ "}")%string
  end.

(** ** Files *)

(** What [Path.write_text] does to the file system, one system call at a
    time: [open(path, "w")] creates or truncates the file, [write] appends to
    it, [close] leaves it as it is. *)
Inductive FileOp : Type :=
| OpenTruncate (p : string)
| WriteChunk (p : string) (data : string)
| CloseFile (p : string).

Definition fs_apply (fs : FS) (op : FileOp) : FS :=
  match op with
  | OpenTruncate p => PyDict.set fs p ""
  | WriteChunk p data =>
      PyDict.set fs p (match PyDict.get fs p with
                       | Some old => (old ++ data)%string
                       | None => data
                       end)
  | CloseFile p => fs
  end.

(** [Path.write_text(data)]: [with self.open(mode="w") as f: return f.write(data)] *)
Definition write_text (p : string) (data : string) : list FileOp :=
  [OpenTruncate p; WriteChunk p data; CloseFile p].

(** [RepoCache.save] as the operations it performs. *)
Definition save_ops (self : RepoCache) : list FileOp :=
  write_text (cache_path self) (json_dumps (_data self)).

(** [RepoCache.save] run to its end. *)
Definition save (self : RepoCache) (fs : FS) : FS :=
  fold_left fs_apply (save_ops self) fs.

(** The file system left behind when the process dies after [n] of the
    operations of [save]. *)
Definition save_interrupted (self : RepoCache) (fs : FS) (n : nat) : FS :=
  fold_left fs_apply (firstn n (save_ops self)) fs.

(** ** Dates *)

(** A [datetime.date] is its proleptic Gregorian ordinal, from
    [date.min] (0001-01-01, ordinal 1) to [date.max] (9999-12-31). *)
Definition MINORD : Z := 1.
Definition MAXORD : Z := 3652059.

Definition valid_date (d : Z) : bool := (MINORD <=? d) && (d <=? MAXORD).

(** [d - timedelta(days=n)] *)
Definition date_minus_days (d n : Z) : Exn + Z :=
  if 999999999 <? Z.abs n
  then inl (OverflowError "days must have magnitude <= 999999999")
  else if valid_date (d - n) then inr (d - n)
  else inl (OverflowError "date value out of range").

(** ** Reading a text file

    A file holds bytes, one character per byte. [Path.read_text()] opens it
    in text mode: the bytes are decoded with the encoding of the locale,
    which raises [UnicodeDecodeError] on bytes it does not accept, and every
    [\r\n] and every lone [\r] is read as [\n]. *)

Definition CR : ascii := ascii_of_nat 13.
Definition LF : ascii := ascii_of_nat 10.

(** The newlines of text mode: a [\r] before a [\n] is dropped, any other
    [\r] becomes a [\n]. *)
Fixpoint universal_newlines (s : string) : string :=
  match s with
  | EmptyString => EmptyString
  | String c rest =>
      if Ascii.eqb c CR then
        match rest with
        | String d _ =>
            if Ascii.eqb d LF then universal_newlines rest
            else String LF (universal_newlines rest)
        | EmptyString => String LF EmptyString
        end
      else String c (universal_newlines rest)
  end.

(** [Path.read_text()] on the content of a file; [decode] is the codec of
    the locale, [None] standing for [UnicodeDecodeError]. *)
Definition read_text (decode : string -> option string) (content : string)
    : Exn + string :=
  match decode content with
  | None => inl UnicodeDecodeError
  | Some text => inr (universal_newlines text)
  end.

Section Cache.

(** The codec of the locale, for [read_text]. *)
Variable decode : string -> option string.
(** [json.loads] on the text of a cache file. *)
Variable json_loads : string -> Exn + PyDict.t string.
(** [date.fromisoformat]; [None] is [ValueError]. *)
Variable fromisoformat : string -> option Z.
(** [date.today()] *)
Variable today : Z.

(** [RepoCache.__init__] *)
Definition RepoCache_init (fs : FS) (cache_path : string) (cache_days : Z)
    : Exn + RepoCache :=
  match PyDict.get fs cache_path with
  | Some content =>
      (* cache_path.exists(): try json.loads(cache_path.read_text()),
         except json.JSONDecodeError *)
      match read_text decode content with
      | inl e => inl e
      | inr text =>
          match json_loads text with
          | inr d =>
              inr {| cache_path := cache_path; cache_days := cache_days; _data := d |}
          | inl JSONDecodeError =>
              inr {| cache_path := cache_path; cache_days := cache_days;
                     _data := PyDict.empty |}
          | inl e => inl e
          end
      end
  | None =>
      inr {| cache_path := cache_path; cache_days := cache_days;
             _data := PyDict.empty |}
  end.

(** [RepoCache.is_seen] *)
Definition is_seen (self : RepoCache) (full_name : string) : bool :=
  PyDict.contains (_data self) full_name.

(** The entries the comprehension of [prune] keeps, in order; the first
    date that does not parse raises. The message of Python goes on with the
    [repr] of the text, which is left out here. *)
Fixpoint prune_entries (cutoff : Z) (entries : list (string * string))
    : Exn + list (string * string) :=
  match entries with
  | [] => inr []
  | (name, seen_date) :: rest =>
      match fromisoformat seen_date with
      | None => inl (ValueError "Invalid isoformat string")
      | Some d =>
          match prune_entries cutoff rest with
          | inl e => inl e
          | inr kept =>
              inr (if d >=? cutoff then (name, seen_date) :: kept else kept)
          end
      end
  end.

(** [RepoCache.prune]. The store is assigned once, after the comprehension:
    when the cutoff or a date raises, the cache is as it was. *)
Definition prune (self : RepoCache) : Exn + RepoCache :=
  match date_minus_days today (cache_days self) with
  | inl e => inl e
  | inr cutoff =>
      match prune_entries cutoff (PyDict.items (_data self)) with
      | inl e => inl e
      | inr kept =>
          inr {| cache_path := cache_path self;
                 cache_days := cache_days self;
                 _data := PyDict.of_pairs kept |}
      end
  end.

End Cache.

(** [date.fromisoformat] on the one format every Python version accepts,
    [YYYY-MM-DD]. *)
Definition digit (c : ascii) : option Z :=
  let n := nat_of_ascii c in
  if ((48 <=? n) && (n <=? 57))%nat then Some (Z.of_nat n - 48) else None.

Definition is_leap (y : Z) : bool :=
  (y mod 4 =? 0) && (negb (y mod 100 =? 0) || (y mod 400 =? 0)).

Definition days_in_month (y m : Z) : Z :=
  if m =? 2 then (if is_leap y then 29 else 28)
  else if (m =? 4) || (m =? 6) || (m =? 9) || (m =? 11) then 30
  else 31.

Definition days_before_year (y : Z) : Z :=
  let y' := y - 1 in y' * 365 + y' / 4 - y' / 100 + y' / 400.

(** The days of the year before month [k + 1]. *)
Fixpoint days_before_month (y : Z) (k : nat) : Z :=
  match k with
  | O => 0
  | S k' => days_before_month y k' + days_in_month y (Z.of_nat k)
  end.

(** [date(y, m, d).toordinal()] *)
Definition ymd_to_ord (y m d : Z) : Z :=
  days_before_year y + days_before_month y (Z.to_nat (m - 1)) + d.

Definition date_fromisoformat (s : string) : option Z :=
  match list_ascii_of_string s with
  | [y1; y2; y3; y4; d1; m1; m2; d2; a1; a2] =>
      match digit y1, digit y2, digit y3, digit y4,
            digit m1, digit m2, digit a1, digit a2 with
      | Some y1, Some y2, Some y3, Some y4, Some m1, Some m2, Some a1, Some a2 =>
          let y := 1000 * y1 + 100 * y2 + 10 * y3 + y4 in
          let m := 10 * m1 + m2 in
          let d := 10 * a1 + a2 in
          if (Ascii.eqb d1 "-") && (Ascii.eqb d2 "-")
             && (1 <=? y) && (1 <=? m) && (m <=? 12)
             && (1 <=? d) && (d <=? days_in_month y m)
          then Some (ymd_to_ord y m d)
          else None
      | _, _, _, _, _, _, _, _ => None
      end
  | _ => None
  end.

(* ===================================================================== *)
(** * Concrete servers, clients and caches used in the examples           *)
(* ===================================================================== *)

Definition item (name : string) (stargazers : Z) : ApiItem :=
  {| j_full_name := Some name;
     j_html_url := Some ("https://github.com/" ++ name)%string;
     j_description := Some "A repository";
     j_stargazers_count := Some stargazers;
     j_language := Some "Python";
     j_topics := Some ["ai"];
     j_fork := Some false |}.

Definition ok_items (l : list ApiItem) : Outcome :=
  Response 200 (JsonObject (Some l) None).

(** A server in the manner of the mock handlers of tests/test_github.py:
    the first request gets one page, the later ones an empty page. *)
Definition first_page_server (page : list ApiItem) : list Request -> Request -> Outcome :=
  fun history _ =>
    match history with
    | [] => ok_items page
    | _ => ok_items []
    end.

Definition fresh_world (srv : list Request -> Request -> Outcome) : World :=
  {| server := srv; exchanged := [] |}.

Definition entered_client : AsyncGitHubClient :=
  __aenter__ (AsyncGitHubClient_init "test-token" 10).

(** ** Pagination as the spec words it

    What a log of exchanges says about the pages: the items of a page, and
    the condition under which the pagination of one batch goes on. *)

Definition page_items (o : Outcome) : list ApiItem :=
  match o with
  | Response _ (JsonObject (Some l) _) => l
  | _ => []
  end.

Definition page_len (o : Outcome) : Z := len (page_items o).

(** [stops_exactly cap page total lens]: [lens] are the sizes of the pages
    requested from page index [page] on, [total] results being held already.
    No page is requested when the total has reached the cap; after a page,
    the next one is requested unless the page was empty, or the running total
    has reached the cap, or the next index would exceed 10. *)
Fixpoint stops_exactly (cap page total : Z) (lens : list Z) : bool :=
  match lens with
  | [] => cap <=? total
  | n :: rest =>
      (total <? cap)
      && match rest with
         | [] => (n =? 0) || (cap <=? total + n) || (10 <? page + 1)
         | _ :: _ =>
             negb (n =? 0) && (total + n <? cap) && (page + 1 <=? 10)
             && stops_exactly cap (page + 1) (total + n) rest
         end
  end.

Fixpoint sumZ (l : list Z) : Z :=
  match l with
  | [] => 0
  | x :: rest => x + sumZ rest
  end.

(** ** Merging as the spec words it *)

(** The union of the per-batch results deduplicated by identifier: going
    through the results in batch order, a repository is kept unless one with
    the same identifier came earlier. *)
Fixpoint first_wins_from (seen : list string) (l : list Repository) : list Repository :=
  match l with
  | [] => []
  | r :: rest =>
      if existsb (String.eqb (full_name r)) seen then first_wins_from seen rest
      else r :: first_wins_from (full_name r :: seen) rest
  end.

Definition first_wins (l : list Repository) : list Repository :=
  first_wins_from [] l.

(** One paginated search per batch, in the listed order. *)
Fixpoint per_batch_results (since_date : string) (max_repos : Z)
    (exclude_forks : bool) (batches : list (list string))
    : M (list (list Repository)) :=
  match batches with
  | [] => ret []
  | batch :: rest =>
      r <- _search_repos_single since_date max_repos exclude_forks (Some batch) ;;
      rs <- per_batch_results since_date max_repos exclude_forks rest ;;
      ret (r :: rs)
  end.

Definition has_name (n : string) (r : Repository) : bool :=
  String.eqb (full_name r) n.

Definition more_stars (a b : Repository) : Prop := stars a >= stars b.

(** ** Auxiliary definitions of the proofs *)

(** Pages [page], [page + 1], ... of the query [q]. *)
Definition page_requests (q : string) (page : Z) (n : nat) : list Request :=
  map (fun i => search_request q (page + Z.of_nat i)) (seq 0 n).

Definition b2z (b : bool) : Z := if b then 1 else 0.

(** The task at an index is the task of the repository at that index. *)
Definition task_for (t : Task) (name : string) : Prop :=
  match t with
  | Pending n | InFlight n => n = name
  | Returned r => fst r = name
  | Failed _ => True
  end.

Definition is_in_flight (t : Task) : bool :=
  match t with InFlight _ => true | _ => false end.

Definition is_pending (t : Task) : bool :=
  match t with Pending _ => true | _ => false end.

Definition terminal (t : Task) : bool :=
  match t with Returned _ | Failed _ => true | _ => false end.

Definition is_failed (t : Task) : bool :=
  match t with Failed _ => true | _ => false end.

Definition failed (g : Gather) : Z := len (filter is_failed (tasks g)).

(** What the outcome [o] turns the task of [name] into. *)
Definition task_after (b64decode : string -> option (list Byte.byte))
    (decode_utf8_replace : list Byte.byte -> string)
    (max_chars : Z) (name : string) (o : Outcome) : Task :=
  match readme_of_outcome b64decode decode_utf8_replace max_chars o with
  | inr content => Returned (name, content)
  | inl e => Failed e
  end.

(** Seven keywords make a batch of six and a batch of one; [owner/a] comes
    back from both batches, with 5 stars and then with 50, and the first copy
    is the one kept. *)
Definition seven_keywords : list string := ["k1"; "k2"; "k3"; "k4"; "k5"; "k6"; "k7"].

Definition two_batch_server : list Request -> Request -> Outcome :=
  fun history _ =>
    match length history with
    | 0%nat => ok_items [item "owner/a" 5; item "owner/b" 7]
    | 2%nat => ok_items [item "owner/a" 50; item "owner/c" 6]
    | _ => ok_items []
    end.

(** The outcomes that the [try] block of a readme fetch turns into
    [httpx.HTTPError] or into the early return: a transport failure, a 404,
    or any other status outside 2xx. *)
Definition http_failure (o : Outcome) : bool :=
  match o with
  | TransportError => true
  | Response status_code _ => (status_code =? 404) || negb (is_success status_code)
  end.

(** Stand-ins for [base64.b64decode] and [bytes.decode] in the examples: the
    content is taken as it is. *)
Definition id_b64decode (s : string) : option (list Byte.byte) :=
  Some (list_byte_of_string s).

Definition id_decode (raw : list Byte.byte) : string :=
  string_of_list_byte raw.

Definition repo_named (name : string) : Repository :=
  {| full_name := name; url := ""; description := ""; stars := 0;
     language := ""; topics := []; is_fork := false; readme := "" |}.

(** Twenty repositories, [owner/A] to [owner/T]. *)
Definition twenty_repos : list Repository :=
  map (fun i => repo_named ("owner/" ++ String (ascii_of_nat (65 + i)) EmptyString)%string)
      (seq 0 20).

(** Two repositories; the readme of the second is not found and the request
    for the first fails in transport, the second answer arriving first. *)
Definition two_repos : list Repository := [repo_named "owner/a"; repo_named "owner/b"].

Definition two_failures : list Event :=
  [Start 0; Start 1; Complete 1 (Response 404 NotJson); Complete 0 TransportError].

(** A server that answers 200 with a body that is not JSON. *)
Definition not_json_server : list Request -> Request -> Outcome :=
  fun _ _ => Response 200 NotJson.

(** ** Pruning as the spec words it *)

(** An entry stays when its last-seen date is the cutoff or later. *)
Definition not_expired (fromisoformat : string -> option Z) (cutoff : Z)
    (entry : string * string) : bool :=
  match fromisoformat (snd entry) with
  | Some d => cutoff <=? d
  | None => false
  end.

(** A cache seen on 2025-12-10 with a window of 30 days: one entry 40 days
    old, one exactly 30 days old, one 5 days old. *)
Definition today_2025_12_10 : Z := 739595.

Definition boundary_cache : RepoCache :=
  {| cache_path := "seen_repos.json";
     cache_days := 30;
     _data := [("old/repo", "2025-10-31");
               ("edge/repo", "2025-11-10");
               ("recent/repo", "2025-12-05")] |}.

(** A cache about to be saved over a file that holds an older state. *)
Definition new_cache : RepoCache :=
  {| cache_path := "seen_repos.json";
     cache_days := 30;
     _data := [("owner/new", "2025-12-10")] |}.

Definition old_file : string := json_dumps [("owner/old", "2025-12-01")].

Definition old_fs : FS := [("seen_repos.json", old_file)].

(** A server with an endless supply: every page is full. *)
Definition full_pages_server : list Request -> Request -> Outcome :=
  fun _ _ => ok_items (repeat (item "owner/repo" 1) 100).

(** ** Auxiliary definitions for the further properties *)

(** [res] is the parse of [its], item by item. *)
Definition parsed (its : list ApiItem) (res : list Repository) : Prop :=
  Forall2 (fun it r => from_api it = inr r) its res.

(** A response that [_search_repos_single] accepts: 2xx with a JSON body. *)
Definition ok_page (o : Outcome) : Prop :=
  exists st its content, o = Response st (JsonObject its content) /\ is_success st = true.

(** The items of all the pages of a log, in order. *)
Definition all_items (ex : list (Request * Outcome)) : list ApiItem :=
  concat (map page_items (map snd ex)).

(** The keyword groups that [search_repos] turns into queries: the batches
    when there are more than six keywords, the list as it is otherwise. *)
Definition query_groups (keywords : option (list string)) : list (option (list string)) :=
  match keywords with
  | Some kws =>
      if (MAX_KEYWORDS_PER_QUERY <? length kws)%nat
      then map Some (keyword_batches kws)
      else [keywords]
  | None => [None]
  end.

(** A request for one of the pages 1 to 10 of the query of one of [groups]. *)
Definition page_of_group (since_date : string) (exclude_forks : bool)
    (groups : list (option (list string))) (req : Request) : Prop :=
  exists group p,
    In group groups /\ 1 <= p <= 10
    /\ req = search_request (build_query since_date exclude_forks group) p.

Definition has_stars (s : Z) (r : Repository) : bool := stars r =? s.

(** The indices of the tasks that a schedule starts, in order. *)
Definition started (sched : list Event) : list nat :=
  flat_map (fun ev => match ev with Start i => [i] | Complete _ _ => [] end) sched.

(** A readme within the limit, when the limit is not negative. *)
Definition within_limit (max_chars : Z) (content : string) : Prop :=
  0 <= max_chars -> Z.of_nat (String.length content) <= max_chars.

Definition task_within_limit (max_chars : Z) (t : Task) : Prop :=
  match t with
  | Returned r => within_limit max_chars (snd r)
  | _ => True
  end.

(** On a client that was not entered, a task is still pending or has
    returned the empty string. *)
Definition idle_task (t : Task) (name : string) : Prop :=
  t = Pending name \/ t = Returned (name, "").

(** Two batches whose repositories all have five stars. *)
Definition tie_server : list Request -> Request -> Outcome :=
  fun history _ =>
    match length history with
    | 0%nat => ok_items [item "owner/x" 5; item "owner/y" 5]
    | 2%nat => ok_items [item "owner/z" 5; item "owner/x" 5]
    | _ => ok_items []
    end.

(** ** More of src/cache.py *)

Section CacheMarks.

(** [date.isoformat] *)
Variable isoformat : Z -> string.
(** [date.today()] *)
Variable today : Z.

(** [RepoCache.mark_seen] *)
Definition mark_seen (self : RepoCache) (full_name : string) : RepoCache :=
  {| cache_path := cache_path self;
     cache_days := cache_days self;
     _data := PyDict.set (_data self) full_name (isoformat today) |}.

End CacheMarks.

(** [date.fromordinal(n)] as year, month, day. *)
Fixpoint month_of_day (y : Z) (k : nat) (m : Z) (rem : Z) : Z * Z :=
  match k with
  | O => (m, rem)
  | S k' =>
      let dim := days_in_month y m in
      if rem <? dim then (m, rem) else month_of_day y k' (m + 1) (rem - dim)
  end.

Definition ord_to_ymd (n : Z) : Z * Z * Z :=
  let n0 := n - 1 in
  let n400 := n0 / 146097 in
  let r400 := n0 mod 146097 in
  let n100 := r400 / 36524 in
  let r100 := r400 mod 36524 in
  let n4 := r100 / 1461 in
  let r4 := r100 mod 1461 in
  let n1 := r4 / 365 in
  let r1 := r4 mod 365 in
  let year := n400 * 400 + 1 + n100 * 100 + n4 * 4 + n1 in
  if (n1 =? 4) || (n100 =? 4) then (year - 1, 12, 31)
  else
    let md := month_of_day year 11 1 r1 in
    (year, fst md, snd md + 1).

Definition digit_char (d : Z) : string :=
  String (ascii_of_nat (48 + Z.to_nat d)) EmptyString.

(** ["%02d"] and ["%04d"] on a number that is not negative. *)
Definition pad2 (n : Z) : string :=
  (digit_char (n / 10 mod 10) ++ digit_char (n mod 10))%string.

Definition pad4 (n : Z) : string :=
  (digit_char (n / 1000 mod 10) ++ digit_char (n / 100 mod 10)
   ++ digit_char (n / 10 mod 10) ++ digit_char (n mod 10))%string.

(** [date.isoformat] *)
Definition date_isoformat (n : Z) : string :=
  let '(y, m, d) := ord_to_ymd n in
  (pad4 y ++ "-" ++ pad2 m ++ "-" ++ pad2 d)%string.

(** ** A stand-in for [json.loads] in the examples

    It reads the documents that [json.dumps] writes for a [dict[str, str]]:
    one object whose values are strings, with the escapes and the white space
    of JSON. Every other text counts as undecodable here. *)

Definition is_json_ws (c : ascii) : bool :=
  let n := nat_of_ascii c in
  ((n =? 32) || (n =? 10) || (n =? 13) || (n =? 9))%nat.

Fixpoint skip_ws (l : list ascii) : list ascii :=
  match l with
  | c :: rest => if is_json_ws c then skip_ws rest else l
  | [] => []
  end.

Definition hex_value (c : ascii) : option nat :=
  let n := nat_of_ascii c in
  if ((48 <=? n) && (n <=? 57))%nat then Some (n - 48)%nat
  else if ((97 <=? n) && (n <=? 102))%nat then Some (n - 87)%nat
  else if ((65 <=? n) && (n <=? 70))%nat then Some (n - 55)%nat
  else None.

(** The characters of a string literal after its opening quote, and what
    follows the closing quote. *)
Fixpoint parse_chars (l : list ascii) : option (string * list ascii) :=
  match l with
  | [] => None
  | c :: rest =>
      let n := nat_of_ascii c in
      if (n =? 34)%nat then Some (EmptyString, rest)
      else if (n =? 92)%nat then
        match rest with
        | e :: rest1 =>
            let simple (x : nat) :=
              match parse_chars rest1 with
              | Some (s, r) => Some (String (ascii_of_nat x) s, r)
              | None => None
              end in
            let m := nat_of_ascii e in
            if (m =? 34)%nat then simple 34%nat
            else if (m =? 92)%nat then simple 92%nat
            else if (m =? 47)%nat then simple 47%nat
            else if (m =? 110)%nat then simple 10%nat
            else if (m =? 114)%nat then simple 13%nat
            else if (m =? 116)%nat then simple 9%nat
            else if (m =? 98)%nat then simple 8%nat
            else if (m =? 102)%nat then simple 12%nat
            else if (m =? 117)%nat then
              match rest1 with
              | h1 :: h2 :: h3 :: h4 :: rest2 =>
                  match hex_value h1, hex_value h2, hex_value h3, hex_value h4 with
                  | Some 0%nat, Some 0%nat, Some a, Some b =>
                      match parse_chars rest2 with
                      | Some (s, r) => Some (String (ascii_of_nat (16 * a + b)) s, r)
                      | None => None
                      end
                  | _, _, _, _ => None
                  end
              | _ => None
              end
            else None
        | [] => None
        end
      else if (n <? 32)%nat then None
      else
        match parse_chars rest with
        | Some (s, r) => Some (String c s, r)
        | None => None
        end
  end.

Definition parse_string (l : list ascii) : option (string * list ascii) :=
  match l with
  | c :: rest => if (nat_of_ascii c =? 34)%nat then parse_chars rest else None
  | [] => None
  end.

(** The members of an object after the first one has been announced. *)
Fixpoint parse_members (fuel : nat) (l : list ascii) (acc : PyDict.t string)
    : option (PyDict.t string * list ascii) :=
  match fuel with
  | O => None
  | S fuel' =>
      match parse_string (skip_ws l) with
      | Some (k, r1) =>
          match skip_ws r1 with
          | colon :: r2 =>
              if (nat_of_ascii colon =? 58)%nat then
                match parse_string (skip_ws r2) with
                | Some (v, r3) =>
                    let acc' := PyDict.set acc k v in
                    match skip_ws r3 with
                    | sep :: r4 =>
                        if (nat_of_ascii sep =? 44)%nat then parse_members fuel' r4 acc'
                        else if (nat_of_ascii sep =? 125)%nat then Some (acc', r4)
                        else None
                    | [] => None
                    end
                | None => None
                end
              else None
          | [] => None
          end
      | None => None
      end
  end.

Definition json_loads_strings (text : string) : Exn + PyDict.t string :=
  match skip_ws (list_ascii_of_string text) with
  | open :: r =>
      if (nat_of_ascii open =? 123)%nat then
        match skip_ws r with
        | close :: r' =>
            if (nat_of_ascii close =? 125)%nat then
              match skip_ws r' with
              | [] => inr PyDict.empty
              | _ => inl JSONDecodeError
              end
            else
              match parse_members (String.length text) r PyDict.empty with
              | Some (d, rest) =>
                  match skip_ws rest with
                  | [] => inr d
                  | _ => inl JSONDecodeError
                  end
              | None => inl JSONDecodeError
              end
        | [] => inl JSONDecodeError
        end
      else inl JSONDecodeError
  | [] => inl JSONDecodeError
  end.

(** A cache whose identifiers and dates need escapes. *)
Definition awkward_cache : RepoCache :=
  {| cache_path := "seen_repos.json";
     cache_days := 30;
     _data := [("owner/new", "2025-12-10");
               (String (ascii_of_nat 34) (String (ascii_of_nat 92) "x/y"),
                String (ascii_of_nat 10) (String (ascii_of_nat 233) "z"))] |}.

(* ===================================================================== *)
(** * src/llm/base.py, src/discord.py and the rest of src/main.py         *)
(* ===================================================================== *)

(** [str(n)] for an [int]. *)
Definition str_of_int (n : Z) : string := NilZero.string_of_int (Z.to_int n).

(** A text given by its UTF-8 bytes, for the characters outside one byte. *)
Definition utf8 (bytes : list nat) : string :=
  string_of_list_ascii (map ascii_of_nat bytes).

Definition star_emoji : string := utf8 [226; 173; 144]%nat.
Definition dividers_emoji : string := utf8 [240; 159; 151; 130; 239; 184; 143]%nat.
Definition bulb_emoji : string := utf8 [240; 159; 146; 161]%nat.
Definition magnifier_emoji : string := utf8 [240; 159; 148; 141]%nat.

(** [x or default] on a string *)
Definition str_or (x default : string) : string :=
  if String.eqb x "" then default else x.

Record EvaluationResult : Type := mkEvaluationResult {
  interested : bool;
  reason : string
}.

Record Embed : Type := mkEmbed {
  title : string;
  embed_url : string;
  embed_description : string;
  color : Z
}.

(** [format_repo_embed] *)
Definition format_repo_embed (repo : Repository) (result : EvaluationResult) : Embed :=
  let topics_str := match topics repo with
                    | [] => "none"
                    | ts => join ", " ts
                    end in
  let d1 := (star_emoji ++ " " ++ str_of_int (stars repo) ++ " stars | "
             ++ dividers_emoji ++ " " ++ str_or (language repo) "Unknown"
             ++ newline ++ newline)%string in
  let d2 := (d1 ++ if String.eqb (description repo) "" then ""
                   else description repo ++ newline ++ newline)%string in
  let d3 := (d2 ++ "**Topics:** " ++ topics_str ++ newline ++ newline)%string in
  let d4 := (d3 ++ bulb_emoji ++ " *" ++ reason result ++ "*")%string in
  {| title := full_name repo;
     embed_url := url repo;
     embed_description := d4;
     color := 2328118 |}.

(** The JSON bodies that [DiscordClient] posts. *)
Inductive Payload : Type :=
| EmbedsPayload (embeds : list Embed)
| ContentPayload (content : string).

(** The webhook and the log of what was posted to it. *)
Record Discord : Type := mkDiscord {
  webhook : list (string * Payload) -> string -> Payload -> Outcome;
  posted : list (string * Payload)
}.

(** [self._client.post(self.webhook_url, json=payload)] *)
Definition client_post (webhook_url : string) (payload : Payload) (dw : Discord)
    : Res Z * Discord :=
  let o := webhook dw (posted dw) webhook_url payload in
  let dw' := {| webhook := webhook dw;
                posted := posted dw ++ [(webhook_url, payload)] |} in
  match o with
  | TransportError => (Raise HTTPError, dw')
  | Response status_code _ => (Ret status_code, dw')
  end.

(** [range(0, stop, step)] for any [step]. *)
Definition range_from_zero (stop : nat) (step : Z) : Exn + list nat :=
  if step =? 0 then inl (ValueError "range() arg 3 must not be zero")
  else if step <? 0 then inr []
  else inr (range_step stop (Z.to_nat step)).

(** The body of the loop of [send_repos], for the starts that are left. *)
Fixpoint post_batches (webhook_url : string)
    (repos_with_results : list (Repository * EvaluationResult))
    (batch_size : nat) (starts : list nat) (dw : Discord) : Res unit * Discord :=
  match starts with
  | [] => (Ret tt, dw)
  | i :: rest =>
      let batch := slice repos_with_results i (i + batch_size) in
      let embeds := map (fun rr => format_repo_embed (fst rr) (snd rr)) batch in
      match client_post webhook_url (EmbedsPayload embeds) dw with
      | (Ret status_code, dw') =>
          match raise_for_status status_code with
          | inl e => (Raise e, dw')
          | inr _ => post_batches webhook_url repos_with_results batch_size rest dw'
          end
      | (Raise e, dw') => (Raise e, dw')
      | (OutOfFuel, dw') => (OutOfFuel, dw')
      end
  end.

(** [DiscordClient.send_repos] *)
Definition send_repos (webhook_url : string)
    (repos_with_results : list (Repository * EvaluationResult))
    (batch_size : Z) (dw : Discord) : Res unit * Discord :=
  match range_from_zero (length repos_with_results) batch_size with
  | inl e => (Raise e, dw)
  | inr starts =>
      post_batches webhook_url repos_with_results (Z.to_nat batch_size) starts dw
  end.

(** [DiscordClient.send_summary] *)
Definition send_summary (webhook_url : string) (total_found total_processed : Z)
    (dw : Discord) : Res unit * Discord :=
  let payload :=
    ContentPayload
      (magnifier_emoji ++ " **GitHub Discovery Report**" ++ newline
       ++ "Processed " ++ str_of_int total_processed ++ " repos, found "
       ++ str_of_int total_found ++ " interesting projects.")%string in
  match client_post webhook_url payload dw with
  | (Ret status_code, dw') =>
      match raise_for_status status_code with
      | inl e => (Raise e, dw')
      | inr _ => (Ret tt, dw')
      end
  | (Raise e, dw') => (Raise e, dw')
  | (OutOfFuel, dw') => (OutOfFuel, dw')
  end.

(** [open(path, "a")] and [write]: the text goes to the end of the file,
    which is created when it does not exist. *)
Definition append_text (fs : FS) (p : string) (text : string) : FS :=
  PyDict.set fs p (match PyDict.get fs p with
                   | Some old => (old ++ text)%string
                   | None => text
                   end).

(** The lines that [log_rejected_repo] writes; [timestamp] is
    [datetime.now().strftime("%Y-%m-%d %H:%M:%S")]. *)
Definition rejected_entry (timestamp : string) (repo : Repository) (why : string) : string :=
  ("[" ++ timestamp ++ "] " ++ full_name repo ++ " (" ++ str_of_int (stars repo)
   ++ star_emoji ++ ")" ++ newline
   ++ "  URL: " ++ url repo ++ newline
   ++ "  Description: " ++ str_or (description repo) "N/A" ++ newline
   ++ "  Language: " ++ str_or (language repo) "N/A" ++ newline
   ++ "  Topics: " ++ match topics repo with
                      | [] => "N/A"
                      | ts => join ", " ts
                      end ++ newline
   ++ "  Reason: " ++ why ++ newline
   ++ newline)%string.

(** [log_rejected_repo] *)
Definition log_rejected_repo (timestamp : string) (log_path : string)
    (repo : Repository) (why : string) (fs : FS) : FS :=
  append_text fs log_path (rejected_entry timestamp repo why).

(** [repo.readme = readmes.get(repo.full_name, "")] for every repository
    (lines 127-128 of [run_pipeline_async]). *)
Definition attach_readmes (new_repos : list Repository) (readmes : PyDict.t string)
    : list Repository :=
  map (fun repo =>
         {| full_name := full_name repo;
            url := url repo;
            description := description repo;
            stars := stars repo;
            language := language repo;
            topics := topics repo;
            is_fork := is_fork repo;
            readme := match PyDict.get readmes (full_name repo) with
                      | Some text => text
                      | None => ""
                      end |})
      new_repos.

(** The state of the evaluation loop of [run_pipeline_async]. *)
Record Evaluation : Type := mkEvaluation {
  matched : list (Repository * EvaluationResult);
  rejected_count : Z;
  cache : RepoCache;
  files : FS
}.

Section Pipeline.

(** [llm.evaluate] of the provider in use. *)
Variable evaluate : Repository -> string -> Exn + EvaluationResult.
Variable isoformat : Z -> string.
Variable fromisoformat : string -> option Z.
(** [date.today()] is read again at every [mark_seen] and at [prune]:
    [today k] is the date when the repository at position [k] of the list is
    marked, after its evaluation, and [today (length new_repos)] the date at
    which [prune] runs. *)
Variable today : nat -> Z.
(** The clock, formatted, at the moment the [k]-th repository is logged. *)
Variable timestamp : nat -> string.

(** Lines 135-149: the loop over [new_repos], from index [k] on. An
    exception of [evaluate] leaves the loop; the files written so far stay
    written. *)
Fixpoint evaluate_all (prompt : string) (rejected_log_path : option string)
    (k : nat) (new_repos : list Repository) (st : Evaluation) : (Exn * FS) + Evaluation :=
  match new_repos with
  | [] => inr st
  | repo :: rest =>
      match evaluate repo prompt with
      | inl e => inl (e, files st)
      | inr result =>
          let st1 :=
            if interested result then
              {| matched := matched st ++ [(repo, result)];
                 rejected_count := rejected_count st;
                 cache := cache st;
                 files := files st |}
            else
              {| matched := matched st;
                 rejected_count := rejected_count st + 1;
                 cache := cache st;
                 files := match rejected_log_path with
                          | Some log_path =>
                              log_rejected_repo (timestamp k) log_path repo
                                (reason result) (files st)
                          | None => files st
                          end |} in
          evaluate_all prompt rejected_log_path (S k) rest
            {| matched := matched st1;
               rejected_count := rejected_count st1;
               cache := mark_seen isoformat (today k) (cache st1) (full_name repo);
               files := files st1 |}
      end
  end.

(** Lines 130-174 of [run_pipeline_async], entered with the list
    [new_repos] and the cache built at line 85, the provider being built:
    the evaluation, the report to Discord, and the cache pruned and saved.
    The result is the pair of [processed] and [matched]. Logging and
    printing are left out. In the repository as it is these lines are not
    reached: line 98 calls [cache.get_seen_repos], which [RepoCache] does
    not define, and raises [AttributeError] (as line 95 does on
    [config.min_stars] when no minimum is passed). *)
Definition evaluate_notify_persist
    (discord_webhook_url : string) (batch_size : Z) (dry_run : bool)
    (rejected_log_path : option string) (prompt : string)
    (new_repos : list Repository) (cache0 : RepoCache) (fs : FS) (dw : Discord)
    : Res (Z * Z) * (FS * Discord) :=
  match evaluate_all prompt rejected_log_path 0 new_repos
          {| matched := []; rejected_count := 0; cache := cache0; files := fs |} with
  | inl (e, fs1) => (Raise e, (fs1, dw))
  | inr st =>
      let notified :=
        if negb dry_run && negb (len (matched st) =? 0) then
          match send_summary discord_webhook_url (len (matched st)) (len new_repos) dw with
          | (Ret _, dw1) => send_repos discord_webhook_url (matched st) batch_size dw1
          | other => other
          end
        else (Ret tt, dw) in
      match notified with
      | (Ret _, dw2) =>
          match prune fromisoformat (today (length new_repos)) (cache st) with
          | inl e => (Raise e, (files st, dw2))
          | inr pruned =>
              (Ret (len new_repos, len (matched st)), (save pruned (files st), dw2))
          end
      | (Raise e, dw2) => (Raise e, (files st, dw2))
      | (OutOfFuel, dw2) => (OutOfFuel, (files st, dw2))
      end
  end.

End Pipeline.

(** The batches that [send_repos] cuts a list into, for a positive size. *)
Definition batches_of {A : Type} (l : list A) (size : nat) : list (list A) :=
  map (fun i => slice l i (i + size)) (range_step (length l) size).

(** The payload of one batch. *)
Definition batch_payload (webhook_url : string)
    (batch : list (Repository * EvaluationResult)) : string * Payload :=
  (webhook_url,
   EmbedsPayload (map (fun rr => format_repo_embed (fst rr) (snd rr)) batch)).

(** A webhook that accepts everything, and one that refuses everything. *)
Definition accepting_webhook : list (string * Payload) -> string -> Payload -> Outcome :=
  fun _ _ _ => Response 204 NotJson.

Definition refusing_webhook : list (string * Payload) -> string -> Payload -> Outcome :=
  fun _ _ _ => Response 429 NotJson.

Definition fresh_discord
    (hook : list (string * Payload) -> string -> Payload -> Outcome) : Discord :=
  {| webhook := hook; posted := [] |}.

(** Five matches to report. *)
Definition yes : EvaluationResult := {| interested := true; reason := "fits" |}.
Definition no : EvaluationResult := {| interested := false; reason := "does not fit" |}.

Definition five_matches : list (Repository * EvaluationResult) :=
  map (fun n => (repo_named n, yes)) ["o/a"; "o/b"; "o/c"; "o/d"; "o/e"].

(** What [evaluate] says of a repository: a match, or not (also when it raises). *)
Definition is_match (evaluate : Repository -> string -> Exn + EvaluationResult)
    (prompt : string) (repo : Repository) : bool :=
  match evaluate repo prompt with
  | inr result => interested result
  | inl _ => false
  end.

(** The text of a file, a missing file counting as empty. *)
Definition file_text (fs : FS) (p : string) : string :=
  match PyDict.get fs p with
  | Some text => text
  | None => ""
  end.

(** A provider that likes the repositories with at least ten stars. *)
Definition ten_stars (repo : Repository) (prompt : string) : Exn + EvaluationResult :=
  inr (if 10 <=? stars repo then yes else no).

Definition starred (name : string) (s : Z) : Repository :=
  {| full_name := name; url := ""; description := ""; stars := s;
     language := ""; topics := []; is_fork := false; readme := "" |}.

Definition three_found : list Repository :=
  [starred "o/big" 50; starred "o/small" 3; starred "o/mid" 10].

Definition fixed_clock (k : nat) : string := "2025-12-10 08:00:00".

(** A run within one day, and a run during which midnight passes after the
    second repository. *)
Definition same_day (k : nat) : Z := today_2025_12_10.

Definition past_midnight (k : nat) : Z :=
  if (k <? 2)%nat then today_2025_12_10 else today_2025_12_10 + 1.

Definition empty_cache : RepoCache :=
  {| cache_path := "seen_repos.json"; cache_days := 30; _data := PyDict.empty |}.

(** [repo.readme = text] on one repository. *)
Definition with_readme (repo : Repository) (text : string) : Repository :=
  {| full_name := full_name repo;
     url := url repo;
     description := description repo;
     stars := stars repo;
     language := language repo;
     topics := topics repo;
     is_fork := is_fork repo;
     readme := text |}.

(** Two answers out of order: the second repository is answered first, with
    a readme; the first one gets a 404. *)
Definition readme_then_missing : list Event :=
  [Start 0; Start 1;
   Complete 1 (Response 200 (JsonObject None (Some "# B")));
   Complete 0 (Response 404 NotJson)].


(* ===================================================================== *)
(** * src/llm/*_provider.py: what a provider makes of the model's answer  *)
(* ===================================================================== *)

(** The three providers differ in the call they make; from the moment the
    text of the answer is in [content] their code is the same. An exception
    is caught either as [json.JSONDecodeError] or as [Exception], and of the
    second only [str(e)] is used. *)
Inductive Failure : Type :=
| DecodeFailure                        (* json.JSONDecodeError *)
| OtherException (message : string).   (* any other Exception, with str(e) *)

(** [sub in s] on strings *)
Fixpoint str_contains (sub s : string) : bool :=
  prefix sub s
  || match s with
     | EmptyString => false
     | String _ rest => str_contains sub rest
     end.

(** [s.split(sep)] for a separator that is not empty: the text is read from
    left to right and cut at every occurrence of [sep], the search going on
    after the separator. [skip] counts the characters of a separator just
    found that are still to be passed over; [cur] is the piece being read. *)
Fixpoint split_from (sep : string) (s : string) (skip : nat) (cur : string)
    : list string :=
  match s with
  | EmptyString => [cur]
  | String c rest =>
      match skip with
      | S n => split_from sep rest n cur
      | O =>
          if prefix sep s
          then cur :: split_from sep rest (String.length sep - 1) ""
          else split_from sep rest 0 (cur ++ String c "")%string
      end
  end.

(** [s.split(sep)] *)
Definition str_split (s sep : string) : Failure + list string :=
  match sep with
  | EmptyString => inl (OtherException "empty separator")
  | _ => inr (split_from sep s 0 "")
  end.

(** [l[i]] for a non-negative [i] *)
Definition getitem {A : Type} (l : list A) (i : nat) : Failure + A :=
  match nth_error l i with
  | Some x => inr x
  | None => inl (OtherException "list index out of range")
  end.

(** [c.isspace()] for a character below 256, which is what [str.strip()]
    removes: tab to carriage return, the four separators 28 to 31, the
    space, NEL and the no-break space. *)
Definition isspace (c : ascii) : bool :=
  let n := nat_of_ascii c in
  ((9 <=? n) && (n <=? 13) || (28 <=? n) && (n <=? 32) || (n =? 133) || (n =? 160))%nat.

(** [s.lstrip()], [s.rstrip()], [s.strip()] *)
Fixpoint lstrip (s : string) : string :=
  match s with
  | EmptyString => EmptyString
  | String c rest => if isspace c then lstrip rest else s
  end.

Fixpoint rstrip (s : string) : string :=
  match s with
  | EmptyString => EmptyString
  | String c rest =>
      match rstrip rest with
      | EmptyString => if isspace c then EmptyString else String c EmptyString
      | kept => String c kept
      end
  end.

Definition strip (s : string) : string := rstrip (lstrip s).

Definition fence : string := "```".
Definition fence_json : string := "```json".

(** [content.split(opening)[1].split("```")[0].strip()] *)
Definition between_fences (content opening : string) : Failure + string :=
  match str_split content opening with
  | inl e => inl e
  | inr parts =>
      match getitem parts 1 with
      | inl e => inl e
      | inr rest =>
          match str_split rest fence with
          | inl e => inl e
          | inr parts' =>
              match getitem parts' 0 with
              | inl e => inl e
              | inr inner => inr (strip inner)
              end
          end
      end
  end.

(** The lines under "Try to extract JSON from response": [content] after
    them, [None] and the empty text being left as they are. *)
Definition strip_code_block (content : option string) : Failure + option string :=
  match content with
  | None => inr None
  | Some c =>
      if String.eqb c "" then inr (Some c)
      else if str_contains fence_json c then
        match between_fences c fence_json with
        | inl e => inl e
        | inr inner => inr (Some inner)
        end
      else if str_contains fence c then
        match between_fences c fence with
        | inl e => inl e
        | inr inner => inr (Some inner)
        end
      else inr (Some c)
  end.

(** What [json.loads] returns: a [dict], or something of another type, of
    which only the name of the type shows (in the [AttributeError] of
    [data.get]). *)
Inductive Parsed (Value : Type) : Type :=
| PDict (members : PyDict.t Value)
| POther (type_name : string).
Arguments PDict {Value} members.
Arguments POther {Value} type_name.

(** [except json.JSONDecodeError]: [content] is what the variable holds
    when the exception is raised. *)
Definition parse_failure (content : option string) : EvaluationResult :=
  let raw := match content with
             | Some c => if String.eqb c "" then "empty response" else str_slice_to c 200
             | None => "empty response"
             end in
  {| interested := false;
     reason := ("Failed to parse LLM response: " ++ raw)%string |}.

(** [except Exception as e] *)
Definition error_result (message : string) : EvaluationResult :=
  {| interested := false; reason := ("Error: " ++ message)%string |}.

Section ProviderAnswer.

(** The values of a parsed JSON object; of [interested] the program only
    takes the truth value ([if result.interested]), of [reason] only the
    text ([str], through f-strings). *)
Variable Value : Type.
Variable truth : Value -> bool.
Variable py_str : Value -> string.
(** [json.loads] on a text. *)
Variable json_loads : string -> Failure + Parsed Value.

(** [json.loads(content)]: [None] is a [TypeError]. *)
Definition loads (content : option string) : Failure + Parsed Value :=
  match content with
  | None =>
      inl (OtherException "the JSON object must be str, bytes or bytearray, not NoneType")
  | Some c => json_loads c
  end.

(** The body of [evaluate] from the call on: [call] is the text the call
    returned ([None] when the API gave no text), or the exception raised on
    the way to it. *)
Definition evaluate_answer (call : Failure + option string) : EvaluationResult :=
  match call with
  | inl DecodeFailure => parse_failure None
  | inl (OtherException message) => error_result message
  | inr content =>
      match strip_code_block content with
      | inl DecodeFailure => parse_failure content
      | inl (OtherException message) => error_result message
      | inr content' =>
          match loads content' with
          | inl DecodeFailure => parse_failure content'
          | inl (OtherException message) => error_result message
          | inr (POther type_name) =>
              error_result ("'" ++ type_name ++ "' object has no attribute 'get'")
          | inr (PDict data) =>
              {| interested := match PyDict.get data "interested" with
                               | Some v => truth v
                               | None => false
                               end;
                 reason := match PyDict.get data "reason" with
                           | Some v => py_str v
                           | None => "No reason provided"
                           end |}
          end
      end
  end.

End ProviderAnswer.

(** [s] is [a ++ sep ++ b] and [sep] occurs nowhere earlier in [s]. *)
Definition first_at (sep s a b : string) : Prop :=
  s = (a ++ sep ++ b)%string
  /\ forall a' b', s = (a' ++ sep ++ b')%string -> (String.length a <= String.length a')%nat.

(** [sep] does not occur in [s]. *)
Definition absent (sep s : string) : Prop :=
  forall a b, s <> (a ++ sep ++ b)%string.

(** The first character of [s] is [c]. *)
Definition first_char_is (c : ascii) (s : string) : bool :=
  match s with
  | EmptyString => false
  | String d _ => Ascii.eqb c d
  end.

(** [head] is the piece of [s] before its first [sep], or [s] itself when
    [sep] does not occur: what [s.split(sep)[0]] is. *)
Definition piece_before (sep s head : string) : Prop :=
  (absent sep s /\ head = s) \/ exists b, first_at sep s head b.

Definition backtick : string := "`".

(** Every character of [s] is a space for [strip]. *)
Fixpoint all_space (s : string) : bool :=
  match s with
  | EmptyString => true
  | String c rest => isspace c && all_space rest
  end.

(** The last character of a string. *)
Fixpoint last_char (s : string) : option ascii :=
  match s with
  | EmptyString => None
  | String c EmptyString => Some c
  | String _ rest => last_char rest
  end.

Definition first_char (s : string) : option ascii :=
  match s with
  | EmptyString => None
  | String c _ => Some c
  end.

(** Neither end of [s] is a space. *)
Definition trimmed (s : string) : bool :=
  match first_char s, last_char s with
  | Some c, Some d => negb (isspace c) && negb (isspace d)
  | _, _ => true
  end.

(* ===================================================================== *)
(** * src/prompt.py                                                       *)
(* ===================================================================== *)

Inductive PromptError : Type :=
| FileNotFoundError (message : string)
| ReadError (e : Exn).      (* what [read_text] raised *)

(** [load_prompt]; [decode] is the codec of the locale. *)
Definition load_prompt (decode : string -> option string) (fs : FS)
    (prompt_path : string) : PromptError + string :=
  match PyDict.get fs prompt_path with
  | None => inl (FileNotFoundError ("Prompt file not found: " ++ prompt_path))
  | Some content =>
      match read_text decode content with
      | inl e => inl (ReadError e)
      | inr text => inr (strip text)
      end
  end.


(** An answer with a fenced block, and one with a block that names another
    language. *)
Definition fenced_answer : string :=
  ("Here is my verdict:" ++ newline ++ "```json" ++ newline
   ++ "{}" ++ newline ++ "```" ++ newline ++ "Hope this helps.")%string.

Definition tagged_answer : string :=
  ("```javascript" ++ newline ++ "{}" ++ newline ++ "```")%string.

(** A [json.loads] that knows two texts: an object that says yes, and the
    empty object. *)
Definition two_texts (text : string) : Failure + Parsed bool :=
  if String.eqb text "yes" then inr (PDict [("interested", true); ("reason", true)])
  else if String.eqb text "{}" then inr (PDict [])
  else inl DecodeFailure.

Definition bool_str (b : bool) : string := if b then "True" else "False".


(* ===================================================================== *)
(** * src/main.py: [parse_since_date]                                     *)
(* ===================================================================== *)

(** The class of the exception that [parse_since_date] lets through. *)
Inductive SinceError : Type :=
| SinceValueError          (* ValueError *)
| SinceOverflowError       (* OverflowError *)
| SinceUnboundLocalError.  (* UnboundLocalError, were [result] not assigned *)

(** [c.lower()] for a character below 256: the letters A to Z, and the
    capital letters of Latin-1 (192 to 222, the multiplication sign 215
    apart). *)
Definition lower_char (c : ascii) : ascii :=
  let n := nat_of_ascii c in
  if ((65 <=? n) && (n <=? 90)
      || (192 <=? n) && (n <=? 222) && negb (n =? 215))%nat
  then ascii_of_nat (n + 32)
  else c.

(** [s.lower()] *)
Fixpoint str_lower (s : string) : string :=
  match s with
  | EmptyString => EmptyString
  | String c rest => String (lower_char c) (str_lower rest)
  end.

(** [\d] on a character below 256 *)
Definition is_digit (c : ascii) : bool :=
  match digit c with
  | Some _ => true
  | None => false
  end.

(** The longest run of digits at the head of a text, and what follows it:
    what a greedy [\d+] takes, or nothing. *)
Fixpoint leading_digits (s : string) : string * string :=
  match s with
  | EmptyString => (EmptyString, EmptyString)
  | String c rest =>
      if is_digit c
      then (String c (fst (leading_digits rest)), snd (leading_digits rest))
      else (EmptyString, s)
  end.

(** [[hdm]] *)
Definition is_unit (c : ascii) : bool :=
  Ascii.eqb c "h" || Ascii.eqb c "d" || Ascii.eqb c "m".

(** [re.match(r"^(\d+)([hdm])$", s)]: the two groups of a match. After the
    digits the pattern needs one of the three letters and the end of the
    text, which [$] also finds before a newline that ends the text. Giving
    digits back cannot help, the letter not being a digit. *)
Definition match_relative (s : string) : option (string * ascii) :=
  match leading_digits s with
  | (EmptyString, _) => None
  | (digits, String u tail) =>
      if is_unit u && (String.eqb tail "" || String.eqb tail newline)
      then Some (digits, u)
      else None
  | (_, EmptyString) => None
  end.

(** The number that a run of decimal digits writes. *)
Fixpoint int_digits (ds : string) (acc : Z) : Z :=
  match ds with
  | EmptyString => acc
  | String c rest =>
      int_digits rest (10 * acc + match digit c with Some d => d | None => 0 end)
  end.

Section SinceDate.

(** [datetime.now()]: the ordinal of its date, and the seconds since
    midnight (the microseconds play no part in the date of a difference of
    whole hours). *)
Variable now_date : Z.
Variable now_seconds : Z.
(** [sys.get_int_max_str_digits()]: 4300 by default, 0 for no limit (and for
    an interpreter that has none). *)
Variable max_str_digits : Z.

(** [int(ds)] on a run of digits: the conversion is refused beyond the
    limit, which is looked at for more than 640 digits only. *)
Definition py_int (ds : string) : SinceError + Z :=
  let digits := Z.of_nat (String.length ds) in
  if (640 <? digits) && (0 <? max_str_digits) && (max_str_digits <? digits)
  then inl SinceValueError
  else inr (int_digits ds 0).

(** [(now - timedelta(hours=amount)).date()]: the difference is built first
    (its days must not exceed 999999999), then taken from [now]. *)
Definition hours_back (amount : Z) : SinceError + Z :=
  if 999999999 <? amount / 24 then inl SinceOverflowError
  else
    let d := now_date + (now_seconds - amount * 3600) / 86400 in
    if valid_date d then inr d else inl SinceOverflowError.

(** [(now - timedelta(days=amount)).date()] *)
Definition days_back (amount : Z) : SinceError + Z :=
  if 999999999 <? amount then inl SinceOverflowError
  else if valid_date (now_date - amount) then inr (now_date - amount)
  else inl SinceOverflowError.

(** [(now - relativedelta(months=amount)).date()]: the months above eleven
    are carried into years, the month is moved into 1..12, the day is cut
    to the length of the month reached, and [replace] checks the year (as a
    C [int] first). *)
Definition months_back (amount : Z) : SinceError + Z :=
  let '(y, m, d) := ord_to_ymd now_date in
  let years := amount / 12 in
  let months := amount mod 12 in
  let year0 := y - years in
  let month0 := m - months in
  let year := if month0 <? 1 then year0 - 1 else year0 in
  let month := if month0 <? 1 then month0 + 12 else month0 in
  let day := Z.min (days_in_month year month) d in
  if year <? -2147483648 then inl SinceOverflowError
  else if year <? 1 then inl SinceValueError
  else inr (ymd_to_ord year month day).

(** The date that a unit and an amount lead back to. *)
Definition date_back (unit : ascii) (amount : Z) : SinceError + Z :=
  if Ascii.eqb unit "h" then hours_back amount
  else if Ascii.eqb unit "d" then days_back amount
  else if Ascii.eqb unit "m" then months_back amount
  else inl SinceUnboundLocalError.

(** [parse_since_date] *)
Definition parse_since_date (since_value : string) : SinceError + string :=
  match match_relative (str_lower since_value) with
  | Some (digits, unit) =>
      match py_int digits with
      | inl e => inl e
      | inr amount =>
          match date_back unit amount with
          | inl e => inl e
          | inr result => inr (date_isoformat result)
          end
      end
  | None => inr since_value
  end.

End SinceDate.

(** Every character of [s] is a digit. *)
Fixpoint all_digits (s : string) : bool :=
  match s with
  | EmptyString => true
  | String c rest => is_digit c && all_digits rest
  end.

(** The unit that a letter stands for, in either case. *)
Definition unit_of_letter (c : ascii) : option ascii :=
  if Ascii.eqb c "h" || Ascii.eqb c "H" then Some "h"%char
  else if Ascii.eqb c "d" || Ascii.eqb c "D" then Some "d"%char
  else if Ascii.eqb c "m" || Ascii.eqb c "M" then Some "m"%char
  else None.

(** [value] is a relative time: digits, then the letter of a unit, then
    nothing or one newline. *)
Definition relative_time (value digits : string) (unit : ascii) : Prop :=
  digits <> EmptyString
  /\ all_digits digits = true
  /\ exists letter tail,
       unit_of_letter letter = Some unit
       /\ (tail = EmptyString \/ tail = newline)
       /\ value = (digits ++ String letter tail)%string.

(** 2025-03-31, and a quarter past nine in the morning. *)
Definition day_2025_03_31 : Z := 739341.
Definition quarter_past_nine : Z := 33300.


(** Two codecs: Latin-1 reads every byte as the character of the same
    number and never fails; ASCII rejects every byte above 127. *)
Definition latin1_codec (content : string) : option string := Some content.

(** Every character of [s] satisfies [p]. *)
Fixpoint all_chars (p : ascii -> bool) (s : string) : bool :=
  match s with
  | EmptyString => true
  | String c rest => p c && all_chars p rest
  end.

Definition is_ascii (c : ascii) : bool := (nat_of_ascii c <? 128)%nat.

Definition all_ascii (s : string) : bool := all_chars is_ascii s.

Definition ascii_codec (content : string) : option string :=
  if all_ascii content then Some content else None.

(** A cache file damaged in its first byte (255 is no ASCII, and no UTF-8
    either). *)
Definition damaged_fs : FS :=
  [("seen_repos.json", String (ascii_of_nat 255) old_file)].

(** No character of [s] is a carriage return. *)
Definition not_cr (c : ascii) : bool := negb (Ascii.eqb c CR).

Definition no_cr (s : string) : bool := all_chars not_cr s.


(** No repository after position [i] has the identifier of [repo]. *)
Definition last_of_its_name (new_repos : list Repository) (i : nat) (repo : Repository)
    : Prop :=
  forall j repo', (i < j)%nat -> nth_error new_repos j = Some repo' ->
                  full_name repo' <> full_name repo.

(** A prompt file written with CR LF line ends. *)
Definition crlf_prompt : string :=
  ("  I like AI tools" ++ String CR (String LF "and CLIs ") ++ String CR (String LF ""))%string.

Definition prompt_fs : FS := [("prompt.md", crlf_prompt)].


(** A cache that [json.loads] accepts, with one value that is no date. *)
Definition bad_date_cache : RepoCache :=
  {| cache_path := "seen_repos.json";
     cache_days := 30;
     _data := [("old/repo", "2025-10-31"); ("bad/repo", "not-a-date")] |}.

(** A page that the loop of [_search_repos_single] can take in whole: a
    2xx response with a JSON body, every item of which has the three fields
    that [from_api] subscripts. *)
Definition parses (it : ApiItem) : bool :=
  match from_api it with
  | inr _ => true
  | inl _ => false
  end.

Definition good_page (o : Outcome) : bool :=
  match o with
  | Response st (JsonObject items _) =>
      is_success st && forallb parses (match items with Some l => l | None => [] end)
  | _ => false
  end.

(** A server that does not honour [per_page]: every page has 200 items. *)
Definition oversized_pages_server : list Request -> Request -> Outcome :=
  fun _ _ => ok_items (repeat (item "owner/repo" 1) 200).


(** A response that a readme fetch cannot decode: a 2xx status with a body
    that is not JSON, or has no [content], or whose [content] is not
    base64. *)
Definition undecodable (b64decode : string -> option (list Byte.byte)) (o : Outcome)
    : bool :=
  match o with
  | TransportError => false
  | Response status_code body =>
      is_success status_code
      && match body with
         | NotJson => true
         | JsonObject _ None => true
         | JsonObject _ (Some c) =>
             match b64decode c with
             | None => true
             | Some _ => false
             end
         end
  end.

(** The same identifier twice: the first fetch finds no readme, the second
    one does. *)
Definition twice_the_same : list Repository := [repo_named "owner/a"; repo_named "owner/a"].

Definition missing_then_found : list Event :=
  [Start 0; Start 1;
   Complete 0 (Response 404 NotJson);
   Complete 1 (Response 200 (JsonObject None (Some "# A")))].


(** The second fetch is still in flight when the first one gets a body that
    is not JSON. *)
Definition first_fails_early : list Event :=
  [Start 0; Start 1; Complete 0 (Response 200 NotJson)].


(** The requests of a search that asks the first [k] pages of each group, one
    group after the other: [ks] gives the number of pages per group, for the
    groups that were reached. *)
Definition pages_by_group (since_date : string) (exclude_forks : bool)
    (groups : list (option (list string))) (ks : list nat) : list Request :=
  concat (map (fun gk => page_requests (build_query since_date exclude_forks (fst gk))
                           1 (snd gk))
              (combine groups ks)).


(* ===================================================================== *)
(** * Properties                                                          *)
(* ===================================================================== *)

(** Case analysis on the 256 characters. *)
Ltac each_ascii c :=
  destruct c as [[] [] [] [] [] [] [] []].

(** ** Lists, slices and ordered dictionaries *)

Lemma len_nonneg {A : Type} (l : list A) : 0 <= len l.
Proof. unfold len. lia. Qed.

Lemma len_app {A : Type} (l1 l2 : list A) : len (l1 ++ l2) = len l1 + len l2.
Proof. unfold len. rewrite length_app. lia. Qed.

Lemma len_nil {A : Type} : len (@nil A) = 0.
Proof. reflexivity. Qed.

Lemma len_cons {A : Type} (x : A) (l : list A) : len (x :: l) = 1 + len l.
Proof. unfold len. simpl length. lia. Qed.

Lemma slice_to_nonneg {A : Type} (l : list A) (n : Z) :
  0 <= n -> slice_to l n = firstn (Z.to_nat n) l.
Proof.
  intros Hn. unfold slice_to.
  destruct (0 <=? n) eqn:E; [reflexivity | apply Z.leb_gt in E; lia].
Qed.

Lemma slice_to_nil {A : Type} (n : Z) : slice_to (@nil A) n = [].
Proof. unfold slice_to. destruct (0 <=? n); apply firstn_nil. Qed.

Lemma len_slice_to_le {A : Type} (l : list A) (n : Z) :
  0 <= n -> len (slice_to l n) <= n.
Proof.
  intros Hn. rewrite slice_to_nonneg by assumption. unfold len.
  pose proof (firstn_le_length (Z.to_nat n) l). lia.
Qed.

Module PyDictFacts.
Import PyDict.

Lemma get_set_eq {V : Type} (d : t V) (k : string) (v : V) :
  get (set d k v) k = Some v.
Proof.
  induction d as [|[k' v'] d IH]; simpl.
  - rewrite String.eqb_refl. reflexivity.
  - destruct (String.eqb k' k) eqn:E; simpl; rewrite E; [reflexivity | exact IH].
Qed.

Lemma get_set_ne {V : Type} (d : t V) (k k0 : string) (v : V) :
  k <> k0 -> get (set d k v) k0 = get d k0.
Proof.
  intros Hne. induction d as [|[k' v'] d IH]; simpl.
  - destruct (String.eqb k k0) eqn:E; [apply String.eqb_eq in E; contradiction | reflexivity].
  - destruct (String.eqb k' k) eqn:E; simpl.
    + apply String.eqb_eq in E. subst k'.
      destruct (String.eqb k k0) eqn:E0; [apply String.eqb_eq in E0; contradiction | reflexivity].
    + destruct (String.eqb k' k0); [reflexivity | exact IH].
Qed.

Lemma get_None_not_in {V : Type} (d : t V) (k : string) :
  get d k = None <-> ~ In k (keys d).
Proof.
  induction d as [|[k' v'] d IH]; simpl.
  - split; [intros _ [] | reflexivity].
  - destruct (String.eqb k' k) eqn:E.
    + apply String.eqb_eq in E. split; [discriminate | intros H; exfalso; apply H; left; exact E].
    + apply String.eqb_neq in E. rewrite IH. split.
      * intros H [H1 | H1]; [contradiction | auto].
      * intros H H1. apply H. right. exact H1.
Qed.

Lemma contains_true_in {V : Type} (d : t V) (k : string) :
  contains d k = true <-> In k (keys d).
Proof.
  unfold contains. pose proof (get_None_not_in d k) as H.
  destruct (get d k) eqn:E.
  - split; [intros _ | reflexivity].
    destruct (in_dec string_dec k (keys d)) as [Hin | Hnin]; [exact Hin |].
    apply H in Hnin. discriminate.
  - split; [discriminate | intros Hin]. exfalso. apply (proj1 H); auto.
Qed.

(** A new key goes to the end. *)
Lemma set_fresh {V : Type} (d : t V) (k : string) (v : V) :
  get d k = None -> set d k v = d ++ [(k, v)].
Proof.
  induction d as [|[k' v'] d IH]; simpl; intros H.
  - reflexivity.
  - destruct (String.eqb k' k); [discriminate |]. rewrite IH by exact H. reflexivity.
Qed.

Lemma keys_set {V : Type} (d : t V) (k : string) (v : V) (k0 : string) :
  In k0 (keys (set d k v)) <-> k0 = k \/ In k0 (keys d).
Proof.
  induction d as [|[k' v'] d IH]; simpl.
  - split; [intros [H | []]; left; auto | intros [H | []]; left; auto].
  - destruct (String.eqb k' k) eqn:E; simpl.
    + apply String.eqb_eq in E. subst k'. split; [intros [H | H]; auto | intros [H | [H | H]]; auto].
    + rewrite IH. split; [intros [H | [H | H]]; auto | intros [H | [H | H]]; auto].
Qed.

Lemma of_pairs_fold_keys {V : Type} (pairs : list (string * V)) (d : t V) (k : string) :
  In k (keys (fold_left (fun d kv => set d (fst kv) (snd kv)) pairs d))
  <-> In k (keys d) \/ In k (map fst pairs).
Proof.
  revert d. induction pairs as [|[k' v'] pairs IH]; intros d; simpl.
  - split; [auto | intros [H | []]; exact H].
  - rewrite IH, keys_set. split; [intros [[H | H] | H]; auto | intros [H | [H | H]]; auto].
Qed.

(** [dict(pairs)] has exactly the keys of the pairs. *)
Lemma keys_of_pairs {V : Type} (pairs : list (string * V)) (k : string) :
  In k (keys (of_pairs pairs)) <-> In k (map fst pairs).
Proof.
  unfold of_pairs. rewrite of_pairs_fold_keys. simpl.
  split; [intros [[] | H]; exact H | auto].
Qed.

Lemma of_pairs_fold_nodup {V : Type} (pairs : list (string * V)) (d : t V) :
  NoDup (map fst pairs) ->
  (forall k, In k (map fst pairs) -> ~ In k (keys d)) ->
  fold_left (fun d kv => set d (fst kv) (snd kv)) pairs d = d ++ pairs.
Proof.
  revert d. induction pairs as [|[k v] pairs IH]; intros d Hnd Hfresh; simpl.
  - symmetry. apply app_nil_r.
  - inversion Hnd as [|? ? Hk Hnd']; subst.
    rewrite set_fresh by (apply get_None_not_in; apply Hfresh; left; reflexivity).
    rewrite IH.
    + rewrite <- app_assoc. reflexivity.
    + exact Hnd'.
    + intros k0 Hin Hin0. unfold keys in Hin0. rewrite map_app in Hin0.
      apply in_app_or in Hin0. destruct Hin0 as [Hin0 | [Hin0 | []]].
      * apply (Hfresh k0); [right; exact Hin | exact Hin0].
      * simpl in Hin0. subst k0. contradiction.
Qed.

(** On pairs with distinct keys, [dict(pairs)] is the list of the pairs. *)
Lemma of_pairs_nodup {V : Type} (pairs : list (string * V)) :
  NoDup (map fst pairs) -> of_pairs pairs = pairs.
Proof.
  intros Hnd. unfold of_pairs, empty.
  rewrite of_pairs_fold_nodup; [reflexivity | exact Hnd | intros k _ []].
Qed.

Lemma get_in_nodup {V : Type} (d : t V) (k : string) (v : V) :
  NoDup (keys d) -> (get d k = Some v <-> In (k, v) d).
Proof.
  induction d as [|[k' v'] d IH]; simpl; intros Hnd.
  - split; [discriminate | intros []].
  - inversion Hnd as [|? ? Hk Hnd']; subst.
    destruct (String.eqb k' k) eqn:E.
    + apply String.eqb_eq in E. subst k'. split.
      * intros H. inversion H. left. reflexivity.
      * intros [H | H]; [inversion H; reflexivity |].
        exfalso. apply Hk. apply (in_map fst) in H. exact H.
    + apply String.eqb_neq in E. rewrite (IH Hnd'). split.
      * auto.
      * intros [H | H]; [inversion H; contradiction | exact H].
Qed.

End PyDictFacts.

(** ** The client before [async with] *)

(** C10. A call of [AsyncGitHubClient.search_repos] on a client whose context
    manager has not been entered raises [RuntimeError] and leaves the world
    as it was: no request is sent. Once [__aenter__] has run, the same call
    runs the search. *)
Theorem search_repos_needs_entered_client :
  forall (tok : string) (n : Z) (since_date : string) (max_repos : Z)
         (exclude_forks : bool) (keywords : option (list string)) (w : World),
    search_repos (AsyncGitHubClient_init tok n) since_date max_repos exclude_forks keywords w
    = (Raise (RuntimeError "Client not initialized. Use 'async with' context manager."), w)
    /\ search_repos (__aenter__ (AsyncGitHubClient_init tok n))
         since_date max_repos exclude_forks keywords w
       = search_repos_body since_date max_repos exclude_forks keywords w.
Proof.
  intros. split; reflexivity.
Qed.

(** ** The skip-set *)

(** C1, on the code as it is. [search_repos] has no skip-set parameter: the
    call that [run_pipeline_async] makes, with [skip_repos], raises
    [TypeError] while the arguments are bound, before any request, for every
    client, configuration, skip-set and world. The call that the signature
    allows filters nothing: with a server that returns [owner/repo1] and a
    cache that already holds [owner/repo1], that repository is returned. *)
Theorem search_repos_has_no_skip_set :
  (forall (github : AsyncGitHubClient) (since_date : string) (config_max_repos : Z)
          (config_keywords cached_repos : list string) (w : World),
      pipeline_search github since_date config_max_repos config_keywords cached_repos w
      = (Raise (TypeError "search_repos() got an unexpected keyword argument 'skip_repos'"),
         w))
  /\ (let cached_repos := ["owner/repo1"] in
      let w := fresh_world (first_page_server [item "owner/repo1" 200]) in
      exists repos w',
        search_repos entered_client "2025-12-10" 10 true None w = (Ret repos, w')
        /\ map full_name repos = ["owner/repo1"]
        /\ existsb (fun r => existsb (String.eqb (full_name r)) cached_repos) repos = true).
Proof.
  split.
  - intros. reflexivity.
  - eexists. eexists. split; [vm_compute; reflexivity |].
    split; reflexivity.
Qed.

(** ** Pagination of one batch *)

Lemma append_items_len :
  forall (items : list ApiItem) (repos : list Repository) (max_repos : Z)
         (r : list Repository),
    len repos < max_repos ->
    append_items items repos max_repos = inr r ->
    len r = Z.min max_repos (len repos + len items)
    /\ exists extra, r = repos ++ extra.
Proof.
  induction items as [|it items IH]; intros repos max_repos r Hlt H; simpl in H.
  - inversion H; subst. rewrite len_nil. split; [lia | exists []; symmetry; apply app_nil_r].
  - destruct (from_api it) as [e | repo]; [discriminate |].
    rewrite len_cons.
    destruct (len (repos ++ [repo]) >=? max_repos) eqn:E.
    + inversion H; subst. rewrite len_app, len_cons, len_nil in *.
      apply Z.geb_le in E. pose proof (len_nonneg items).
      split; [lia | exists [repo]; reflexivity].
    + assert (Hlt' : len (repos ++ [repo]) < max_repos).
      { destruct (Z.geb_spec (len (repos ++ [repo])) max_repos); [discriminate | lia]. }
      destruct (IH _ _ _ Hlt' H) as [Hlen [extra Hex]].
      rewrite len_app, len_cons, len_nil in Hlen.
      split; [lia |]. exists (repo :: extra). rewrite Hex, <- app_assoc. reflexivity.
Qed.


Lemma page_requests_cons (q : string) (page : Z) (n : nat) :
  page_requests q page (S n) = search_request q page :: page_requests q (page + 1) n.
Proof.
  unfold page_requests. simpl. rewrite Z.add_0_r. f_equal.
  rewrite <- seq_shift, map_map. apply map_ext. intros i. f_equal. lia.
Qed.

(** The loop of [_search_repos_single] from page [page] on, with enough fuel. *)
Lemma search_loop_spec :
  forall (fuel : nat) (q : string) (max_repos page : Z) (repos : list Repository)
         (w w' : World) (r : Res (list Repository)),
    1 <= page <= 10 ->
    (Z.to_nat (11 - page) <= fuel)%nat ->
    search_loop fuel q max_repos page repos w = (r, w') ->
    exists ex : list (Request * Outcome),
      exchanged w' = exchanged w ++ ex
      /\ server w' = server w
      /\ r <> OutOfFuel
      /\ map fst ex = page_requests q page (length ex)
      /\ page + len ex <= 11
      /\ (forall res, r = Ret res ->
            stops_exactly max_repos page (len repos) (map page_len (map snd ex)) = true
            /\ len res <= Z.max max_repos (len repos)
            /\ len res <= len repos + sumZ (map page_len (map snd ex))).
Proof.
  induction fuel as [|fuel IH]; intros q max_repos page repos w w' r Hpage Hfuel H.
  - lia.
  - simpl in H. destruct (len repos <? max_repos) eqn:Hlt.
    2:{ inversion H; subst. exists []. rewrite app_nil_r.
        apply Z.ltb_ge in Hlt.
        split; [reflexivity |]. split; [reflexivity |]. split; [discriminate |].
        split; [reflexivity |]. split; [rewrite len_nil; lia |].
        intros res Hres. inversion Hres; subst. simpl.
        split; [apply Z.leb_le; lia | lia]. }
    apply Z.ltb_lt in Hlt.
    unfold bind, client_get in H.
    remember (server w (map fst (exchanged w)) (search_request q page)) as o eqn:Ho.
    assert (Hone : forall o' : Outcome,
               map fst [(search_request q page, o')] = page_requests q page 1).
    { intros o'. unfold page_requests. simpl. rewrite Z.add_0_r. reflexivity. }
    destruct o as [|st body].
    { inversion H; subst. eexists [(_, _)]. simpl exchanged. simpl server.
      split; [reflexivity |]. split; [reflexivity |]. split; [discriminate |].
      split; [apply Hone |]. split; [rewrite len_cons, len_nil; lia |].
      intros res Hres. discriminate. }
    simpl in H. unfold raise_for_status in H.
    destruct (is_success st) eqn:Hst; simpl in H.
    2:{ inversion H; subst. eexists [(_, _)]. simpl exchanged. simpl server.
        split; [reflexivity |]. split; [reflexivity |]. split; [discriminate |].
        split; [apply Hone |]. split; [rewrite len_cons, len_nil; lia |].
        intros res Hres. discriminate. }
    destruct body as [|items content]; simpl in H.
    { inversion H; subst. eexists [(_, _)]. simpl exchanged. simpl server.
      split; [reflexivity |]. split; [reflexivity |]. split; [discriminate |].
      split; [apply Hone |]. split; [rewrite len_cons, len_nil; lia |].
      intros res Hres. discriminate. }
    destruct items as [[|it its]|].
    + (* an empty page *)
      inversion H; subst. eexists [(_, _)]. simpl exchanged. simpl server.
      split; [reflexivity |]. split; [reflexivity |]. split; [discriminate |].
      split; [apply Hone |]. split; [rewrite len_cons, len_nil; lia |].
      intros res Hres. inversion Hres; subst. simpl.
      split; [| lia].
      apply andb_true_iff. split; [apply Z.ltb_lt; exact Hlt | reflexivity].
    + (* a page with items *)
      unfold lift at 1 in H.
      destruct (append_items (it :: its) repos max_repos) as [e | repos'] eqn:Happ.
      { inversion H; subst. eexists [(_, _)]. simpl exchanged. simpl server.
        split; [reflexivity |]. split; [reflexivity |]. split; [discriminate |].
        split; [apply Hone |]. split; [rewrite len_cons, len_nil; lia |].
        intros res Hres. discriminate. }
      destruct (append_items_len _ _ _ _ Hlt Happ) as [Hlen' _].
      pose proof (len_nonneg its) as Hits. rewrite len_cons in Hlen'.
      unfold ret at 1 in H.
      destruct (page + 1 >? 10) eqn:Hceil.
      * inversion H; subst. eexists [(_, _)]. simpl exchanged. simpl server.
        split; [reflexivity |]. split; [reflexivity |]. split; [discriminate |].
        split; [apply Hone |]. split; [rewrite len_cons, len_nil; lia |].
        intros res Hres. inversion Hres; subst. simpl.
        unfold page_len. simpl. rewrite len_cons.
        split; [| lia].
        apply andb_true_iff. split; [apply Z.ltb_lt; exact Hlt |].
        apply orb_true_iff. right. apply Z.ltb_lt.
        destruct (Z.gtb_spec (page + 1) 10); [lia | discriminate].
      * assert (Hp : page + 1 <= 10).
        { destruct (Z.gtb_spec (page + 1) 10); [discriminate | lia]. }
        apply IH in H; [| lia | lia].
        destruct H as (ex & Hex & Hsrv & Hnf & Hreq & Hcnt & Hres).
        simpl exchanged in Hex. simpl server in Hsrv.
        exists ((search_request q page, Response st (JsonObject (Some (it :: its)) content)) :: ex).
        split; [rewrite Hex, <- app_assoc; reflexivity |].
        split; [exact Hsrv |]. split; [exact Hnf |].
        split; [simpl; rewrite page_requests_cons, Hreq; reflexivity |].
        split; [rewrite len_cons; lia |].
        intros res Hr. destruct (Hres res Hr) as (Hstop & Hcap & Hsum).
        simpl map. unfold page_len at 1 3. simpl page_items. rewrite len_cons.
        split; [| split; [lia | cbn [sumZ]; lia]].
        cbn [stops_exactly]. apply andb_true_iff. split; [apply Z.ltb_lt; exact Hlt |].
        destruct (map page_len (map snd ex)) as [|n lens] eqn:Hlens.
        -- simpl in Hstop. apply Z.leb_le in Hstop.
           apply orb_true_iff. left. apply orb_true_iff. right. apply Z.leb_le. lia.
        -- assert (Hlt' : len repos' < max_repos).
           { simpl in Hstop. apply andb_true_iff in Hstop. destruct Hstop as [Hs _].
             apply Z.ltb_lt in Hs. exact Hs. }
           assert (Heq : len repos' = len repos + (1 + len its)) by lia.
           rewrite Heq in Hstop. rewrite Hstop.
           rewrite !andb_true_r.
           apply andb_true_iff. split; [apply andb_true_iff; split |].
           ++ apply negb_true_iff. apply Z.eqb_neq. lia.
           ++ apply Z.ltb_lt. lia.
           ++ apply Z.leb_le. exact Hp.
    + (* no [items] key *)
      inversion H; subst. eexists [(_, _)]. simpl exchanged. simpl server.
      split; [reflexivity |]. split; [reflexivity |]. split; [discriminate |].
      split; [apply Hone |]. split; [rewrite len_cons, len_nil; lia |].
      intros res Hres. inversion Hres; subst. simpl.
      split; [| lia].
      apply andb_true_iff. split; [apply Z.ltb_lt; exact Hlt | reflexivity].
Qed.

Lemma sumZ_le (b : Z) (l : list Z) :
  (forall x, In x l -> x <= b) -> sumZ l <= b * len l.
Proof.
  induction l as [|x l IH]; intros H; cbn [sumZ].
  - unfold len. simpl length. lia.
  - rewrite len_cons. pose proof (H x (or_introl eq_refl)).
    assert (sumZ l <= b * len l) by (apply IH; intros y Hy; apply H; right; exact Hy).
    lia.
Qed.

Lemma append_items_good :
  forall (items : list ApiItem) (repos : list Repository) (max_repos : Z),
    forallb parses items = true ->
    exists r, append_items items repos max_repos = inr r.
Proof.
  induction items as [|it items IH]; intros repos max_repos H; [eexists; reflexivity |].
  cbn [forallb] in H. apply andb_true_iff in H. destruct H as [Hit Hrest].
  cbn [append_items]. unfold parses in Hit.
  destruct (from_api it) as [e | repo]; [discriminate |].
  destruct (len (repos ++ [repo]) >=? max_repos); [eexists; reflexivity |].
  apply IH. exact Hrest.
Qed.

(** The loop is left by an exception only on a page that is not good, which
    is then the last exchange. *)
Lemma search_loop_raise :
  forall (fuel : nat) (q : string) (max_repos page : Z) (repos : list Repository)
         (w w' : World) (e : Exn),
    search_loop fuel q max_repos page repos w = (Raise e, w') ->
    exists (ex : list (Request * Outcome)) (req : Request) (o : Outcome),
      exchanged w' = exchanged w ++ ex ++ [(req, o)] /\ good_page o = false.
Proof.
  induction fuel as [|fuel IH]; intros q max_repos page repos w w' e H; simpl in H.
  - destruct (len repos <? max_repos); discriminate.
  - destruct (len repos <? max_repos); [| discriminate].
    unfold bind, client_get in H.
    remember (server w (map fst (exchanged w)) (search_request q page)) as o eqn:Ho.
    assert (Hlast : forall o', good_page o' = false ->
               exists (ex : list (Request * Outcome)) (req : Request) (o0 : Outcome),
                 exchanged w ++ [(search_request q page, o')]
                 = exchanged w ++ ex ++ [(req, o0)] /\ good_page o0 = false).
    { intros o' Hbad. exists [], (search_request q page), o'. auto. }
    destruct o as [|st body].
    { inversion H; subst. simpl exchanged. apply Hlast. reflexivity. }
    simpl in H. unfold raise_for_status in H.
    destruct (is_success st) eqn:Hst; simpl in H.
    2:{ inversion H; subst. simpl exchanged. apply Hlast.
        destruct body; simpl; rewrite ?Hst; reflexivity. }
    destruct body as [|items content]; simpl in H.
    { inversion H; subst. simpl exchanged. apply Hlast. reflexivity. }
    destruct items as [[|it its]|]; try discriminate.
    unfold lift at 1 in H.
    destruct (append_items (it :: its) repos max_repos) as [e0 | repos'] eqn:Happ.
    { inversion H; subst. simpl exchanged. apply Hlast. unfold good_page.
      rewrite Hst. cbn [andb].
      destruct (forallb parses (it :: its)) eqn:Hall; [| reflexivity].
      destruct (append_items_good _ repos max_repos Hall) as [r Hr]. congruence. }
    unfold ret at 1 in H.
    destruct (page + 1 >? 10); [discriminate |].
    apply IH in H. destruct H as (ex & req & o0 & Hex & Hbad).
    simpl exchanged in Hex.
    exists ((search_request q page, Response st (JsonObject (Some (it :: its)) content)) :: ex),
           req, o0.
    split; [rewrite Hex, <- !app_assoc; reflexivity | exact Hbad].
Qed.

(** C6, refuted as stated. The ceiling of ten pages bounds the number of
    requests, not the number of results: the loop takes every item of a page
    until the cap is reached, so with a cap of 5000 and a server whose pages
    hold 200 items one batch returns 2000 repositories. *)
Lemma oversized_pages_pass_the_ceiling :
  let out := _search_repos_single "2025-12-10" 5000 true None
               (fresh_world oversized_pages_server) in
  match fst out with Ret l => len l | _ => -1 end = 2000
  /\ length (exchanged (snd out)) = 10%nat
  /\ per_page * 10 = 1000.
Proof. vm_compute. repeat split; reflexivity. Qed.

(** C6, amended. One batch: [_search_repos_single] always comes back (the
    fuel of ten iterations is never used up), sends at most ten requests,
    for pages 1, 2, ... in order, and returns a list whenever every page it
    received was good (2xx, JSON, items with their required fields); an
    exception leaves the loop only on a page that is not, which is then the
    last one received. When it returns a list the pagination has stopped
    exactly as [stops_exactly] says: on an empty page, on the running total
    reaching the cap, or on the page index passing 10. The list is never
    longer than the cap, nor than the items of the pages received, and so
    never longer than [per_page * 10] = 1000 when no page carries more than
    [per_page] items. *)
Theorem single_batch_pagination :
  forall (since_date : string) (max_repos : Z) (exclude_forks : bool)
         (keywords : option (list string)) (w : World),
    let out := _search_repos_single since_date max_repos exclude_forks keywords w in
    exists ex : list (Request * Outcome),
      exchanged (snd out) = exchanged w ++ ex
      /\ fst out <> OutOfFuel
      /\ (length ex <= 10)%nat
      /\ map fst ex
         = page_requests (build_query since_date exclude_forks keywords) 1 (length ex)
      /\ ((forall o, In o (map snd ex) -> good_page o = true) ->
          exists res, fst out = Ret res)
      /\ (forall e, fst out = Raise e ->
            exists ex' req o, ex = ex' ++ [(req, o)] /\ good_page o = false)
      /\ forall res : list Repository,
           fst out = Ret res ->
           stops_exactly max_repos 1 0 (map page_len (map snd ex)) = true
           /\ len res <= Z.max max_repos 0
           /\ len res <= sumZ (map page_len (map snd ex))
           /\ ((forall o, In o (map snd ex) -> page_len o <= per_page) ->
               len res <= per_page * 10 /\ per_page * 10 = 1000).
Proof.
  intros since_date max_repos exclude_forks keywords w out.
  destruct out as [r w'] eqn:Hout. unfold out in Hout. clear out.
  unfold _search_repos_single, search_fuel in Hout.
  pose proof Hout as Hloop.
  apply search_loop_spec in Hout; [| lia | simpl; lia].
  destruct Hout as (ex & Hex & _ & Hnf & Hreq & Hcnt & Hres).
  exists ex. simpl fst. simpl snd.
  assert (Hraise : forall e, r = Raise e ->
             exists ex' req o, ex = ex' ++ [(req, o)] /\ good_page o = false).
  { intros e ->. apply search_loop_raise in Hloop.
    destruct Hloop as (ex' & req & o & Hex' & Hbad).
    rewrite Hex in Hex'. apply app_inv_head in Hex'.
    exists ex', req, o. auto. }
  split; [exact Hex |]. split; [exact Hnf |].
  split; [unfold len in Hcnt; lia |]. split; [exact Hreq |].
  split; [| split; [exact Hraise |]].
  - intros Hgood. destruct r as [res | e |]; [eexists; reflexivity | | congruence].
    exfalso. destruct (Hraise e eq_refl) as (ex' & req & o & -> & Hbad).
    assert (Ho : good_page o = true).
    { apply Hgood. rewrite map_app. apply in_or_app. right. left. reflexivity. }
    congruence.
  - intros res Hr. destruct (Hres res Hr) as (Hstop & Hcap & Hsum).
    rewrite len_nil in *.
    split; [exact Hstop |]. split; [exact Hcap |]. split; [lia |].
    intros Hpages. split; [| reflexivity].
    assert (Hs : sumZ (map page_len (map snd ex))
                 <= per_page * len (map page_len (map snd ex))).
    { apply sumZ_le. intros x Hx. apply in_map_iff in Hx. destruct Hx as (o & Ho & Hin).
      subst x. apply Hpages. exact Hin. }
    unfold len in Hs, Hcnt. rewrite !length_map in Hs. unfold per_page in *. lia.
Qed.

(** With a cap of 5000 and a server whose pages are always full, the
    pagination stops at the ceiling: ten requests, 1000 repositories. *)
Example pagination_stops_at_the_ceiling :
  let out := _search_repos_single "2025-12-10" 5000 true None
               (fresh_world full_pages_server) in
  match fst out with Ret l => len l | _ => -1 end = 1000
  /\ length (exchanged (snd out)) = 10%nat.
Proof. vm_compute. split; reflexivity. Qed.

(** With a cap of 150 the second page is cut, and no third page is asked for. *)
Example pagination_stops_at_the_cap :
  let out := _search_repos_single "2025-12-10" 150 true None
               (fresh_world full_pages_server) in
  match fst out with Ret l => len l | _ => -1 end = 150
  /\ length (exchanged (snd out)) = 2%nat.
Proof. vm_compute. split; reflexivity. Qed.

(** ** Keyword batches *)

Lemma chunks_concat {A : Type} (c : nat) :
  forall l : list A,
    (length l <= c * 6)%nat ->
    concat (map (fun k => firstn 6 (skipn (k * 6) l)) (seq 0 c)) = l.
Proof.
  induction c as [|c IH]; intros l Hl.
  - destruct l; [reflexivity | simpl in Hl; lia].
  - rewrite <- cons_seq, <- seq_shift, map_cons, map_map. cbn [concat].
    rewrite (map_ext _ (fun k => firstn 6 (skipn (k * 6) (skipn 6 l)))).
    + rewrite IH; [apply firstn_skipn | rewrite length_skipn; lia].
    + intros k. rewrite skipn_skipn. f_equal. f_equal. lia.
Qed.

Lemma keyword_batches_eq (keywords : list string) :
  keyword_batches keywords
  = map (fun k => firstn 6 (skipn (k * 6) keywords))
        (seq 0 ((length keywords + 5) / 6)).
Proof.
  unfold keyword_batches, range_step, MAX_KEYWORDS_PER_QUERY, slice.
  rewrite map_map. replace (length keywords + 6 - 1)%nat with (length keywords + 5)%nat by lia.
  apply map_ext. intros k. f_equal. lia.
Qed.

Lemma ceil6_bounds (n : nat) :
  (n <= (n + 5) / 6 * 6 /\ (n + 5) / 6 * 6 < n + 6)%nat.
Proof.
  pose proof (Nat.div_mod_eq (n + 5) 6).
  pose proof (Nat.mod_upper_bound (n + 5) 6).
  lia.
Qed.

Lemma keyword_batches_concat (keywords : list string) :
  concat (keyword_batches keywords) = keywords.
Proof.
  rewrite keyword_batches_eq. apply chunks_concat.
  pose proof (ceil6_bounds (length keywords)). lia.
Qed.

Lemma keyword_batches_count (keywords : list string) :
  length (keyword_batches keywords) = ((length keywords + 5) / 6)%nat.
Proof. rewrite keyword_batches_eq, length_map, length_seq. reflexivity. Qed.

(** Every batch has between one and six keywords, and every batch but the
    last has six. *)
Lemma keyword_batches_sizes (keywords : list string) (k : nat) (batch : list string) :
  nth_error (keyword_batches keywords) k = Some batch ->
  (1 <= length batch <= 6)%nat
  /\ ((S k < length (keyword_batches keywords))%nat -> length batch = 6%nat).
Proof.
  rewrite keyword_batches_count, keyword_batches_eq. intros H.
  pose proof (ceil6_bounds (length keywords)) as Hc.
  assert (Hk : (k < (length keywords + 5) / 6)%nat).
  { assert (Hs : nth_error (map (fun k0 => firstn 6 (skipn (k0 * 6) keywords))
                               (seq 0 ((length keywords + 5) / 6))) k <> None)
      by (rewrite H; discriminate).
    apply nth_error_Some in Hs. rewrite length_map, length_seq in Hs. exact Hs. }
  rewrite nth_error_map, nth_error_seq in H.
  apply Nat.ltb_lt in Hk as Hk'. rewrite Hk' in H.
  change (Some (firstn 6 (skipn (k * 6) keywords)) = Some batch) in H.
  assert (Hb : batch = firstn 6 (skipn (k * 6) keywords)) by congruence.
  rewrite Hb. clear H Hb.
  rewrite length_firstn, length_skipn. lia.
Qed.

(** ** Merging the batches *)

Lemma existsb_eqb_in (n : string) (seen : list string) :
  existsb (String.eqb n) seen = true <-> In n seen.
Proof.
  rewrite existsb_exists. split.
  - intros (x & Hin & Heq). apply String.eqb_eq in Heq. subst x. exact Hin.
  - intros Hin. exists n. split; [exact Hin | apply String.eqb_refl].
Qed.

Lemma merge_batch_values :
  forall (l : list Repository) (d : PyDict.t Repository) (seen : list string),
    (forall k, In k seen <-> In k (PyDict.keys d)) ->
    PyDict.values (merge_batch d l) = PyDict.values d ++ first_wins_from seen l.
Proof.
  unfold merge_batch.
  induction l as [|r l IH]; intros d seen Hseen; simpl.
  - symmetry. apply app_nil_r.
  - destruct (PyDict.contains d (full_name r)) eqn:Hc.
    + apply PyDictFacts.contains_true_in in Hc. apply Hseen in Hc.
      apply existsb_eqb_in in Hc. rewrite Hc. apply IH. exact Hseen.
    + assert (Hnin : ~ In (full_name r) (PyDict.keys d)).
      { intros Hin. apply PyDictFacts.contains_true_in in Hin. congruence. }
      assert (He : existsb (String.eqb (full_name r)) seen = false).
      { destruct (existsb (String.eqb (full_name r)) seen) eqn:E; [| reflexivity].
        apply existsb_eqb_in in E. apply Hseen in E. contradiction. }
      rewrite He.
      rewrite PyDictFacts.set_fresh by (apply PyDictFacts.get_None_not_in; exact Hnin).
      rewrite (IH _ (full_name r :: seen)).
      * unfold PyDict.values. rewrite map_app, <- app_assoc. reflexivity.
      * intros k. unfold PyDict.keys. rewrite map_app, in_app_iff. simpl.
        rewrite Hseen. unfold PyDict.keys. tauto.
Qed.

Lemma merge_batch_app (d : PyDict.t Repository) (l1 l2 : list Repository) :
  merge_batch (merge_batch d l1) l2 = merge_batch d (l1 ++ l2).
Proof. unfold merge_batch. rewrite fold_left_app. reflexivity. Qed.

(** The loop over the batches is one search per batch followed by the merge
    of all the results in batch order. *)
Lemma search_batches_per_batch :
  forall (since_date : string) (max_repos : Z) (exclude_forks : bool)
         (batches : list (list string)) (d : PyDict.t Repository) (w : World),
    search_batches since_date max_repos exclude_forks batches d w
    = match per_batch_results since_date max_repos exclude_forks batches w with
      | (Ret rs, w') => (Ret (merge_batch d (concat rs)), w')
      | (Raise e, w') => (Raise e, w')
      | (OutOfFuel, w') => (OutOfFuel, w')
      end.
Proof.
  intros since_date max_repos exclude_forks.
  induction batches as [|b batches IH]; intros d w; simpl.
  - reflexivity.
  - unfold bind.
    destruct (_search_repos_single since_date max_repos exclude_forks (Some b) w)
      as [[r | e |] w1]; try reflexivity.
    rewrite IH.
    destruct (per_batch_results since_date max_repos exclude_forks batches w1)
      as [[rs | e |] w2]; try reflexivity.
    unfold ret. simpl. rewrite merge_batch_app. reflexivity.
Qed.

(** With a cap of zero or less a batch sends nothing and returns nothing. *)
Lemma per_batch_results_no_cap :
  forall (since_date : string) (max_repos : Z) (exclude_forks : bool)
         (batches : list (list string)) (w : World),
    max_repos <= 0 ->
    per_batch_results since_date max_repos exclude_forks batches w
    = (Ret (map (fun _ => []) batches), w).
Proof.
  intros since_date max_repos exclude_forks batches w Hcap.
  induction batches as [|b batches IH]; simpl; [reflexivity |].
  unfold bind, _search_repos_single. simpl.
  destruct (len (@nil Repository) <? max_repos) eqn:E.
  - apply Z.ltb_lt in E. rewrite len_nil in E. lia.
  - unfold ret at 1. rewrite IH. reflexivity.
Qed.

Lemma concat_all_nil {A B : Type} (l : list A) :
  concat (map (fun _ => @nil B) l) = [].
Proof. induction l; simpl; auto. Qed.

(** ** Sorting by stars *)

Lemma insert_by_stars_perm (r : Repository) (l : list Repository) :
  Permutation (insert_by_stars r l) (r :: l).
Proof.
  induction l as [|x l IH]; simpl.
  - apply Permutation_refl.
  - destruct (stars x >? stars r).
    + eapply perm_trans; [apply perm_skip; exact IH | apply perm_swap].
    + apply Permutation_refl.
Qed.

Lemma sorted_by_stars_desc_perm (l : list Repository) :
  Permutation (sorted_by_stars_desc l) l.
Proof.
  induction l as [|r l IH]; simpl.
  - apply perm_nil.
  - eapply perm_trans; [apply insert_by_stars_perm | apply perm_skip; exact IH].
Qed.

Lemma insert_by_stars_sorted (r : Repository) (l : list Repository) :
  StronglySorted more_stars l -> StronglySorted more_stars (insert_by_stars r l).
Proof.
  induction l as [|x l IH]; intros Hs; simpl.
  - constructor; [constructor | constructor].
  - inversion Hs as [|? ? Hl Hx]; subst.
    destruct (Z.gtb_spec (stars x) (stars r)) as [Hgt | Hle].
    + constructor; [apply IH; exact Hl |].
      apply Forall_forall. intros y Hy.
      apply (Permutation_in _ (insert_by_stars_perm r l)) in Hy.
      destruct Hy as [Hy | Hy].
      * subst y. unfold more_stars. lia.
      * rewrite Forall_forall in Hx. apply Hx. exact Hy.
    + constructor; [exact Hs |].
      constructor; [unfold more_stars; lia |].
      apply Forall_forall. intros y Hy. rewrite Forall_forall in Hx.
      specialize (Hx y Hy). unfold more_stars in *. lia.
Qed.

Lemma sorted_by_stars_desc_sorted (l : list Repository) :
  StronglySorted more_stars (sorted_by_stars_desc l).
Proof.
  induction l as [|r l IH]; simpl.
  - constructor.
  - apply insert_by_stars_sorted. exact IH.
Qed.

(** ** First wins *)

Lemma first_wins_from_find (n : string) :
  forall (l : list Repository) (seen : list string),
    ~ In n seen ->
    find (has_name n) (first_wins_from seen l) = find (has_name n) l.
Proof.
  induction l as [|r l IH]; intros seen Hn; simpl.
  - reflexivity.
  - destruct (existsb (String.eqb (full_name r)) seen) eqn:E.
    + apply existsb_eqb_in in E. unfold has_name at 2.
      destruct (String.eqb_spec (full_name r) n) as [Heq | Hne].
      * subst n. contradiction.
      * apply IH. exact Hn.
    + simpl. unfold has_name at 1 3.
      destruct (String.eqb_spec (full_name r) n) as [Heq | Hne]; [reflexivity |].
      apply IH. intros [H | H]; [contradiction | auto].
Qed.

Lemma first_wins_from_names (l : list Repository) :
  forall seen : list string,
    NoDup (map full_name (first_wins_from seen l))
    /\ forall r, In r (first_wins_from seen l) -> In r l /\ ~ In (full_name r) seen.
Proof.
  induction l as [|r l IH]; intros seen; simpl.
  - split; [constructor | intros r []].
  - destruct (existsb (String.eqb (full_name r)) seen) eqn:E.
    + destruct (IH seen) as [Hnd Hin]. split; [exact Hnd |].
      intros r0 H0. destruct (Hin r0 H0). auto.
    + destruct (IH (full_name r :: seen)) as [Hnd Hin]. split.
      * simpl. constructor; [| exact Hnd].
        intros H. apply in_map_iff in H. destruct H as (r0 & Hname & H0).
        destruct (Hin r0 H0) as [_ Hns]. apply Hns. left. symmetry. exact Hname.
      * intros r0 [H0 | H0].
        -- subst r0. split; [left; reflexivity |].
           intros H. apply existsb_eqb_in in H. congruence.
        -- destruct (Hin r0 H0) as [H1 H2]. split; [right; exact H1 |].
           intros H. apply H2. right. exact H.
Qed.

(** C2. A keyword list of more than six entries is cut into [ceil(n/6)]
    batches that keep the order (their concatenation is the list; each has
    at most six keywords, each but the last exactly six). [search_repos], in
    either client, runs one paginated search per batch, and when all of them
    return it returns the per-batch results concatenated in batch order,
    reduced to the first copy of each identifier, sorted by stars descending
    and cut to the cap; a batch that raises makes the call raise. *)
Theorem batched_search_merges_batches :
  forall (self : AsyncGitHubClient) (since_date : string) (max_repos : Z)
         (exclude_forks : bool) (keywords : list string) (w : World),
    (6 < length keywords)%nat ->
    let batches := keyword_batches keywords in
    let merged :=
      match per_batch_results since_date max_repos exclude_forks batches w with
      | (Ret rs, w') =>
          (Ret (firstn (Z.to_nat max_repos)
                  (sorted_by_stars_desc (first_wins (concat rs)))), w')
      | (Raise e, w') => (Raise e, w')
      | (OutOfFuel, w') => (OutOfFuel, w')
      end in
    (length batches = ((length keywords + 5) / 6)%nat
     /\ concat batches = keywords
     /\ (forall k batch, nth_error batches k = Some batch ->
           (1 <= length batch <= 6)%nat
           /\ ((S k < length batches)%nat -> length batch = 6%nat)))
    /\ search_repos (__aenter__ self) since_date max_repos exclude_forks (Some keywords) w
       = merged
    /\ GitHubClient_search_repos since_date max_repos exclude_forks (Some keywords) w
       = merged
    /\ (forall l : list Repository,
          NoDup (map full_name (first_wins l))
          /\ (forall n, find (has_name n) (first_wins l) = find (has_name n) l)
          /\ StronglySorted more_stars (sorted_by_stars_desc l)
          /\ Permutation (sorted_by_stars_desc l) l).
Proof.
  intros self since_date max_repos exclude_forks keywords w Hlen batches merged.
  split.
  { split; [apply keyword_batches_count |].
    split; [apply keyword_batches_concat | apply keyword_batches_sizes]. }
  assert (Hbody : search_repos_body since_date max_repos exclude_forks (Some keywords) w
                  = merged).
  { unfold search_repos_body, MAX_KEYWORDS_PER_QUERY.
    apply Nat.ltb_lt in Hlen. rewrite Hlen.
    unfold bind. rewrite search_batches_per_batch. unfold merged. fold batches.
    destruct (Z_le_gt_dec max_repos 0) as [Hneg | Hpos].
    - rewrite per_batch_results_no_cap by exact Hneg.
      rewrite concat_all_nil. unfold ret. simpl.
      rewrite slice_to_nil, firstn_nil. reflexivity.
    - destruct (per_batch_results since_date max_repos exclude_forks batches w)
        as [[rs | e |] w']; try reflexivity.
      unfold ret.
      rewrite (merge_batch_values _ PyDict.empty []) by (intros k; reflexivity).
      simpl app. rewrite slice_to_nonneg by lia. reflexivity. }
  split; [exact Hbody |]. split; [exact Hbody |].
  intros l. destruct (first_wins_from_names l []) as [Hnd _].
  split; [exact Hnd |].
  split; [intros n; apply first_wins_from_find; intros [] |].
  split; [apply sorted_by_stars_desc_sorted | apply sorted_by_stars_desc_perm].
Qed.


Lemma batched_search_merges_batches_witness :
  (6 < length seven_keywords)%nat
  /\ keyword_batches seven_keywords = [["k1"; "k2"; "k3"; "k4"; "k5"; "k6"]; ["k7"]]
  /\ map (fun r => (full_name r, stars r))
       (match fst (search_repos (__aenter__ (AsyncGitHubClient_init "t" 10))
                     "2025-12-10" 100 true (Some seven_keywords)
                     (fresh_world two_batch_server)) with
        | Ret l => l
        | _ => []
        end)
     = [("owner/b", 7); ("owner/c", 6); ("owner/a", 5)].
Proof.
  assert (H : (6 < length seven_keywords)%nat) by (simpl; lia).
  split; [exact H |]. split; [reflexivity |].
  destruct (batched_search_merges_batches (AsyncGitHubClient_init "t" 10)
              "2025-12-10" 100 true seven_keywords (fresh_world two_batch_server) H)
    as (_ & Heq & _).
  rewrite Heq. vm_compute. reflexivity.
Defined.

(** ** The tasks of the enrichment *)


Lemma count_set_nth {A : Type} (p : A -> bool) :
  forall (l : list A) (i : nat) (old x : A),
    nth_error l i = Some old ->
    len (filter p (set_nth i x l)) = len (filter p l) - b2z (p old) + b2z (p x).
Proof.
  induction l as [|y l IH]; intros i old x H.
  - destruct i; discriminate.
  - destruct i as [|i]; simpl in H.
    + inversion H; subst y. cbn [set_nth filter].
      destruct (p old), (p x); rewrite ?len_cons; unfold b2z; lia.
    + cbn [set_nth filter]. specialize (IH i old x H).
      destruct (p y); rewrite ?len_cons; lia.
Qed.

Lemma nth_error_set_nth {A : Type} :
  forall (l : list A) (i j : nat) (x : A),
    nth_error (set_nth i x l) j
    = if (i =? j)%nat
      then match nth_error l j with Some _ => Some x | None => None end
      else nth_error l j.
Proof.
  induction l as [|y l IH]; intros i j x.
  - simpl. destruct (i =? j)%nat; destruct j; reflexivity.
  - destruct i as [|i], j as [|j]; simpl; try reflexivity.
    apply IH.
Qed.

Lemma length_set_nth {A : Type} (l : list A) (i : nat) (x : A) :
  length (set_nth i x l) = length l.
Proof.
  revert i. induction l as [|y l IH]; intros i; [destruct i; reflexivity |].
  destruct i; simpl; [reflexivity | rewrite IH; reflexivity].
Qed.

Lemma Forall2_set_nth {A B : Type} (R : A -> B -> Prop) :
  forall (l : list A) (names : list B) (i : nat) (old x : A),
    Forall2 R l names ->
    nth_error l i = Some old ->
    (forall n, R old n -> R x n) ->
    Forall2 R (set_nth i x l) names.
Proof.
  induction l as [|y l IH]; intros names i old x HF Hn HR.
  - destruct i; discriminate.
  - inversion HF as [|? n ? names' Hy HF']; subst.
    destruct i as [|i]; simpl in *.
    + inversion Hn; subst y. constructor; [apply HR; exact Hy | exact HF'].
    + constructor; [exact Hy | eapply IH; eauto].
Qed.






Section EnrichmentFacts.

Variable b64decode : string -> option (list Byte.byte).
Variable decode_utf8_replace : list Byte.byte -> string.
Variable self : AsyncGitHubClient.
Variable max_chars : Z.

Let step := estep b64decode decode_utf8_replace self max_chars.
Let runs := run b64decode decode_utf8_replace self max_chars.

Lemma estep_balance (g g' : Gather) (ev : Event) :
  step g ev = Some g' ->
  sem_value g' + in_flight g' = sem_value g + in_flight g
  /\ (0 <= sem_value g -> 0 <= sem_value g')
  /\ 2 * pending g' + in_flight g' < 2 * pending g + in_flight g
  /\ length (tasks g') = length (tasks g).
Proof.
  unfold step, estep, in_flight, pending. intros H.
  destruct ev as [i | i o].
  - destruct (nth_error (tasks g) i) as [[name | name | r | e] |] eqn:Hn; try discriminate.
    destruct (_client self).
    + destruct (0 <? sem_value g) eqn:Hs; [| discriminate].
      apply Z.ltb_lt in Hs. inversion H; subst g'. cbn [tasks sem_value].
      rewrite !(count_set_nth _ _ _ _ _ Hn), length_set_nth.
      cbv beta iota delta [b2z]. lia.
    + inversion H; subst g'. cbn [tasks sem_value].
      rewrite !(count_set_nth _ _ _ _ _ Hn), length_set_nth.
      cbv beta iota delta [b2z]. lia.
  - destruct (nth_error (tasks g) i) as [[name | name | r | e] |] eqn:Hn; try discriminate.
    destruct (readme_of_outcome b64decode decode_utf8_replace max_chars o);
      inversion H; subst g'; cbn [tasks sem_value];
      rewrite !(count_set_nth _ _ _ _ _ Hn), length_set_nth;
      cbv beta iota delta [b2z]; lia.
Qed.

Lemma run_balance :
  forall (sched : list Event) (g g' : Gather),
    runs g sched = Some g' ->
    sem_value g' + in_flight g' = sem_value g + in_flight g
    /\ (0 <= sem_value g -> 0 <= sem_value g')
    /\ 2 * pending g' + in_flight g' + len sched <= 2 * pending g + in_flight g
    /\ length (tasks g') = length (tasks g).
Proof.
  unfold runs.
  induction sched as [|ev sched IH]; intros g g' H; simpl in H.
  - inversion H; subst. change (len (@nil Event)) with 0. lia.
  - destruct (estep b64decode decode_utf8_replace self max_chars g ev) as [g1 |] eqn:E;
      [| discriminate].
    apply estep_balance in E. apply IH in H. rewrite len_cons. lia.
Qed.

Lemma estep_task (g g' : Gather) (ev : Event) :
  step g ev = Some g' ->
  exists (i : nat) (name : string),
    tasks g' = set_nth i (match ev with
                          | Start _ =>
                              match _client self with
                              | None => Returned (name, "")
                              | Some _ => InFlight name
                              end
                          | Complete _ o =>
                              task_after b64decode decode_utf8_replace max_chars name o
                          end) (tasks g)
    /\ ev = match ev with Start _ => Start i | Complete _ o => Complete i o end
    /\ nth_error (tasks g) i
       = Some (match ev with Start _ => Pending name | Complete _ _ => InFlight name end).
Proof.
  unfold step, estep, task_after. intros H.
  destruct ev as [i | i o].
  - destruct (nth_error (tasks g) i) as [[name | name | r | e] |] eqn:Hn; try discriminate.
    exists i, name. destruct (_client self).
    + destruct (0 <? sem_value g); [| discriminate]. inversion H; subst g'. auto.
    + inversion H; subst g'. auto.
  - destruct (nth_error (tasks g) i) as [[name | name | r | e] |] eqn:Hn; try discriminate.
    exists i, name.
    destruct (readme_of_outcome b64decode decode_utf8_replace max_chars o);
      inversion H; subst g'; auto.
Qed.

(** A step keeps every task on its repository; a task that has returned
    or raised is never touched again. *)
Lemma estep_tasks_for (g g' : Gather) (ev : Event) (names : list string) :
  step g ev = Some g' ->
  Forall2 task_for (tasks g) names ->
  Forall2 task_for (tasks g') names
  /\ (forall j t, nth_error (tasks g) j = Some t -> terminal t = true ->
                  nth_error (tasks g') j = Some t).
Proof.
  intros H HF. destruct (estep_task _ _ _ H) as (i & name & Ht & _ & Hn).
  rewrite Ht. split.
  - eapply Forall2_set_nth; [exact HF | exact Hn |].
    intros n. unfold task_after.
    destruct ev; simpl; [destruct (_client self); simpl; auto |].
    destruct (readme_of_outcome b64decode decode_utf8_replace max_chars o); simpl; auto.
  - intros j t Hj Hterm. rewrite nth_error_set_nth.
    destruct (Nat.eqb_spec i j) as [-> | Hne]; [| exact Hj].
    rewrite Hj in Hn. inversion Hn; subst t. destruct ev; discriminate.
Qed.

Lemma run_tasks_for :
  forall (sched : list Event) (g g' : Gather) (names : list string),
    runs g sched = Some g' ->
    Forall2 task_for (tasks g) names ->
    Forall2 task_for (tasks g') names
    /\ (forall j t, nth_error (tasks g) j = Some t -> terminal t = true ->
                    nth_error (tasks g') j = Some t).
Proof.
  unfold runs.
  induction sched as [|ev sched IH]; intros g g' names H HF; simpl in H.
  - inversion H; subst. auto.
  - destruct (estep b64decode decode_utf8_replace self max_chars g ev) as [g1 |] eqn:E;
      [| discriminate].
    destruct (estep_tasks_for _ _ _ _ E HF) as [HF1 Hst1].
    destruct (IH _ _ _ H HF1) as [HF' Hst']. split; [exact HF' |].
    intros j t Hj Hterm. apply Hst'; [apply Hst1 |]; assumption.
Qed.

(** The outcome delivered to task [i] decides what task [i] is at the end. *)
Lemma run_complete :
  forall (sched : list Event) (g g' : Gather) (names : list string)
         (i : nat) (o : Outcome),
    runs g sched = Some g' ->
    Forall2 task_for (tasks g) names ->
    In (Complete i o) sched ->
    exists name,
      nth_error names i = Some name
      /\ nth_error (tasks g') i
         = Some (task_after b64decode decode_utf8_replace max_chars name o).
Proof.
  unfold runs.
  induction sched as [|ev sched IH]; intros g g' names i o H HF Hin; simpl in H.
  - destruct Hin.
  - destruct (estep b64decode decode_utf8_replace self max_chars g ev) as [g1 |] eqn:E;
      [| discriminate].
    destruct (estep_tasks_for _ _ _ _ E HF) as [HF1 _].
    destruct Hin as [-> | Hin]; [| eapply IH; eauto].
    destruct (estep_task _ _ _ E) as (i0 & name & Ht & Hev & Hn).
    inversion Hev; subst i0. exists name.
    assert (Hname : nth_error names i = Some name).
    { clear - HF Hn. revert i names HF Hn.
      generalize (tasks g) as ts.
      induction ts as [|t ts IHts]; intros i names HF Hn; [destruct i; discriminate |].
      inversion HF; subst. destruct i; simpl in *.
      - inversion Hn; subst t. simpl in H1. subst. reflexivity.
      - eapply IHts; eauto. }
    split; [exact Hname |].
    destruct (run_tasks_for _ _ _ _ H HF1) as [_ Hst]. apply Hst.
    + rewrite Ht, nth_error_set_nth, Nat.eqb_refl, Hn. reflexivity.
    + unfold task_after.
      destruct (readme_of_outcome b64decode decode_utf8_replace max_chars o); reflexivity.
Qed.


(** [gather] has an exception to propagate exactly when a task has raised. *)
Lemma estep_failed (g g' : Gather) (ev : Event) :
  step g ev = Some g' ->
  (first_raised g = None <-> failed g = 0) ->
  (first_raised g' = None <-> failed g' = 0)
  /\ (forall e, first_raised g = Some e -> first_raised g' = Some e)
  /\ sent g' = sent g ++ match ev, _client self with
                         | Start i, Some _ =>
                             match nth_error (tasks g) i with
                             | Some (Pending name) => [readme_request name]
                             | _ => []
                             end
                         | _, _ => []
                         end.
Proof.
  unfold step, estep, failed. intros H Hinv.
  pose proof (len_nonneg (filter is_failed (tasks g))) as Hnn.
  destruct ev as [i | i o].
  - destruct (nth_error (tasks g) i) as [[name | name | r | e] |] eqn:Hn; try discriminate.
    destruct (_client self).
    + destruct (0 <? sem_value g); [| discriminate]. inversion H; subst g'.
      cbn [tasks first_raised sent]. rewrite (count_set_nth _ _ _ _ _ Hn).
      cbn [b2z is_failed]. rewrite Z.sub_0_r, Z.add_0_r. auto.
    + inversion H; subst g'.
      cbn [tasks first_raised sent]. rewrite (count_set_nth _ _ _ _ _ Hn).
      cbn [b2z is_failed]. rewrite Z.sub_0_r, Z.add_0_r, app_nil_r. auto.
  - destruct (nth_error (tasks g) i) as [[name | name | r | e] |] eqn:Hn; try discriminate.
    destruct (readme_of_outcome b64decode decode_utf8_replace max_chars o);
      inversion H; subst g'; cbn [tasks first_raised sent];
      rewrite (count_set_nth _ _ _ _ _ Hn);
      cbn [b2z is_failed]; rewrite app_nil_r.
    + split; [| split; [| destruct (_client self); reflexivity]].
      * destruct (first_raised g); split; intros; try discriminate; lia.
      * intros e0 He0. rewrite He0. reflexivity.
    + rewrite Z.sub_0_r, Z.add_0_r.
      split; [exact Hinv |]. split; [auto | destruct (_client self); reflexivity].
Qed.

Lemma run_failed :
  forall (sched : list Event) (g g' : Gather),
    runs g sched = Some g' ->
    (first_raised g = None <-> failed g = 0) ->
    (first_raised g' = None <-> failed g' = 0)
    /\ (forall e, first_raised g = Some e -> first_raised g' = Some e).
Proof.
  unfold runs.
  induction sched as [|ev sched IH]; intros g g' H Hinv; simpl in H.
  - inversion H; subst. auto.
  - destruct (estep b64decode decode_utf8_replace self max_chars g ev) as [g1 |] eqn:E;
      [| discriminate].
    destruct (estep_failed _ _ _ E Hinv) as (Hinv1 & Hmono1 & _).
    destruct (IH _ _ H Hinv1) as [Hinv' Hmono']. split; [exact Hinv' |].
    intros e He. apply Hmono', Hmono1, He.
Qed.

End EnrichmentFacts.

Lemma all_returned_map (ts : list Task) (results : list (string * string)) :
  all_returned ts = Some results <-> ts = map Returned results.
Proof.
  revert results. induction ts as [|t ts IH]; intros results.
  - simpl. split; intros H.
    + injection H as <-. reflexivity.
    + destruct results; [reflexivity | discriminate].
  - split.
    + intros H. simpl in H. destruct t; try discriminate.
      destruct (all_returned ts) as [rs |] eqn:E; [| discriminate].
      injection H as <-. simpl. f_equal. apply IH. reflexivity.
    + intros H. destruct results as [|r rs]; [discriminate |]. simpl in H.
      injection H as Ht Hts. subst t. simpl.
      apply IH in Hts. rewrite Hts. reflexivity.
Qed.

Lemma filter_pos_nth {A : Type} (p : A -> bool) (l : list A) :
  0 < len (filter p l) -> exists i x, nth_error l i = Some x /\ p x = true.
Proof.
  induction l as [|y l IH]; simpl; intros H.
  - unfold len in H. simpl in H. lia.
  - destruct (p y) eqn:E.
    + exists 0%nat, y. auto.
    + destruct (IH H) as (i & x & Hn & Hp). exists (S i), x. auto.
Qed.

Lemma all_returned_None (ts : list Task) :
  all_returned ts = None ->
  0 < len (filter is_pending ts) + len (filter is_in_flight ts) + len (filter is_failed ts).
Proof.
  induction ts as [|t ts IH]; intros H; [discriminate |].
  pose proof (len_nonneg (filter is_pending ts)).
  pose proof (len_nonneg (filter is_in_flight ts)).
  pose proof (len_nonneg (filter is_failed ts)).
  destruct t; cbn [filter is_pending is_in_flight is_failed]; rewrite ?len_cons; try lia.
  cbn [all_returned] in H.
  destruct (all_returned ts); [discriminate H |]. apply IH. reflexivity.
Qed.

Lemma fetch_readmes_start_inr (self : AsyncGitHubClient) (repos : list Repository)
    (g0 : Gather) :
  fetch_readmes_start self repos = inr g0 ->
  0 <= max_concurrency self
  /\ sem_value g0 = max_concurrency self
  /\ tasks g0 = map (fun repo => Pending (full_name repo)) repos
  /\ first_raised g0 = None
  /\ sent g0 = []
  /\ in_flight g0 = 0
  /\ failed g0 = 0
  /\ pending g0 = len repos
  /\ Forall2 task_for (tasks g0) (map full_name repos).
Proof.
  unfold fetch_readmes_start. intros H.
  destruct (max_concurrency self <? 0) eqn:E; [discriminate |].
  apply Z.ltb_ge in E. inversion H; subst g0. clear H.
  unfold in_flight, failed, pending. cbn [sem_value tasks first_raised sent].
  repeat (split; [try reflexivity; try exact E |]).
  - induction repos; [reflexivity | simpl; auto].
  - induction repos; [reflexivity | simpl; auto].
  - induction repos; [reflexivity |]. simpl. rewrite !len_cons. f_equal. auto.
  - induction repos; simpl; constructor; [reflexivity | auto].
Qed.

(** C5. From the start of [fetch_readmes] on, in every state that the event
    loop can reach, under every schedule and whatever the network answers,
    the number of fetches in flight is the bound minus the value of the
    semaphore, hence never more than the bound; and when it equals the bound
    no other fetch can start. *)
Theorem in_flight_never_exceeds_bound :
  forall (b64decode : string -> option (list Byte.byte))
         (decode_utf8_replace : list Byte.byte -> string)
         (self : AsyncGitHubClient) (repos : list Repository) (max_chars : Z)
         (sched : list Event) (g0 g : Gather),
    fetch_readmes_start self repos = inr g0 ->
    run b64decode decode_utf8_replace self max_chars g0 sched = Some g ->
    0 <= in_flight g <= max_concurrency self
    /\ in_flight g = max_concurrency self - sem_value g
    /\ (in_flight g = max_concurrency self ->
        _client self <> None ->
        forall i, estep b64decode decode_utf8_replace self max_chars g (Start i) = None).
Proof.
  intros b64decode decode_utf8_replace self repos max_chars sched g0 g Hstart Hrun.
  destruct (fetch_readmes_start_inr _ _ _ Hstart) as (Hn & Hsem & _ & _ & _ & Hfl & _).
  destruct (run_balance _ _ _ _ _ _ _ Hrun) as (Hbal & Hnn & _).
  assert (Hf : 0 <= in_flight g) by apply len_nonneg.
  split; [lia |]. split; [lia |].
  intros Hfull Hclient i. unfold estep.
  destruct (nth_error (tasks g) i) as [[name | name | r | e] |]; try reflexivity.
  destruct (_client self); [| contradiction].
  destruct (Z.ltb_spec 0 (sem_value g)); [lia | reflexivity].
Qed.

(** Twenty repositories under a bound of ten: once ten fetches have
    started, ten are in flight and the eleventh cannot start. *)
Lemma in_flight_never_exceeds_bound_witness :
  exists g0 g,
    fetch_readmes_start entered_client twenty_repos = inr g0
    /\ run id_b64decode id_decode entered_client 500 g0 (map Start (seq 0 10)) = Some g
    /\ in_flight g = 10
    /\ 0 <= in_flight g <= 10
    /\ estep id_b64decode id_decode entered_client 500 g (Start 10%nat) = None.
Proof.
  let t0 := eval vm_compute in (fetch_readmes_start entered_client twenty_repos) in
  match t0 with
  | inr ?g0 =>
      assert (H0 : fetch_readmes_start entered_client twenty_repos = inr g0)
        by (vm_compute; reflexivity);
      let t := eval vm_compute in
                 (run id_b64decode id_decode entered_client 500 g0 (map Start (seq 0 10))) in
      match t with
      | Some ?g =>
          assert (Hrun : run id_b64decode id_decode entered_client 500 g0
                           (map Start (seq 0 10)) = Some g)
            by (vm_compute; reflexivity);
          exists g0, g;
          destruct (in_flight_never_exceeds_bound id_b64decode id_decode entered_client
                      twenty_repos 500 (map Start (seq 0 10)) g0 g H0 Hrun)
            as (Hb & _ & Hfull)
      end
  end.
  split; [exact H0 |]. split; [exact Hrun |].
  split; [vm_compute; reflexivity |].
  split; [exact Hb |].
  apply Hfull; [vm_compute; reflexivity | discriminate].
Defined.

(** ** What a fetch makes of its outcome *)

Section ReadmeOutcome.

Variable b64decode : string -> option (list Byte.byte).
Variable decode_utf8_replace : list Byte.byte -> string.
Variable max_chars : Z.

Let outcome := readme_of_outcome b64decode decode_utf8_replace max_chars.

Lemma http_failure_empty (o : Outcome) :
  http_failure o = true -> outcome o = inr "".
Proof.
  unfold outcome, readme_of_outcome, readme_try, raise_for_status, http_failure.
  destruct o as [|st body]; [reflexivity |]. intros H.
  destruct (st =? 404); [reflexivity |]. simpl in H.
  destruct (is_success st); [discriminate | reflexivity].
Qed.

(** A fetch raises only on a 2xx response other than 404 whose body cannot
    be decoded: not JSON, no [content], or not base64. *)
Lemma raise_is_decode_failure (o : Outcome) (e : Exn) :
  outcome o = inl e ->
  http_failure o = false
  /\ exists st body,
       o = Response st body /\ is_success st = true
       /\ (body = NotJson /\ e = JSONDecodeError
           \/ (exists items, body = JsonObject items None) /\ e = KeyError "content"
           \/ (exists items c, body = JsonObject items (Some c) /\ b64decode c = None)
              /\ e = BinasciiError).
Proof.
  unfold outcome, readme_of_outcome, readme_try, raise_for_status, http_failure.
  destruct o as [|st body]; [discriminate |].
  destruct (st =? 404); [discriminate |].
  destruct (is_success st) eqn:Hst; [| discriminate]. simpl.
  intros H. split; [reflexivity |]. exists st, body.
  split; [reflexivity |]. split; [exact Hst |].
  destruct body as [|items [c |]]; simpl in H.
  - inversion H. left. auto.
  - destruct (b64decode c) eqn:E; [discriminate |]. inversion H.
    right. right. split; [exists items, c; auto | reflexivity].
  - inversion H. right. left. split; [exists items; reflexivity | reflexivity].
Qed.

Lemma estep_raised (self : AsyncGitHubClient) (g g1 : Gather) (ev : Event) :
  estep b64decode decode_utf8_replace self max_chars g ev = Some g1 ->
  (forall e, first_raised g = Some e -> first_raised g1 = Some e)
  /\ (forall e, first_raised g = None -> first_raised g1 = Some e ->
        exists i o, ev = Complete i o /\ outcome o = inl e).
Proof.
  unfold estep, outcome. intros H.
  destruct ev as [i | i o].
  - destruct (nth_error (tasks g) i) as [[name | name | r | e] |]; try discriminate.
    destruct (_client self).
    + destruct (0 <? sem_value g); [| discriminate]. inversion H; subst g1.
      simpl. split; [auto | congruence].
    + inversion H; subst g1. simpl. split; [auto | congruence].
  - destruct (nth_error (tasks g) i) as [[name | name | r | e] |]; try discriminate.
    destruct (readme_of_outcome b64decode decode_utf8_replace max_chars o) as [e | c] eqn:E;
      inversion H; subst g1; simpl.
    + split.
      * intros e0 He0. rewrite He0. reflexivity.
      * intros e0 Hn He0. rewrite Hn in He0. inversion He0; subst e0.
        exists i, o. auto.
    + split; [auto | congruence].
Qed.

Lemma run_raised (self : AsyncGitHubClient) :
  forall (sched : list Event) (g g' : Gather),
    run b64decode decode_utf8_replace self max_chars g sched = Some g' ->
    (forall e, first_raised g = Some e -> first_raised g' = Some e)
    /\ (forall e, first_raised g = None -> first_raised g' = Some e ->
          exists i o, In (Complete i o) sched /\ outcome o = inl e).
Proof.
  induction sched as [|ev sched IH]; intros g g' H; simpl in H.
  - inversion H; subst. split; [auto | congruence].
  - destruct (estep b64decode decode_utf8_replace self max_chars g ev) as [g1 |] eqn:E;
      [| discriminate].
    destruct (estep_raised _ _ _ _ E) as [Hm1 Hc1].
    destruct (IH _ _ H) as [Hm Hc]. split.
    + intros e He. apply Hm, Hm1, He.
    + intros e Hn He. destruct (first_raised g1) as [e1 |] eqn:E1.
      * assert (Heq : first_raised g' = Some e1) by (apply Hm; reflexivity).
        assert (e1 = e) by congruence. subst e1.
        destruct (Hc1 e Hn eq_refl) as (i & o & Hev & Ho).
        exists i, o. split; [left; exact Hev | exact Ho].
      * destruct (Hc e eq_refl He) as (i & o & Hin & Ho).
        exists i, o. split; [right; exact Hin | exact Ho].
Qed.

End ReadmeOutcome.

Lemma returned_names (results : list (string * string)) (names : list string) :
  Forall2 task_for (map Returned results) names -> map fst results = names.
Proof.
  revert names. induction results as [|r results IH]; intros names H; inversion H; subst.
  - reflexivity.
  - simpl. f_equal; [assumption | apply IH; assumption].
Qed.

(** ** Degraded fetches *)

(** C3, refuted as stated. A 200 response whose body is not JSON is a decode
    failure; [fetch_readmes] on the one repository raises [JSONDecodeError]
    instead of returning the empty string for it, and so does the
    synchronous [fetch_readme]. *)
Lemma decode_failure_raises :
  fetch_readmes id_b64decode id_decode entered_client [repo_named "owner/a"] 500
    [Start 0; Complete 0 (Response 200 NotJson)]
  = Some (inl JSONDecodeError, [readme_request "owner/a"])
  /\ fst (fetch_readme id_b64decode id_decode "owner/a" 500 (fresh_world not_json_server))
     = Raise JSONDecodeError.
Proof. split; reflexivity. Qed.

Lemma is_success_not_404 (st : Z) : is_success st = true -> (st =? 404) = false.
Proof.
  unfold is_success. intros H. apply andb_true_iff in H. destruct H as [_ H].
  apply Z.leb_le in H. apply Z.eqb_neq. lia.
Qed.

(** A fetch raises exactly on a response that it cannot decode. *)
Lemma raises_iff_undecodable
    (b64decode : string -> option (list Byte.byte))
    (decode_utf8_replace : list Byte.byte -> string) (max_chars : Z) (o : Outcome) :
  (exists e, readme_of_outcome b64decode decode_utf8_replace max_chars o = inl e)
  <-> undecodable b64decode o = true.
Proof.
  split.
  - intros [e He]. apply raise_is_decode_failure in He.
    destruct He as (_ & st & body & -> & Hst & Hbody). cbn [undecodable]. rewrite Hst.
    destruct Hbody as [[-> _] | [[[items ->] _] | [(items & c & -> & Hc) _]]];
      cbn [andb]; try reflexivity.
    rewrite Hc. reflexivity.
  - destruct o as [|st body]; [discriminate |]. cbn [undecodable]. intros H.
    apply andb_true_iff in H. destruct H as [Hst Hbody].
    unfold readme_of_outcome, readme_try, raise_for_status.
    rewrite (is_success_not_404 _ Hst), Hst.
    destruct body as [|items [c |]]; cbn.
    + eexists; reflexivity.
    + destruct (b64decode c); [discriminate | eexists; reflexivity].
    + eexists; reflexivity.
Qed.

Lemma filter_pos_of_nth {A : Type} (p : A -> bool) (l : list A) (i : nat) (x : A) :
  nth_error l i = Some x -> p x = true -> 0 < len (filter p l).
Proof.
  revert i. induction l as [|y l IH]; intros i Hn Hp; [destruct i; discriminate |].
  cbn [filter]. destruct i as [|i]; simpl in Hn.
  - inversion Hn; subst y. rewrite Hp, len_cons. pose proof (len_nonneg (filter p l)). lia.
  - specialize (IH i Hn Hp). destruct (p y); [rewrite len_cons |]; lia.
Qed.

Lemma get_fold_set_other {V : Type} (k : string) (pairs : list (string * V)) :
  forall d : PyDict.t V,
    (forall kv, In kv pairs -> fst kv <> k) ->
    PyDict.get (fold_left (fun d kv => PyDict.set d (fst kv) (snd kv)) pairs d) k
    = PyDict.get d k.
Proof.
  induction pairs as [|kv pairs IH]; intros d H; [reflexivity |].
  cbn [fold_left]. rewrite IH by (intros kv' Hin; apply H; right; exact Hin).
  apply PyDictFacts.get_set_ne. apply H. left. reflexivity.
Qed.

(** [dict(pairs)] has for a key the value of its last pair. *)
Lemma get_of_pairs_last {V : Type} (k : string) (v : V) (pairs : list (string * V))
    (i : nat) :
  nth_error pairs i = Some (k, v) ->
  (forall j kv, (i < j)%nat -> nth_error pairs j = Some kv -> fst kv <> k) ->
  PyDict.get (PyDict.of_pairs pairs) k = Some v.
Proof.
  unfold PyDict.of_pairs. generalize (@PyDict.empty V) as d. revert i.
  induction pairs as [|kv pairs IH]; intros i d Hn Hlater; [destruct i; discriminate |].
  cbn [fold_left]. destruct i as [|i]; simpl in Hn.
  - inversion Hn; subst kv. cbn [fst snd].
    rewrite get_fold_set_other; [apply PyDictFacts.get_set_eq |].
    intros kv Hin. apply In_nth_error in Hin. destruct Hin as [j Hj].
    apply (Hlater (S j) kv); [lia | exact Hj].
  - apply (IH i); [exact Hn |].
    intros j kv' Hij Hj. apply (Hlater (S j) kv'); [lia | exact Hj].
Qed.

(** C3, amended. In a run of [fetch_readmes], a fetch whose outcome is a
    transport error, a 404 or any other status outside 2xx leaves the result
    [(identifier, "")] for its repository, at its position in the gathered
    results, and in the returned mapping when no later repository of the
    list has the same identifier (the mapping is built from the results in
    order, so a repeated identifier has the value of its last fetch). Such
    an outcome never makes the call raise. The call raises exactly when some
    fetch got a 2xx response that cannot be decoded (not JSON, no [content],
    or not base64): any such response makes it raise, and whenever it
    raises there is one. The synchronous [fetch_readme] returns [""] and
    raises on the same outcomes. *)
Theorem http_failures_degrade_to_empty :
  forall (b64decode : string -> option (list Byte.byte))
         (decode_utf8_replace : list Byte.byte -> string)
         (self : AsyncGitHubClient) (repos : list Repository) (max_chars : Z)
         (sched : list Event) (g0 g : Gather),
    fetch_readmes_start self repos = inr g0 ->
    run b64decode decode_utf8_replace self max_chars g0 sched = Some g ->
    (forall i o, In (Complete i o) sched -> http_failure o = true ->
       exists repo,
         nth_error repos i = Some repo
         /\ nth_error (tasks g) i = Some (Returned (full_name repo, ""))
         /\ forall results, gather g = Some (inr results) ->
              nth_error results i = Some (full_name repo, "")
              /\ (last_of_its_name repos i repo ->
                  PyDict.get (PyDict.of_pairs results) (full_name repo) = Some ""))
    /\ (forall e, gather g = Some (inl e) ->
          exists i o,
            In (Complete i o) sched /\ http_failure o = false
            /\ undecodable b64decode o = true
            /\ readme_of_outcome b64decode decode_utf8_replace max_chars o = inl e)
    /\ (forall i o, In (Complete i o) sched -> undecodable b64decode o = true ->
          exists e,
            gather g = Some (inl e)
            /\ fetch_readmes b64decode decode_utf8_replace self repos max_chars sched
               = Some (inl e, sent g))
    /\ (forall name w,
          let o := server w (map fst (exchanged w)) (readme_request name) in
          (http_failure o = true ->
           fst (fetch_readme b64decode decode_utf8_replace name max_chars w) = Ret "")
          /\ (undecodable b64decode o = true ->
              exists e,
                fst (fetch_readme b64decode decode_utf8_replace name max_chars w)
                = Raise e)).
Proof.
  intros b64decode decode_utf8_replace self repos max_chars sched g0 g Hstart Hrun.
  destruct (fetch_readmes_start_inr _ _ _ Hstart)
    as (_ & _ & _ & Hraised0 & _ & _ & Hfailed0 & _ & Hfor0).
  destruct (run_tasks_for _ _ _ _ _ _ _ _ Hrun Hfor0) as [Hfor _].
  split; [| split; [| split]].
  - intros i o Hin Hfail.
    destruct (run_complete _ _ _ _ _ _ _ _ _ _ Hrun Hfor0 Hin) as (name & Hname & Htask).
    rewrite nth_error_map in Hname.
    destruct (nth_error repos i) as [repo |] eqn:Hrepo; [| discriminate].
    simpl in Hname. inversion Hname; subst name.
    unfold task_after in Htask. rewrite http_failure_empty in Htask by exact Hfail.
    exists repo. split; [reflexivity |]. split; [exact Htask |].
    intros results Hg. unfold gather in Hg.
    destruct (first_raised g); [discriminate |].
    destruct (all_returned (tasks g)) as [rs |] eqn:Hall; [| discriminate].
    inversion Hg; subst rs. apply all_returned_map in Hall.
    rewrite Hall in Htask, Hfor. rewrite nth_error_map in Htask.
    destruct (nth_error results i) as [r |] eqn:Hr; [| discriminate].
    simpl in Htask. inversion Htask; subst r. split; [reflexivity |].
    intros Hlast. apply returned_names in Hfor.
    apply (get_of_pairs_last _ _ _ i Hr).
    intros j kv Hij Hj Hkey.
    assert (Hnj : nth_error (map fst results) j = Some (fst kv))
      by (rewrite nth_error_map, Hj; reflexivity).
    rewrite Hfor, nth_error_map in Hnj.
    destruct (nth_error repos j) as [repo' |] eqn:Hrepo'; [| discriminate].
    simpl in Hnj. inversion Hnj as [Hname'].
    apply (Hlast j repo' Hij Hrepo'). congruence.
  - intros e Hg. unfold gather in Hg.
    destruct (first_raised g) as [e0 |] eqn:He0.
    + inversion Hg; subst e0.
      destruct (run_raised _ _ _ _ _ _ _ Hrun) as [_ Hc].
      destruct (Hc e Hraised0 He0) as (i & o & Hin & Ho).
      exists i, o. split; [exact Hin |].
      split; [apply raise_is_decode_failure in Ho; apply Ho |].
      split; [| exact Ho].
      apply (raises_iff_undecodable b64decode decode_utf8_replace max_chars).
      exists e. exact Ho.
    + destruct (all_returned (tasks g)); discriminate.
  - intros i o Hin Hbad.
    apply (raises_iff_undecodable b64decode decode_utf8_replace max_chars) in Hbad.
    destruct Hbad as [e' He'].
    destruct (run_complete _ _ _ _ _ _ _ _ _ _ Hrun Hfor0 Hin) as (name & _ & Htask).
    unfold task_after in Htask. rewrite He' in Htask.
    assert (Hpos : 0 < failed g).
    { unfold failed. eapply filter_pos_of_nth; [exact Htask | reflexivity]. }
    assert (Hinv : first_raised g = None <-> failed g = 0).
    { eapply run_failed; [exact Hrun |]. rewrite Hraised0, Hfailed0. tauto. }
    destruct (first_raised g) as [e |] eqn:He.
    + exists e. unfold fetch_readmes, gather. rewrite Hstart, Hrun, He. auto.
    + exfalso. destruct Hinv as [Hz _]. specialize (Hz eq_refl). lia.
  - intros name w o. unfold fetch_readme. fold o. split.
    + intros Hfail. rewrite http_failure_empty by exact Hfail. reflexivity.
    + intros Hbad.
      apply (raises_iff_undecodable b64decode decode_utf8_replace max_chars) in Hbad.
      destruct Hbad as [e He]. exists e. rewrite He. reflexivity.
Qed.

(** Two failures on two repositories; and the same identifier twice, where
    the mapping keeps the readme of the second fetch although the first one
    got a 404: the 404 is the result at its position only. *)
Lemma http_failures_degrade_to_empty_witness :
  exists g0 g,
    fetch_readmes_start entered_client two_repos = inr g0
    /\ run id_b64decode id_decode entered_client 500 g0 two_failures = Some g
    /\ tasks g = [Returned ("owner/a", ""); Returned ("owner/b", "")]
    /\ fetch_readmes id_b64decode id_decode entered_client two_repos 500 two_failures
       = Some (inr [("owner/a", ""); ("owner/b", "")],
               [readme_request "owner/a"; readme_request "owner/b"])
    /\ (exists repo,
          nth_error two_repos 1 = Some repo
          /\ nth_error (tasks g) 1 = Some (Returned (full_name repo, "")))
    /\ fetch_readmes id_b64decode id_decode entered_client twice_the_same 500
         missing_then_found
       = Some (inr [("owner/a", "# A")],
               [readme_request "owner/a"; readme_request "owner/a"]).
Proof.
  eexists. eexists.
  split; [reflexivity |]. split; [reflexivity |].
  split; [reflexivity |]. split; [reflexivity |].
  split; [| reflexivity].
  destruct (http_failures_degrade_to_empty id_b64decode id_decode entered_client
              two_repos 500 two_failures _ _ eq_refl eq_refl) as (H & _ & _).
  destruct (H 1%nat (Response 404 NotJson)) as (repo & Hrepo & Htask & _).
  - right. right. left. reflexivity.
  - reflexivity.
  - exists repo. split; [exact Hrepo | exact Htask].
Defined.

(** ** The enrichment call as a whole *)

Lemma returned_counts (results : list (string * string)) (p : Task -> bool) :
  (forall r, p (Returned r) = false) -> len (filter p (map Returned results)) = 0.
Proof.
  intros Hp. induction results as [|r results IH]; [reflexivity |].
  simpl. rewrite Hp. exact IH.
Qed.

Lemma enrichment_progress
    (b64decode : string -> option (list Byte.byte))
    (decode_utf8_replace : list Byte.byte -> string)
    (self : AsyncGitHubClient) (max_chars : Z) (g : Gather) :
  (first_raised g = None <-> failed g = 0) ->
  (_client self <> None -> 0 < sem_value g + in_flight g) ->
  0 <= sem_value g ->
  gather g = None ->
  exists ev g', estep b64decode decode_utf8_replace self max_chars g ev = Some g'.
Proof.
  intros Hinv Hsem Hnn Hg. unfold gather in Hg.
  destruct (first_raised g) eqn:Hr; [discriminate |].
  destruct (all_returned (tasks g)) eqn:Hall; [discriminate |].
  apply all_returned_None in Hall.
  assert (Hf : len (filter is_failed (tasks g)) = 0) by (apply Hinv; reflexivity).
  change (in_flight g) with (len (filter is_in_flight (tasks g))) in Hsem.
  pose proof (len_nonneg (filter is_in_flight (tasks g))) as Hfl.
  destruct (Z.eq_dec (len (filter is_in_flight (tasks g))) 0) as [Hz | Hz].
  - assert (Hp : 0 < len (filter is_pending (tasks g))) by lia.
    destruct (filter_pos_nth _ _ Hp) as (i & t & Hn & Ht).
    destruct t as [name | | |]; try discriminate.
    exists (Start i). unfold estep. rewrite Hn.
    destruct (_client self) eqn:Hc; [| eexists; reflexivity].
    assert (Hs : 0 < sem_value g).
    { assert (Hs0 : 0 < sem_value g + len (filter is_in_flight (tasks g)))
        by (apply Hsem; discriminate).
      lia. }
    apply Z.ltb_lt in Hs. rewrite Hs. eexists; reflexivity.
  - assert (Hp : 0 < len (filter is_in_flight (tasks g))) by lia.
    destruct (filter_pos_nth _ _ Hp) as (i & t & Hn & Ht).
    destruct t as [| name | |]; try discriminate.
    exists (Complete i TransportError). unfold estep. rewrite Hn.
    destruct (readme_of_outcome b64decode decode_utf8_replace max_chars TransportError);
      eexists; reflexivity.
Qed.

Lemma run_app
    (b64decode : string -> option (list Byte.byte))
    (decode_utf8_replace : list Byte.byte -> string)
    (self : AsyncGitHubClient) (max_chars : Z) :
  forall (s1 s2 : list Event) (g : Gather),
    run b64decode decode_utf8_replace self max_chars g (s1 ++ s2)
    = match run b64decode decode_utf8_replace self max_chars g s1 with
      | Some g1 => run b64decode decode_utf8_replace self max_chars g1 s2
      | None => None
      end.
Proof.
  induction s1 as [|ev s1 IH]; intros s2 g; [reflexivity |].
  cbn [app run]. destruct (estep b64decode decode_utf8_replace self max_chars g ev);
    [apply IH | reflexivity].
Qed.

(** From a state in which the call is still waiting, the tasks can be run
    until it comes back: each step uses up some of [2 * pending + in flight]. *)
Lemma run_to_completion
    (b64decode : string -> option (list Byte.byte))
    (decode_utf8_replace : list Byte.byte -> string)
    (self : AsyncGitHubClient) (max_chars : Z) :
  forall (n : nat) (g : Gather),
    (Z.to_nat (2 * pending g + in_flight g) <= n)%nat ->
    (first_raised g = None <-> failed g = 0) ->
    (_client self <> None -> 0 < sem_value g + in_flight g) ->
    0 <= sem_value g ->
    exists more g',
      run b64decode decode_utf8_replace self max_chars g more = Some g'
      /\ gather g' <> None.
Proof.
  induction n as [|n IH]; intros g Hn Hinv Hsem Hnn;
    (destruct (gather g) as [out |] eqn:Hg;
     [exists [], g; split; [reflexivity | rewrite Hg; discriminate] |]);
    destruct (enrichment_progress b64decode decode_utf8_replace self max_chars g
                Hinv Hsem Hnn Hg) as (ev & g1 & Hstep);
    destruct (estep_balance _ _ _ _ _ _ _ Hstep) as (Hbal & Hnn1 & Hless & _);
    pose proof (len_nonneg (filter is_pending (tasks g1))) as Hp1;
    pose proof (len_nonneg (filter is_in_flight (tasks g1))) as Hf1;
    change (len (filter is_pending (tasks g1))) with (pending g1) in Hp1;
    change (len (filter is_in_flight (tasks g1))) with (in_flight g1) in Hf1.
  - exfalso. lia.
  - destruct (estep_failed _ _ _ _ _ _ _ Hstep Hinv) as (Hinv1 & _).
    destruct (IH g1) as (more & g' & Hrun & Hback).
    + lia.
    + exact Hinv1.
    + intros Hc. rewrite Hbal. apply Hsem. exact Hc.
    + apply Hnn1. exact Hnn.
    + exists (ev :: more), g'. split; [| exact Hback].
      cbn [run]. rewrite Hstep. exact Hrun.
Qed.

(** C8, refuted as stated. The call raises as soon as one fetch raises:
    here the first fetch gets a body that is not JSON while the second is
    still in flight, and the call ends there. And the empty list does not
    give the empty mapping when the bound is negative: the semaphore cannot
    be built. *)
Lemma a_raising_fetch_ends_the_call_early :
  fetch_readmes id_b64decode id_decode entered_client two_repos 500 first_fails_early
  = Some (inl JSONDecodeError, [readme_request "owner/a"; readme_request "owner/b"])
  /\ (exists g0 g,
        fetch_readmes_start entered_client two_repos = inr g0
        /\ run id_b64decode id_decode entered_client 500 g0 first_fails_early = Some g
        /\ tasks g = [Failed JSONDecodeError; InFlight "owner/b"]
        /\ in_flight g = 1)
  /\ fetch_readmes id_b64decode id_decode (AsyncGitHubClient_init "t" (-1)) [] 500 []
     = Some (inl (ValueError "Semaphore initial value must be >= 0"), []).
Proof.
  split; [reflexivity |]. split; [| reflexivity].
  eexists. eexists. split; [reflexivity |]. split; [reflexivity |].
  split; reflexivity.
Qed.

(** C8, amended. With a negative bound [fetch_readmes] raises [ValueError]
    at once, whatever the list. Otherwise: a call that returns a mapping
    does so in a state where every task has returned (none pending, none in
    flight), and the mapping has a key for the identifier of every
    repository of the input, a readme that was not found giving the value
    [""]; a call that raises does so on the exception of one of its fetches
    (other fetches may then still be in flight); on the empty list the call
    returns the empty mapping at once, no request is sent and no event can
    take place. With a bound of one or more, or on a client that was not
    entered, the call does come back: no schedule is longer than two steps
    per repository, a schedule after which no task can take a step is one at
    whose end the call has come back, and every schedule can be continued
    into such a one. With a bound of zero, on an entered client and a list
    that is not empty, it never comes back. *)
Theorem fetch_readmes_returns_complete_mapping :
  forall (b64decode : string -> option (list Byte.byte))
         (decode_utf8_replace : list Byte.byte -> string)
         (self : AsyncGitHubClient) (repos : list Repository) (max_chars : Z),
    let call := fetch_readmes b64decode decode_utf8_replace self repos max_chars in
    (max_concurrency self < 0 ->
     call [] = Some (inl (ValueError "Semaphore initial value must be >= 0"), [])
     /\ forall ev sched, call (ev :: sched) = None)
    /\ (0 <= max_concurrency self ->
        (forall sched d reqs,
            call sched = Some (inr d, reqs) ->
            exists g0 g results,
              fetch_readmes_start self repos = inr g0
              /\ run b64decode decode_utf8_replace self max_chars g0 sched = Some g
              /\ tasks g = map Returned results
              /\ in_flight g = 0 /\ pending g = 0
              /\ map fst results = map full_name repos
              /\ d = PyDict.of_pairs results
              /\ forall repo, In repo repos -> PyDict.contains d (full_name repo) = true)
        /\ (forall sched e reqs,
              call sched = Some (inl e, reqs) ->
              exists i o,
                In (Complete i o) sched
                /\ readme_of_outcome b64decode decode_utf8_replace max_chars o = inl e)
        /\ (forall body,
              readme_of_outcome b64decode decode_utf8_replace max_chars (Response 404 body)
              = inr "")
        /\ (fetch_readmes b64decode decode_utf8_replace self [] max_chars []
            = Some (inr PyDict.empty, [])
            /\ forall ev sched,
                 fetch_readmes b64decode decode_utf8_replace self [] max_chars (ev :: sched)
                 = None))
    /\ (1 <= max_concurrency self \/ (_client self = None /\ 0 <= max_concurrency self) ->
        forall g0 sched g,
          fetch_readmes_start self repos = inr g0 ->
          run b64decode decode_utf8_replace self max_chars g0 sched = Some g ->
          len sched <= 2 * len repos
          /\ ((forall ev, estep b64decode decode_utf8_replace self max_chars g ev = None) ->
              call sched <> None)
          /\ exists more, call (sched ++ more) <> None)
    /\ (max_concurrency self = 0 -> _client self <> None -> repos <> [] ->
        forall sched, call sched = None).
Proof.
  intros b64decode decode_utf8_replace self repos max_chars call. unfold call. clear call.
  assert (Hstart : 0 <= max_concurrency self ->
                   forall l, exists g0, fetch_readmes_start self l = inr g0).
  { intros Hbound l. unfold fetch_readmes_start.
    destruct (Z.ltb_spec (max_concurrency self) 0); [lia | eexists; reflexivity]. }
  split; [| split; [| split]].
  - intros Hneg. unfold fetch_readmes, fetch_readmes_start.
    apply Z.ltb_lt in Hneg. rewrite Hneg. split; reflexivity.
  - intros Hbound. split; [| split; [| split]].
    + intros sched d reqs H. unfold fetch_readmes in H.
      destruct (Hstart Hbound repos) as [g0 Hg0]. rewrite Hg0 in H.
      destruct (run b64decode decode_utf8_replace self max_chars g0 sched) as [g |] eqn:Hrun;
        [| discriminate].
      destruct (gather g) as [[e | results] |] eqn:Hg; try discriminate.
      inversion H; subst d reqs. clear H.
      exists g0, g, results. split; [exact Hg0 |]. split; [exact Hrun |].
      assert (Hall : tasks g = map Returned results).
      { unfold gather in Hg. destruct (first_raised g); [discriminate |].
        destruct (all_returned (tasks g)) eqn:E; [| discriminate].
        inversion Hg; subst. apply all_returned_map. exact E. }
      destruct (fetch_readmes_start_inr _ _ _ Hg0) as (_ & _ & _ & _ & _ & _ & _ & _ & Hfor0).
      destruct (run_tasks_for _ _ _ _ _ _ _ _ Hrun Hfor0) as [Hfor _].
      rewrite Hall in Hfor. apply returned_names in Hfor.
      split; [exact Hall |].
      split; [unfold in_flight; rewrite Hall; apply returned_counts; reflexivity |].
      split; [unfold pending; rewrite Hall; apply returned_counts; reflexivity |].
      split; [exact Hfor |]. split; [reflexivity |].
      intros repo Hin. apply PyDictFacts.contains_true_in.
      apply PyDictFacts.keys_of_pairs. rewrite Hfor. apply in_map. exact Hin.
    + intros sched e reqs H. unfold fetch_readmes in H.
      destruct (Hstart Hbound repos) as [g0 Hg0]. rewrite Hg0 in H.
      destruct (run b64decode decode_utf8_replace self max_chars g0 sched) as [g |] eqn:Hrun;
        [| discriminate].
      destruct (gather g) as [[e0 | results] |] eqn:Hg; try discriminate.
      inversion H; subst e0 reqs. clear H.
      destruct (fetch_readmes_start_inr _ _ _ Hg0) as (_ & _ & _ & Hr0 & _).
      unfold gather in Hg. destruct (first_raised g) as [e1 |] eqn:He1.
      * inversion Hg; subst e1.
        destruct (run_raised _ _ _ _ _ _ _ Hrun) as [_ Hc].
        apply (Hc e Hr0 He1).
      * destruct (all_returned (tasks g)); discriminate.
    + intros body. apply http_failure_empty. reflexivity.
    + unfold fetch_readmes. destruct (Hstart Hbound []) as [g0 Hg0]. rewrite Hg0.
      unfold fetch_readmes_start in Hg0.
      destruct (max_concurrency self <? 0); [discriminate |]. inversion Hg0; subst g0.
      split; [reflexivity |].
      intros ev sched. simpl. destruct ev as [i | i o]; destruct i; reflexivity.
  - intros Hlive g0 sched g Hg0 Hrun.
    destruct (fetch_readmes_start_inr _ _ _ Hg0)
      as (Hbound & Hsem0 & _ & Hr0 & _ & Hfl0 & Hf0 & Hp0 & _).
    destruct (run_balance _ _ _ _ _ _ _ Hrun) as (Hbal & Hnn & Hlen & _).
    pose proof (len_nonneg (filter is_in_flight (tasks g))) as Hfl.
    pose proof (len_nonneg (filter is_pending (tasks g))) as Hpe.
    change (len (filter is_in_flight (tasks g))) with (in_flight g) in Hfl.
    change (len (filter is_pending (tasks g))) with (pending g) in Hpe.
    assert (Hinv : first_raised g = None <-> failed g = 0).
    { eapply run_failed; [exact Hrun |]. rewrite Hr0, Hf0. tauto. }
    assert (Hsem : _client self <> None -> 0 < sem_value g + in_flight g).
    { intros Hc. destruct Hlive as [Hone | [Hnone _]]; [lia | contradiction]. }
    assert (Hnn' : 0 <= sem_value g) by (apply Hnn; lia).
    split; [lia |]. split.
    + intros Hstuck. unfold fetch_readmes. rewrite Hg0, Hrun.
      destruct (gather g) as [[e | results] |] eqn:Hg; try discriminate.
      exfalso.
      destruct (enrichment_progress b64decode decode_utf8_replace self max_chars g
                  Hinv Hsem Hnn' Hg) as (ev & g' & Hstep).
      rewrite Hstuck in Hstep. discriminate.
    + destruct (run_to_completion b64decode decode_utf8_replace self max_chars
                  (Z.to_nat (2 * pending g + in_flight g)) g (Nat.le_refl _)
                  Hinv Hsem Hnn') as (more & g' & Hmore & Hback).
      exists more. unfold fetch_readmes. rewrite Hg0, run_app, Hrun, Hmore.
      destruct (gather g') as [[e | results] |]; [discriminate | discriminate | congruence].
  - intros Hzero Hclient Hrepos sched. unfold fetch_readmes, fetch_readmes_start.
    rewrite Hzero. cbn [Z.ltb Z.compare].
    destruct repos as [|repo repos]; [congruence |].
    destruct sched as [|ev sched].
    + reflexivity.
    + cbn [run]. unfold estep. cbn [tasks sem_value map].
      destruct ev as [i | i o].
      * destruct i as [|i]; cbn [nth_error].
        -- destruct (_client self); [reflexivity | congruence].
        -- rewrite nth_error_map. destruct (nth_error repos i); cbn [option_map];
             [| reflexivity].
           destruct (_client self); [reflexivity | congruence].
      * destruct i as [|i]; cbn [nth_error]; [reflexivity |].
        rewrite nth_error_map. destruct (nth_error repos i); reflexivity.
Qed.

Lemma fetch_readmes_returns_complete_mapping_witness :
  fetch_readmes id_b64decode id_decode entered_client [] 500 []
  = Some (inr PyDict.empty, [])
  /\ PyDict.contains [("owner/a", ""); ("owner/b", "")] "owner/b" = true
  /\ exists more,
       fetch_readmes id_b64decode id_decode entered_client two_repos 500
         ([Start 1] ++ more) <> None.
Proof.
  assert (H : 0 <= max_concurrency entered_client) by (simpl; lia).
  destruct (fetch_readmes_returns_complete_mapping id_b64decode id_decode
              entered_client two_repos 500) as (_ & Hret & Hlive & _).
  destruct (fetch_readmes_returns_complete_mapping id_b64decode id_decode
              entered_client [] 500) as (_ & Hnone & _ & _).
  destruct (Hnone H) as (_ & _ & _ & [Hempty _]).
  destruct (Hret H) as (Hmap & _).
  split; [exact Hempty |]. split.
  - destruct (Hmap two_failures _ _ eq_refl)
      as (g0 & g & results & _ & _ & _ & _ & _ & _ & _ & Hkeys).
    apply (Hkeys (repo_named "owner/b")). right. left. reflexivity.
  - assert (H1 : 1 <= max_concurrency entered_client
                 \/ (_client entered_client = None /\ 0 <= max_concurrency entered_client))
      by (left; simpl; lia).
    destruct (Hlive H1 _ [Start 1%nat] _ eq_refl eq_refl) as (_ & _ & Hmore).
    exact Hmore.
Defined.

(** ** The cache *)

Lemma get_filter_nodup {V : Type} (p : string * V -> bool) :
  forall (d : PyDict.t V) (k : string),
    NoDup (PyDict.keys d) ->
    PyDict.get (filter p d) k
    = match PyDict.get d k with
      | Some v => if p (k, v) then Some v else None
      | None => None
      end.
Proof.
  induction d as [|[k' v'] d IH]; intros k Hnd; [reflexivity |].
  inversion Hnd as [|? ? Hk Hnd']; subst. simpl.
  destruct (String.eqb_spec k' k) as [-> | Hne].
  - destruct (p (k, v')) eqn:Hp; simpl.
    + rewrite String.eqb_refl. reflexivity.
    + apply PyDictFacts.get_None_not_in. intros Hin. apply Hk.
      unfold PyDict.keys in *. apply in_map_iff in Hin.
      destruct Hin as (kv & Hfst & Hin). apply filter_In in Hin.
      apply in_map_iff. exists kv. tauto.
  - destruct (p (k', v')); simpl.
    + destruct (String.eqb_spec k' k); [contradiction | apply IH; exact Hnd'].
    + apply IH. exact Hnd'.
Qed.

Lemma keys_filter_nodup {V : Type} (p : string * V -> bool) (d : PyDict.t V) :
  NoDup (PyDict.keys d) -> NoDup (PyDict.keys (filter p d)).
Proof.
  induction d as [|[k v] d IH]; intros Hnd; [constructor |].
  inversion Hnd as [|? ? Hk Hnd']; subst. simpl.
  destruct (p (k, v)); [| apply IH; exact Hnd'].
  simpl. constructor; [| apply IH; exact Hnd'].
  intros Hin. apply Hk. unfold PyDict.keys in *. apply in_map_iff in Hin.
  destruct Hin as (kv & Hfst & Hin). apply filter_In in Hin.
  apply in_map_iff. exists kv. tauto.
Qed.

Section CacheFacts.

Variable json_loads : string -> Exn + PyDict.t string.
Variable fromisoformat : string -> option Z.
Variable today : Z.

Lemma prune_entries_filter (cutoff : Z) (entries : list (string * string)) :
  (forall name s, In (name, s) entries -> fromisoformat s <> None) ->
  prune_entries fromisoformat cutoff entries
  = inr (filter (not_expired fromisoformat cutoff) entries).
Proof.
  induction entries as [|[name s] entries IH]; intros Hparse; [reflexivity |].
  simpl. unfold not_expired at 1. simpl.
  destruct (fromisoformat s) as [d |] eqn:E.
  - rewrite IH by (intros n s0 Hin; apply (Hparse n s0); right; exact Hin).
    replace (d >=? cutoff) with (cutoff <=? d); [reflexivity |].
    destruct (Z.leb_spec cutoff d), (Z.geb_spec d cutoff); try reflexivity; lia.
  - exfalso. apply (Hparse name s); [left; reflexivity | exact E].
Qed.

End CacheFacts.

Lemma prune_entries_inr (fromisoformat : string -> option Z) (cutoff : Z) :
  forall (entries kept : list (string * string)),
    prune_entries fromisoformat cutoff entries = inr kept ->
    kept = filter (not_expired fromisoformat cutoff) entries
    /\ forall name s, In (name, s) entries -> fromisoformat s <> None.
Proof.
  induction entries as [|[name s] entries IH]; intros kept H; simpl in H.
  - inversion H. split; [reflexivity | intros n s []].
  - destruct (fromisoformat s) as [d |] eqn:Hd; [| discriminate].
    destruct (prune_entries fromisoformat cutoff entries) as [e | kept0]; [discriminate |].
    destruct (IH kept0 eq_refl) as [Hk Hp]. inversion H; subst kept. split.
    + cbn [filter]. unfold not_expired at 1. cbn [snd]. rewrite Hd.
      replace (cutoff <=? d) with (d >=? cutoff); [rewrite Hk; reflexivity |].
      destruct (Z.leb_spec cutoff d), (Z.geb_spec d cutoff); try reflexivity; lia.
    + intros n s0 [Hin | Hin]; [inversion Hin; subst; congruence | eapply Hp; exact Hin].
Qed.

(** What [prune] returns, whenever it returns. *)
Lemma prune_inr (fromisoformat : string -> option Z) (today : Z)
    (self pruned : RepoCache) :
  NoDup (PyDict.keys (_data self)) ->
  prune fromisoformat today self = inr pruned ->
  pruned = {| cache_path := cache_path self;
              cache_days := cache_days self;
              _data := filter (not_expired fromisoformat (today - cache_days self))
                         (_data self) |}
  /\ date_minus_days today (cache_days self) = inr (today - cache_days self)
  /\ forall name s, In (name, s) (_data self) -> fromisoformat s <> None.
Proof.
  intros Hnd H. unfold prune in H.
  destruct (date_minus_days today (cache_days self)) as [e | cutoff] eqn:Hc; [discriminate |].
  assert (cutoff = today - cache_days self).
  { unfold date_minus_days in Hc.
    destruct (999999999 <? Z.abs (cache_days self)); [discriminate |].
    destruct (valid_date (today - cache_days self)); inversion Hc; reflexivity. }
  subst cutoff.
  destruct (prune_entries fromisoformat (today - cache_days self) (PyDict.items (_data self)))
    as [e | kept] eqn:Hk; [discriminate |].
  apply prune_entries_inr in Hk. destruct Hk as [-> Hparse].
  inversion H. unfold PyDict.items.
  rewrite PyDictFacts.of_pairs_nodup by (apply (keys_filter_nodup _ _ Hnd)).
  auto.
Qed.

Lemma prune_entries_bad (fromisoformat : string -> option Z) (cutoff : Z) :
  forall (entries : list (string * string)),
    (exists name s, In (name, s) entries /\ fromisoformat s = None) ->
    prune_entries fromisoformat cutoff entries
    = inl (ValueError "Invalid isoformat string").
Proof.
  induction entries as [|[name s] entries IH]; intros (n & s0 & Hin & Hbad).
  - destruct Hin.
  - cbn [prune_entries]. destruct (fromisoformat s) as [d |] eqn:Hd; [| reflexivity].
    rewrite IH; [reflexivity |].
    destruct Hin as [Hin | Hin]; [inversion Hin; subst; congruence |].
    exists n, s0. auto.
Qed.

(** C7, refuted as stated. A cache that loads, with one date that is no
    date: [prune] raises on it, and the entry that is forty days old, with a
    window of thirty, is still there. *)
Lemma prune_raises_on_a_bad_date :
  prune date_fromisoformat today_2025_12_10 bad_date_cache
  = inl (ValueError "Invalid isoformat string")
  /\ PyDict.get (_data bad_date_cache) "old/repo" = Some "2025-10-31"
  /\ date_fromisoformat "2025-10-31" = Some (today_2025_12_10 - 40)
  /\ cache_days bad_date_cache = 30.
Proof. repeat split; vm_compute; reflexivity. Qed.

(** C7, amended. [prune] returns exactly when every date of the cache
    parses and the cutoff [today - cache_days] is a date of the calendar. It
    then keeps exactly the entries whose date is the cutoff or later, in
    their order: an entry strictly earlier than the cutoff is gone, an entry
    dated exactly at the cutoff stays, and no entry that stays is older than
    the window. Otherwise it raises, [OverflowError] for the cutoff and
    [ValueError] for a date that does not parse, and the store is not
    replaced: nothing is removed. *)
Theorem prune_removes_exactly_the_expired :
  forall (fromisoformat : string -> option Z) (today : Z) (self : RepoCache),
    NoDup (PyDict.keys (_data self)) ->
    valid_date today = true ->
    let cutoff := today - cache_days self in
    (valid_date cutoff = true ->
     (forall name s, In (name, s) (_data self) -> fromisoformat s <> None) ->
     exists pruned,
       prune fromisoformat today self = inr pruned
       /\ cache_path pruned = cache_path self
       /\ cache_days pruned = cache_days self
       /\ _data pruned = filter (not_expired fromisoformat cutoff) (_data self)
       /\ (forall name s d,
             PyDict.get (_data self) name = Some s ->
             fromisoformat s = Some d ->
             (d < cutoff -> is_seen pruned name = false)
             /\ (d = cutoff -> PyDict.get (_data pruned) name = Some s)
             /\ (cutoff <= d <-> PyDict.get (_data pruned) name = Some s))
       /\ (forall name s,
             PyDict.get (_data pruned) name = Some s ->
             PyDict.get (_data self) name = Some s
             /\ exists d, fromisoformat s = Some d /\ today - d <= cache_days self))
    /\ (valid_date cutoff = false ->
        exists msg, prune fromisoformat today self = inl (OverflowError msg))
    /\ (valid_date cutoff = true ->
        (exists name s, In (name, s) (_data self) /\ fromisoformat s = None) ->
        prune fromisoformat today self = inl (ValueError "Invalid isoformat string"))
    /\ (forall pruned,
          prune fromisoformat today self = inr pruned ->
          valid_date cutoff = true
          /\ forall name s, In (name, s) (_data self) -> fromisoformat s <> None).
Proof.
  intros fromisoformat today self Hnd Htoday cutoff.
  assert (Hcut_ok : valid_date cutoff = true ->
                    date_minus_days today (cache_days self) = inr cutoff).
  { intros Hcut. unfold date_minus_days.
    assert (Habs : (999999999 <? Z.abs (cache_days self)) = false).
    { unfold valid_date, MINORD, MAXORD, cutoff in *.
      apply andb_true_iff in Htoday. apply andb_true_iff in Hcut.
      destruct Htoday as [H1 H2], Hcut as [H3 H4].
      apply Z.leb_le in H1, H2, H3, H4. apply Z.ltb_ge. lia. }
    rewrite Habs. fold cutoff. rewrite Hcut. reflexivity. }
  split; [| split; [| split]].
  - intros Hcut Hparse. unfold prune. rewrite (Hcut_ok Hcut).
    rewrite (prune_entries_filter fromisoformat _ _ Hparse).
    assert (Hndf : NoDup (map fst (filter (not_expired fromisoformat cutoff) (_data self)))).
    { apply (keys_filter_nodup _ _ Hnd). }
    unfold PyDict.items. rewrite PyDictFacts.of_pairs_nodup by exact Hndf.
    eexists. split; [reflexivity |]. cbn [cache_path cache_days _data].
    split; [reflexivity |]. split; [reflexivity |]. split; [reflexivity |].
    assert (Hget : forall name,
               PyDict.get (filter (not_expired fromisoformat cutoff) (_data self)) name
               = match PyDict.get (_data self) name with
                 | Some s => if not_expired fromisoformat cutoff (name, s) then Some s else None
                 | None => None
                 end).
    { intros name. apply get_filter_nodup. exact Hnd. }
    split.
    + intros name s d Hs Hd. unfold is_seen, PyDict.contains. cbn [_data].
      rewrite (Hget name), Hs. unfold not_expired. cbn [snd]. rewrite Hd.
      destruct (Z.leb_spec cutoff d).
      * split; [intros; lia |]. split; [intros; reflexivity |].
        split; [intros; reflexivity | intros; assumption].
      * split; [intros; reflexivity |]. split; [intros; lia |].
        split; [intros; lia | intros; discriminate].
    + intros name s Hs. rewrite (Hget name) in Hs.
      destruct (PyDict.get (_data self) name) as [s0 |]; [| discriminate].
      unfold not_expired in Hs. cbn [snd] in Hs.
      destruct (fromisoformat s0) as [d |] eqn:Hd; [| discriminate].
      destruct (Z.leb_spec cutoff d); [| discriminate].
      inversion Hs; subst s0. split; [reflexivity |].
      exists d. split; [exact Hd | unfold cutoff in *; lia].
  - intros Hcut. unfold prune, date_minus_days.
    destruct (999999999 <? Z.abs (cache_days self)); [eexists; reflexivity |].
    fold cutoff. rewrite Hcut. eexists; reflexivity.
  - intros Hcut Hbad. unfold prune. rewrite (Hcut_ok Hcut).
    unfold PyDict.items. rewrite (prune_entries_bad _ _ _ Hbad). reflexivity.
  - intros pruned Hp. destruct (prune_inr _ _ _ _ Hnd Hp) as (_ & Hd & Hparse).
    split; [| exact Hparse].
    unfold date_minus_days in Hd.
    destruct (999999999 <? Z.abs (cache_days self)); [discriminate |].
    fold cutoff in Hd. destruct (valid_date cutoff); [reflexivity | discriminate].
Qed.

(** Window of 30 days on 2025-12-10: the entry of 2025-10-31 goes, the entry
    of 2025-11-10, exactly 30 days old, and the entry of 2025-12-05 stay. *)
Lemma prune_removes_exactly_the_expired_witness :
  exists pruned,
    prune date_fromisoformat today_2025_12_10 boundary_cache = inr pruned
    /\ _data pruned = [("edge/repo", "2025-11-10"); ("recent/repo", "2025-12-05")]
    /\ date_fromisoformat "2025-11-10" = Some (today_2025_12_10 - 30)
    /\ is_seen pruned "old/repo" = false.
Proof.
  assert (Hnd : NoDup (PyDict.keys (_data boundary_cache))).
  { simpl. repeat constructor; simpl; intuition discriminate. }
  assert (Hparse : forall name s, In (name, s) (_data boundary_cache) ->
                                  date_fromisoformat s <> None).
  { simpl. intros name s [H | [H | [H | []]]]; inversion H; subst; vm_compute; discriminate. }
  destruct (prune_removes_exactly_the_expired date_fromisoformat today_2025_12_10
              boundary_cache Hnd eq_refl) as (Hgood & _).
  destruct (Hgood eq_refl Hparse) as (pruned & Hp & _ & _ & Hdata & Hold & _).
  exists pruned. split; [exact Hp |]. split; [rewrite Hdata; reflexivity |].
  split; [reflexivity |].
  apply (Hold "old/repo" "2025-10-31" 739555); [reflexivity | reflexivity |].
  unfold today_2025_12_10. simpl. lia.
Defined.

(** C9, refuted as stated. Only [json.JSONDecodeError] is caught in
    [__init__]: a cache file whose bytes the codec of [read_text] rejects
    makes the constructor raise [UnicodeDecodeError] instead of giving an
    empty store. *)
Lemma undecodable_cache_file_raises :
  PyDict.get damaged_fs "seen_repos.json" <> None
  /\ RepoCache_init ascii_codec json_loads_strings damaged_fs "seen_repos.json" 30
     = inl UnicodeDecodeError.
Proof. split; [discriminate | reflexivity]. Qed.

(** C9, amended. [RepoCache.__init__] returns a cache with an empty store,
    and does not raise, when the cache file does not exist and when
    [json.loads] raises [JSONDecodeError] on the text read from it. It
    raises [UnicodeDecodeError] when the bytes of the file cannot be
    decoded, and whatever else [json.loads] raises; when [json.loads]
    returns a mapping, that mapping is the store. *)
Theorem load_missing_or_unparseable_is_empty :
  forall (decode : string -> option string)
         (json_loads : string -> Exn + PyDict.t string) (fs : FS)
         (p : string) (days : Z),
    let loaded := RepoCache_init decode json_loads fs p days in
    let empty := {| cache_path := p; cache_days := days; _data := PyDict.empty |} in
    (PyDict.get fs p = None -> loaded = inr empty)
    /\ (forall content,
          PyDict.get fs p = Some content ->
          (decode content = None -> loaded = inl UnicodeDecodeError)
          /\ forall text,
               decode content = Some text ->
               (json_loads (universal_newlines text) = inl JSONDecodeError ->
                loaded = inr empty)
               /\ (forall e, json_loads (universal_newlines text) = inl e ->
                             e <> JSONDecodeError -> loaded = inl e)
               /\ (forall d, json_loads (universal_newlines text) = inr d ->
                             loaded = inr {| cache_path := p; cache_days := days;
                                             _data := d |}))
    /\ (loaded = inr empty -> forall name, is_seen empty name = false).
Proof.
  intros decode json_loads fs p days loaded empty. unfold loaded, empty, RepoCache_init.
  split; [| split].
  - intros ->. reflexivity.
  - intros content ->. unfold read_text. split.
    + intros ->. reflexivity.
    + intros text ->. split; [| split].
      * intros ->. reflexivity.
      * intros e -> He. destruct e; try reflexivity. congruence.
      * intros d ->. reflexivity.
  - intros _ name. reflexivity.
Qed.

Lemma load_missing_or_unparseable_is_empty_witness :
  RepoCache_init latin1_codec json_loads_strings [("seen_repos.json", "{not json")]
    "seen_repos.json" 30
  = inr {| cache_path := "seen_repos.json"; cache_days := 30; _data := PyDict.empty |}
  /\ RepoCache_init latin1_codec json_loads_strings [] "seen_repos.json" 30
     = inr {| cache_path := "seen_repos.json"; cache_days := 30; _data := PyDict.empty |}
  /\ RepoCache_init latin1_codec json_loads_strings old_fs "seen_repos.json" 30
     = inr {| cache_path := "seen_repos.json"; cache_days := 30;
              _data := [("owner/old", "2025-12-01")] |}.
Proof.
  destruct (load_missing_or_unparseable_is_empty latin1_codec json_loads_strings
              [("seen_repos.json", "{not json")] "seen_repos.json" 30) as (_ & Hbad & _).
  destruct (load_missing_or_unparseable_is_empty latin1_codec json_loads_strings
              [] "seen_repos.json" 30) as (Hmiss & _ & _).
  destruct (load_missing_or_unparseable_is_empty latin1_codec json_loads_strings
              old_fs "seen_repos.json" 30) as (_ & Hok & _).
  split; [| split].
  - destruct (Hbad "{not json" eq_refl) as [_ Htext].
    destruct (Htext "{not json" eq_refl) as (Hempty & _). apply Hempty. reflexivity.
  - apply Hmiss. reflexivity.
  - destruct (Hok old_file eq_refl) as [_ Htext].
    destruct (Htext old_file eq_refl) as (_ & _ & Hd). apply Hd.
    vm_compute. reflexivity.
Defined.

(** ** Saving the cache *)

(** C4, refuted as stated. [save] opens the cache file for writing, which
    empties it, and writes afterwards. A process that dies between the two
    leaves an empty file: neither the state persisted before nor the new one. *)
Lemma save_is_not_atomic :
  PyDict.get old_fs (cache_path new_cache) = Some old_file
  /\ PyDict.get (save_interrupted new_cache old_fs 1) (cache_path new_cache) = Some ""
  /\ old_file <> ""
  /\ json_dumps (_data new_cache) <> "".
Proof.
  split; [reflexivity |]. split; [reflexivity |].
  split; vm_compute; discriminate.
Qed.

(** C4, amended. [save] writes the serialization of the whole current
    mapping to the cache file, whatever the file held before, and touches no
    other file; the write is done in place: stopped before the first
    operation the file is as it was, stopped after the first it is empty, and
    from the second on it holds the new serialization. *)
Theorem save_overwrites_in_place :
  forall (self : RepoCache) (fs : FS),
    PyDict.get (save self fs) (cache_path self) = Some (json_dumps (_data self))
    /\ (forall p, p <> cache_path self -> PyDict.get (save self fs) p = PyDict.get fs p)
    /\ save_interrupted self fs 0 = fs
    /\ PyDict.get (save_interrupted self fs 1) (cache_path self) = Some ""
    /\ (forall n, (2 <= n)%nat ->
          PyDict.get (save_interrupted self fs n) (cache_path self)
          = Some (json_dumps (_data self))).
Proof.
  intros self fs.
  assert (Hfull : PyDict.get (fold_left fs_apply (save_ops self) fs) (cache_path self)
                  = Some (json_dumps (_data self))).
  { unfold save_ops, write_text. simpl.
    rewrite PyDictFacts.get_set_eq, PyDictFacts.get_set_eq. reflexivity. }
  split; [exact Hfull |]. split.
  - intros p Hp. unfold save, save_ops, write_text. simpl.
    rewrite !PyDictFacts.get_set_ne by congruence. reflexivity.
  - split; [reflexivity |]. split.
    + unfold save_interrupted, save_ops, write_text. simpl.
      apply PyDictFacts.get_set_eq.
    + intros n Hn. unfold save_interrupted.
      destruct n as [|[|[|n]]]; try lia.
      * unfold save_ops, write_text. simpl.
        rewrite PyDictFacts.get_set_eq, PyDictFacts.get_set_eq. reflexivity.
      * rewrite firstn_all2 by (simpl; lia). exact Hfull.
Qed.

(* ===================================================================== *)
(** * Further properties of the code                                      *)
(* ===================================================================== *)

(** ** What one batch returns *)

Lemma append_items_content :
  forall (its : list ApiItem) (repos : list Repository) (max_repos : Z)
         (r : list Repository),
    len repos < max_repos ->
    append_items its repos max_repos = inr r ->
    exists extra,
      r = repos ++ extra
      /\ parsed (firstn (length extra) its) extra
      /\ len extra = Z.min (len its) (max_repos - len repos).
Proof.
  induction its as [|it its IH]; intros repos max_repos r Hlt H; simpl in H.
  - inversion H; subst. exists []. rewrite app_nil_r.
    split; [reflexivity |]. split; [constructor |].
    change (len (@nil Repository)) with 0. change (len (@nil ApiItem)) with 0. lia.
  - destruct (from_api it) as [e | repo] eqn:Hit; [discriminate |].
    destruct (len (repos ++ [repo]) >=? max_repos) eqn:E.
    + inversion H; subst. exists [repo].
      split; [reflexivity |]. split; [constructor; [exact Hit | constructor] |].
      rewrite len_app in E. rewrite !len_cons in *.
      change (len (@nil Repository)) with 0 in *.
      apply Z.geb_le in E. pose proof (len_nonneg its). lia.
    + assert (Hlt' : len (repos ++ [repo]) < max_repos).
      { destruct (Z.geb_spec (len (repos ++ [repo])) max_repos); [discriminate | lia]. }
      destruct (IH _ _ _ Hlt' H) as (extra & Hr & Hp & Hlen).
      exists (repo :: extra).
      split; [rewrite Hr, <- app_assoc; reflexivity |].
      split; [simpl; constructor; [exact Hit | exact Hp] |].
      rewrite len_app in Hlen. rewrite !len_cons in *.
      change (len (@nil Repository)) with 0 in *. lia.
Qed.

Lemma parsed_app (its1 its2 : list ApiItem) (r1 r2 : list Repository) :
  parsed its1 r1 -> parsed its2 r2 -> parsed (its1 ++ its2) (r1 ++ r2).
Proof. unfold parsed. intros H1 H2. apply Forall2_app; assumption. Qed.

Lemma parsed_length (its : list ApiItem) (res : list Repository) :
  parsed its res -> length its = length res.
Proof. unfold parsed. intros H. induction H; simpl; auto. Qed.

(** The loop from any page on, when it returns. *)
Lemma search_loop_content :
  forall (fuel : nat) (q : string) (max_repos page : Z) (repos : list Repository)
         (w w' : World) (res : list Repository),
    search_loop fuel q max_repos page repos w = (Ret res, w') ->
    exists (ex : list (Request * Outcome)) (extra : list Repository),
      exchanged w' = exchanged w ++ ex
      /\ Forall ok_page (map snd ex)
      /\ res = repos ++ extra
      /\ parsed (firstn (length extra) (all_items ex)) extra
      /\ len extra = Z.max 0 (Z.min (len (all_items ex)) (max_repos - len repos)).
Proof.
  induction fuel as [|fuel IH]; intros q max_repos page repos w w' res H; simpl in H.
  - destruct (len repos <? max_repos) eqn:Hlt; [discriminate |].
    apply Z.ltb_ge in Hlt. inversion H; subst. exists [], [].
    rewrite !app_nil_r. split; [reflexivity |]. split; [constructor |].
    split; [reflexivity |]. split; [constructor |].
    unfold all_items. simpl. change (len (@nil Repository)) with 0.
    change (len (@nil ApiItem)) with 0. lia.
  - destruct (len repos <? max_repos) eqn:Hlt.
    2:{ apply Z.ltb_ge in Hlt. inversion H; subst. exists [], [].
        rewrite !app_nil_r. split; [reflexivity |]. split; [constructor |].
        split; [reflexivity |]. split; [constructor |].
        unfold all_items. simpl. change (len (@nil Repository)) with 0.
        change (len (@nil ApiItem)) with 0. lia. }
    apply Z.ltb_lt in Hlt.
    unfold bind, client_get in H.
    destruct (server w (map fst (exchanged w)) (search_request q page))
      as [|st body] eqn:Ho; [discriminate |].
    simpl in H. unfold raise_for_status in H.
    destruct (is_success st) eqn:Hst; simpl in H; [| discriminate].
    destruct body as [|its content]; simpl in H; [discriminate |].
    assert (Hok : ok_page (Response st (JsonObject its content))).
    { exists st, its, content. auto. }
    destruct its as [[|it its]|].
    + inversion H; subst. eexists [(_, _)], []. simpl exchanged.
      rewrite app_nil_r. split; [reflexivity |].
      split; [constructor; [exact Hok | constructor] |].
      split; [reflexivity |]. split; [constructor |].
      unfold all_items. simpl. change (len (@nil Repository)) with 0.
      change (len (@nil ApiItem)) with 0. lia.
    + unfold lift at 1 in H.
      destruct (append_items (it :: its) repos max_repos) as [e | repos'] eqn:Happ;
        [discriminate |].
      destruct (append_items_content _ _ _ _ Hlt Happ) as (extra1 & Hr1 & Hp1 & Hl1).
      unfold ret at 1 in H.
      destruct (page + 1 >? 10) eqn:Hceil.
      * inversion H; subst. eexists [(_, _)], extra1. simpl exchanged.
        split; [reflexivity |].
        split; [constructor; [exact Hok | constructor] |].
        split; [reflexivity |].
        unfold all_items. simpl. rewrite app_nil_r.
        split; [exact Hp1 |]. pose proof (len_nonneg extra1). lia.
      * apply IH in H. destruct H as (ex & extra2 & Hex & Hoks & Hres & Hp2 & Hl2).
        simpl exchanged in Hex.
        exists ((search_request q page, Response st (JsonObject (Some (it :: its)) content)) :: ex),
               (extra1 ++ extra2).
        split; [rewrite Hex, <- app_assoc; reflexivity |].
        split; [constructor; [exact Hok | exact Hoks] |].
        split; [rewrite Hres, Hr1, <- app_assoc; reflexivity |].
        assert (Hall : all_items ((search_request q page,
                                   Response st (JsonObject (Some (it :: its)) content)) :: ex)
                       = (it :: its) ++ all_items ex) by reflexivity.
        rewrite Hall. rewrite Hr1, len_app in Hl2.
        rewrite !len_app.
        pose proof (len_nonneg extra1). pose proof (len_nonneg extra2).
        pose proof (len_nonneg (all_items ex)).
        destruct (Z_lt_le_dec (len extra1) (len (it :: its))) as [Hcut | Hfull].
        -- (* the cap was reached inside this page: nothing follows *)
           assert (Hz : len extra2 = 0) by lia.
           assert (extra2 = []).
           { destruct extra2 as [|x xs]; [reflexivity |].
             rewrite len_cons in Hz. pose proof (len_nonneg xs). lia. }
           subst extra2. rewrite app_nil_r.
           split; [| lia].
           rewrite firstn_app.
           replace (length extra1 - length (it :: its))%nat with 0%nat
             by (unfold len in Hcut; lia).
           simpl firstn at 2. rewrite app_nil_r. exact Hp1.
        -- assert (Hlen1 : length extra1 = length (it :: its)) by (unfold len in *; lia).
           split; [| lia].
           rewrite length_app, firstn_app, Hlen1.
           rewrite firstn_all2 by lia.
           replace (length (it :: its) + length extra2 - length (it :: its))%nat
             with (length extra2) by lia.
           apply parsed_app; [| exact Hp2].
           rewrite Hlen1, firstn_all in Hp1. exact Hp1.
    + inversion H; subst. eexists [(_, _)], []. simpl exchanged.
      rewrite app_nil_r. split; [reflexivity |].
      split; [constructor; [exact Hok | constructor] |].
      split; [reflexivity |]. split; [constructor |].
      unfold all_items. simpl. change (len (@nil Repository)) with 0.
      change (len (@nil ApiItem)) with 0. lia.
Qed.

(** X1. When one batch returns, every response it received was a 2xx JSON
    page, and the list returned is, in the order of the server, the parse of
    the first [min(cap, total)] items of those pages: nothing is reordered,
    skipped or added, and items past the cap are not looked at. *)
Theorem single_batch_returns_prefix_of_pages :
  forall (since_date : string) (max_repos : Z) (exclude_forks : bool)
         (keywords : option (list string)) (w w' : World) (res : list Repository),
    _search_repos_single since_date max_repos exclude_forks keywords w = (Ret res, w') ->
    exists ex : list (Request * Outcome),
      exchanged w' = exchanged w ++ ex
      /\ Forall ok_page (map snd ex)
      /\ parsed (firstn (length res) (all_items ex)) res
      /\ len res = Z.max 0 (Z.min (len (all_items ex)) max_repos).
Proof.
  intros since_date max_repos exclude_forks keywords w w' res H.
  unfold _search_repos_single in H. apply search_loop_content in H.
  destruct H as (ex & extra & Hex & Hok & Hres & Hp & Hlen).
  simpl in Hres. subst extra. exists ex.
  change (len (@nil Repository)) with 0 in Hlen. rewrite Z.sub_0_r in Hlen. auto.
Qed.

Lemma single_batch_returns_prefix_of_pages_witness :
  exists w' res ex,
    _search_repos_single "2025-12-10" 1 true None
      (fresh_world (first_page_server [item "owner/a" 9; item "owner/b" 8])) = (Ret res, w')
    /\ exchanged w' = [] ++ ex
    /\ map full_name res = ["owner/a"]
    /\ parsed (firstn (length res) (all_items ex)) res.
Proof.
  destruct (_search_repos_single "2025-12-10" 1 true None
              (fresh_world (first_page_server [item "owner/a" 9; item "owner/b" 8])))
    as [r w'] eqn:E.
  assert (Hr : exists res, r = Ret res /\ map full_name res = ["owner/a"]).
  { vm_compute in E. inversion E. eexists. split; reflexivity. }
  destruct Hr as (res & -> & Hnames).
  destruct (single_batch_returns_prefix_of_pages _ _ _ _ _ _ _ E) as (ex & Hex & _ & Hp & _).
  exists w', res, ex. auto.
Defined.

(** ** The requests of a search *)

Lemma page_requests_in (q : string) (n : nat) (req : Request) :
  (n <= 10)%nat -> In req (page_requests q 1 n) ->
  exists p, 1 <= p <= 10 /\ req = search_request q p.
Proof.
  unfold page_requests. intros Hn Hin. apply in_map_iff in Hin.
  destruct Hin as (i & Hreq & Hi). apply in_seq in Hi.
  exists (1 + Z.of_nat i). split; [lia | auto].
Qed.

Lemma single_batch_requests :
  forall (since_date : string) (max_repos : Z) (exclude_forks : bool)
         (keywords : option (list string)) (w w' : World) (r : Res (list Repository)),
    _search_repos_single since_date max_repos exclude_forks keywords w = (r, w') ->
    exists ex : list (Request * Outcome),
      exchanged w' = exchanged w ++ ex
      /\ server w' = server w
      /\ (length ex <= 10)%nat
      /\ Forall (page_of_group since_date exclude_forks [keywords]) (map fst ex).
Proof.
  intros since_date max_repos exclude_forks keywords w w' r H.
  unfold _search_repos_single, search_fuel in H.
  apply search_loop_spec in H; [| lia | simpl; lia].
  destruct H as (ex & Hex & Hsrv & _ & Hreq & Hcnt & _).
  assert (Hn : (length ex <= 10)%nat) by (unfold len in Hcnt; lia).
  exists ex. split; [exact Hex |]. split; [exact Hsrv |]. split; [exact Hn |].
  rewrite Hreq. apply Forall_forall. intros req Hin.
  destruct (page_requests_in _ _ _ Hn Hin) as (p & Hp & ->).
  exists keywords, p. split; [left; reflexivity | auto].
Qed.

Lemma page_of_group_incl (since_date : string) (exclude_forks : bool)
    (g1 g2 : list (option (list string))) (reqs : list Request) :
  incl g1 g2 ->
  Forall (page_of_group since_date exclude_forks g1) reqs ->
  Forall (page_of_group since_date exclude_forks g2) reqs.
Proof.
  intros Hincl H. eapply Forall_impl; [| exact H].
  intros req (group & p & Hin & Hp & Hreq). exists group, p. auto.
Qed.

Lemma search_batches_requests :
  forall (since_date : string) (max_repos : Z) (exclude_forks : bool)
         (batches : list (list string)) (d : PyDict.t Repository)
         (w w' : World) (r : Res (PyDict.t Repository)),
    search_batches since_date max_repos exclude_forks batches d w = (r, w') ->
    exists ex : list (Request * Outcome),
      exchanged w' = exchanged w ++ ex
      /\ server w' = server w
      /\ (length ex <= 10 * length batches)%nat
      /\ Forall (page_of_group since_date exclude_forks (map Some batches)) (map fst ex).
Proof.
  intros since_date max_repos exclude_forks.
  induction batches as [|b batches IH]; intros d w w' r H; simpl in H.
  - inversion H; subst. exists []. rewrite app_nil_r.
    split; [reflexivity |]. split; [reflexivity |]. split; [simpl; lia | constructor].
  - unfold bind in H.
    destruct (_search_repos_single since_date max_repos exclude_forks (Some b) w)
      as [r1 w1] eqn:E1.
    destruct (single_batch_requests _ _ _ _ _ _ _ E1) as (ex1 & Hex1 & Hsrv1 & Hn1 & Hreq1).
    assert (Hreq1' : Forall (page_of_group since_date exclude_forks (map Some (b :: batches)))
                       (map fst ex1)).
    { eapply page_of_group_incl; [| exact Hreq1].
      intros g [<- | []]. left. reflexivity. }
    destruct r1 as [batch_repos | e |].
    + apply IH in H. destruct H as (ex2 & Hex2 & Hsrv2 & Hn2 & Hreq2).
      exists (ex1 ++ ex2).
      split; [rewrite Hex2, Hex1, <- app_assoc; reflexivity |].
      split; [congruence |].
      split; [rewrite length_app; simpl length; lia |].
      rewrite map_app. apply Forall_app. split; [exact Hreq1' |].
      eapply page_of_group_incl; [| exact Hreq2].
      intros g Hg. right. exact Hg.
    + inversion H; subst. exists ex1.
      split; [exact Hex1 |]. split; [exact Hsrv1 |].
      split; [simpl length; lia | exact Hreq1'].
    + inversion H; subst. exists ex1.
      split; [exact Hex1 |]. split; [exact Hsrv1 |].
      split; [simpl length; lia | exact Hreq1'].
Qed.

Lemma single_batch_pages :
  forall (since_date : string) (max_repos : Z) (exclude_forks : bool)
         (keywords : option (list string)) (w w' : World) (r : Res (list Repository)),
    _search_repos_single since_date max_repos exclude_forks keywords w = (r, w') ->
    exists ex : list (Request * Outcome),
      exchanged w' = exchanged w ++ ex
      /\ (length ex <= 10)%nat
      /\ map fst ex
         = page_requests (build_query since_date exclude_forks keywords) 1 (length ex).
Proof.
  intros since_date max_repos exclude_forks keywords w w' r H.
  unfold _search_repos_single, search_fuel in H.
  apply search_loop_spec in H; [| lia | simpl; lia].
  destruct H as (ex & Hex & _ & _ & Hreq & Hcnt & _).
  exists ex. split; [exact Hex |]. split; [unfold len in Hcnt; lia | exact Hreq].
Qed.

Lemma search_batches_pages :
  forall (since_date : string) (max_repos : Z) (exclude_forks : bool)
         (batches : list (list string)) (d : PyDict.t Repository)
         (w w' : World) (r : Res (PyDict.t Repository)),
    search_batches since_date max_repos exclude_forks batches d w = (r, w') ->
    exists (ex : list (Request * Outcome)) (ks : list nat),
      exchanged w' = exchanged w ++ ex
      /\ (length ks <= length batches)%nat
      /\ Forall (fun k => (k <= 10)%nat) ks
      /\ map fst ex = pages_by_group since_date exclude_forks (map Some batches) ks.
Proof.
  intros since_date max_repos exclude_forks.
  induction batches as [|b batches IH]; intros d w w' r H; simpl in H.
  - inversion H; subst. exists [], []. rewrite app_nil_r.
    split; [reflexivity |]. split; [simpl; lia |]. split; [constructor | reflexivity].
  - unfold bind in H.
    destruct (_search_repos_single since_date max_repos exclude_forks (Some b) w)
      as [r1 w1] eqn:E1.
    destruct (single_batch_pages _ _ _ _ _ _ _ E1) as (ex1 & Hex1 & Hn1 & Hreq1).
    assert (Halone : exists (ex : list (Request * Outcome)) (ks : list nat),
               exchanged w1 = exchanged w ++ ex
               /\ (length ks <= length (b :: batches))%nat
               /\ Forall (fun k => (k <= 10)%nat) ks
               /\ map fst ex
                  = pages_by_group since_date exclude_forks (map Some (b :: batches)) ks).
    { exists ex1, [length ex1]. split; [exact Hex1 |]. split; [simpl; lia |].
      split; [constructor; [exact Hn1 | constructor] |].
      unfold pages_by_group. cbn [map combine concat fst snd].
      destruct (map Some batches); cbn [combine map concat];
        rewrite app_nil_r; exact Hreq1. }
    destruct r1 as [batch_repos | e |].
    + apply IH in H. destruct H as (ex2 & ks & Hex2 & Hlen & Hks & Hreq2).
      exists (ex1 ++ ex2), (length ex1 :: ks).
      split; [rewrite Hex2, Hex1, <- app_assoc; reflexivity |].
      split; [simpl; lia |]. split; [constructor; assumption |].
      unfold pages_by_group in *. cbn [map combine concat fst snd].
      rewrite map_app, Hreq1, Hreq2. reflexivity.
    + inversion H; subst. exact Halone.
    + inversion H; subst. exact Halone.
Qed.

(** X2. Whatever the server answers, a call of [search_repos] sends only
    search requests: group after group, in the order of the groups and for
    the groups it reaches, the pages 1, 2, ... of the query of the group, at
    most ten per group. There is one group when there are at most six
    keywords (or none) and [ceil(n/6)] groups otherwise, and no group has
    more than six keywords (five [OR]). The call leaves the server as it
    was. *)
Theorem search_requests_are_pages_of_groups :
  forall (since_date : string) (max_repos : Z) (exclude_forks : bool)
         (keywords : option (list string)) (w : World),
    let out := search_repos_body since_date max_repos exclude_forks keywords w in
    let groups := query_groups keywords in
    exists ex : list (Request * Outcome),
      exchanged (snd out) = exchanged w ++ ex
      /\ server (snd out) = server w
      /\ (exists ks : list nat,
            (length ks <= length groups)%nat
            /\ Forall (fun k => (k <= 10)%nat) ks
            /\ map fst ex = pages_by_group since_date exclude_forks groups ks)
      /\ (length ex <= 10 * length groups)%nat
      /\ Forall (page_of_group since_date exclude_forks groups) (map fst ex)
      /\ (forall kws, In (Some kws) groups -> (length kws <= 6)%nat)
      /\ (length groups
          = match keywords with
            | Some kws => if (6 <? length kws)%nat then (length kws + 5) / 6 else 1
            | None => 1
            end)%nat.
Proof.
  intros since_date max_repos exclude_forks keywords w out groups.
  assert (Hsingle :
            forall k, exists ex : list (Request * Outcome),
              exchanged (snd (_search_repos_single since_date max_repos exclude_forks k w))
              = exchanged w ++ ex
              /\ server (snd (_search_repos_single since_date max_repos exclude_forks k w))
                 = server w
              /\ (exists ks : list nat,
                    (length ks <= length [k])%nat
                    /\ Forall (fun k => (k <= 10)%nat) ks
                    /\ map fst ex = pages_by_group since_date exclude_forks [k] ks)
              /\ (length ex <= 10 * 1)%nat
              /\ Forall (page_of_group since_date exclude_forks [k]) (map fst ex)).
  { intros k.
    destruct (_search_repos_single since_date max_repos exclude_forks k w) as [r w'] eqn:E.
    destruct (single_batch_requests _ _ _ _ _ _ _ E) as (ex & H1 & H2 & H3 & H4).
    destruct (single_batch_pages _ _ _ _ _ _ _ E) as (ex' & H1' & H3' & H5).
    assert (ex' = ex) by (rewrite H1 in H1'; apply app_inv_head in H1'; congruence).
    subst ex'.
    exists ex. simpl.
    split; [exact H1 |]. split; [exact H2 |]. split; [| split; [lia | exact H4]].
    exists [length ex]. split; [simpl; lia |]. split; [constructor; [exact H3 | constructor] |].
    unfold pages_by_group. cbn [map combine concat fst snd]. rewrite app_nil_r. exact H5. }
  unfold out, groups, search_repos_body, query_groups, MAX_KEYWORDS_PER_QUERY.
  destruct keywords as [kws |].
  - destruct (6 <? length kws)%nat eqn:Hlen.
    + unfold bind.
      destruct (search_batches since_date max_repos exclude_forks (keyword_batches kws)
                  PyDict.empty w) as [r w'] eqn:E.
      destruct (search_batches_requests _ _ _ _ _ _ _ _ E) as (ex & H1 & H2 & H3 & H4).
      destruct (search_batches_pages _ _ _ _ _ _ _ _ E) as (ex' & ks & H1' & Hk1 & Hk2 & Hk3).
      assert (ex' = ex) by (rewrite H1 in H1'; apply app_inv_head in H1'; congruence).
      subst ex'.
      exists ex.
      assert (Hw : snd (match r with
                        | Ret a => ret (slice_to (sorted_by_stars_desc (PyDict.values a))
                                          max_repos) w'
                        | Raise e => (Raise e, w')
                        | OutOfFuel => (OutOfFuel, w')
                        end) = w') by (destruct r; reflexivity).
      rewrite Hw, length_map.
      split; [exact H1 |]. split; [exact H2 |].
      split; [exists ks; rewrite ?length_map; auto |].
      split; [exact H3 |]. split; [exact H4 |].
      split; [| apply keyword_batches_count].
      intros b Hin. apply in_map_iff in Hin. destruct Hin as (b' & Hb & Hin).
      inversion Hb; subst b'. apply In_nth_error in Hin. destruct Hin as [k Hk].
      apply keyword_batches_sizes in Hk. lia.
    + destruct (Hsingle (Some kws)) as (ex & H1 & H2 & Hks & H3 & H4). exists ex.
      split; [exact H1 |]. split; [exact H2 |]. split; [exact Hks |].
      split; [exact H3 |]. split; [exact H4 |].
      split; [| reflexivity].
      intros b [Hb | []]. inversion Hb; subst b. apply Nat.ltb_ge in Hlen. exact Hlen.
  - destruct (Hsingle None) as (ex & H1 & H2 & Hks & H3 & H4). exists ex.
    split; [exact H1 |]. split; [exact H2 |]. split; [exact Hks |].
    split; [exact H3 |]. split; [exact H4 |].
    split; [| reflexivity]. intros b [Hb | []]. discriminate.
Qed.

(** ** What a batched search returns *)

Lemma firstn_In {A : Type} (n : nat) (l : list A) (x : A) :
  In x (firstn n l) -> In x l.
Proof.
  revert n. induction l as [|y l IH]; intros n H; destruct n; simpl in *; try contradiction.
  destruct H as [H | H]; [left; exact H | right; eapply IH; exact H].
Qed.

Lemma NoDup_firstn {A : Type} (n : nat) (l : list A) : NoDup l -> NoDup (firstn n l).
Proof.
  revert n. induction l as [|x l IH]; intros n H; destruct n; simpl; try constructor.
  - inversion H; subst. intros Hin. apply firstn_In in Hin. contradiction.
  - inversion H; subst. apply IH. assumption.
Qed.

Lemma StronglySorted_firstn {A : Type} (R : A -> A -> Prop) (n : nat) (l : list A) :
  StronglySorted R l -> StronglySorted R (firstn n l).
Proof.
  revert n. induction l as [|x l IH]; intros n H; destruct n; simpl; try constructor.
  - inversion H; subst. apply IH. assumption.
  - inversion H; subst. apply Forall_forall. intros y Hy. apply firstn_In in Hy.
    rewrite Forall_forall in H3. apply H3. exact Hy.
Qed.

(** The sort is stable: repositories with the same number of stars keep
    their order. *)
Lemma insert_by_stars_filter (s : Z) (r : Repository) (l : list Repository) :
  filter (has_stars s) (insert_by_stars r l)
  = if has_stars s r then r :: filter (has_stars s) l else filter (has_stars s) l.
Proof.
  induction l as [|x l IH]; simpl.
  - destruct (has_stars s r); reflexivity.
  - destruct (Z.gtb_spec (stars x) (stars r)) as [Hgt | Hle]; simpl.
    + rewrite IH. unfold has_stars.
      destruct (Z.eqb_spec (stars x) s), (Z.eqb_spec (stars r) s); try reflexivity. lia.
    + destruct (has_stars s r); reflexivity.
Qed.

Lemma sorted_by_stars_desc_stable (s : Z) (l : list Repository) :
  filter (has_stars s) (sorted_by_stars_desc l) = filter (has_stars s) l.
Proof.
  induction l as [|r l IH]; simpl; [reflexivity |].
  rewrite insert_by_stars_filter, IH. reflexivity.
Qed.

(** The result of the batched path in terms of the per-batch results. *)
Lemma batched_search_result :
  forall (since_date : string) (max_repos : Z) (exclude_forks : bool)
         (keywords : list string) (w w' : World) (res : list Repository),
    (6 < length keywords)%nat ->
    search_repos_body since_date max_repos exclude_forks (Some keywords) w = (Ret res, w') ->
    exists rs,
      per_batch_results since_date max_repos exclude_forks (keyword_batches keywords) w
      = (Ret rs, w')
      /\ res = firstn (Z.to_nat max_repos)
                 (sorted_by_stars_desc (first_wins (concat rs))).
Proof.
  intros since_date max_repos exclude_forks keywords w w' res Hlen H.
  unfold search_repos_body, MAX_KEYWORDS_PER_QUERY in H.
  apply Nat.ltb_lt in Hlen. rewrite Hlen in H.
  unfold bind in H. rewrite search_batches_per_batch in H.
  destruct (Z_le_gt_dec max_repos 0) as [Hneg | Hpos].
  - rewrite per_batch_results_no_cap in * by exact Hneg.
    rewrite concat_all_nil in H. unfold ret in H. simpl in H.
    rewrite slice_to_nil in H. inversion H; subst.
    eexists. split; [reflexivity |]. rewrite concat_all_nil. simpl.
    rewrite firstn_nil. reflexivity.
  - destruct (per_batch_results since_date max_repos exclude_forks
                (keyword_batches keywords) w) as [[rs | e |] w1]; try discriminate.
    unfold ret in H.
    rewrite (merge_batch_values _ PyDict.empty []) in H by (intros k; reflexivity).
    simpl app in H. rewrite slice_to_nonneg in H by lia.
    inversion H; subst. exists rs. split; reflexivity.
Qed.

(** X3. When a search over more than six keywords returns, the list has no
    two repositories with the same identifier, is sorted by stars descending,
    is no longer than the cap, and every repository in it was returned by one
    of the batches, all of which returned. *)
Theorem batched_search_result_is_clean :
  forall (since_date : string) (max_repos : Z) (exclude_forks : bool)
         (keywords : list string) (w w' : World) (res : list Repository),
    (6 < length keywords)%nat ->
    search_repos_body since_date max_repos exclude_forks (Some keywords) w = (Ret res, w') ->
    NoDup (map full_name res)
    /\ StronglySorted more_stars res
    /\ len res <= Z.max 0 max_repos
    /\ exists rs,
         per_batch_results since_date max_repos exclude_forks (keyword_batches keywords) w
         = (Ret rs, w')
         /\ length rs = length (keyword_batches keywords)
         /\ forall r, In r res -> exists batch_repos, In batch_repos rs /\ In r batch_repos.
Proof.
  intros since_date max_repos exclude_forks keywords w w' res Hlen H.
  destruct (batched_search_result _ _ _ _ _ _ _ Hlen H) as (rs & Hrs & Hres).
  subst res. split; [| split; [| split]].
  - rewrite <- firstn_map. apply NoDup_firstn.
    eapply Permutation_NoDup.
    + apply Permutation_map. apply Permutation_sym. apply sorted_by_stars_desc_perm.
    + apply (first_wins_from_names (concat rs) []).
  - apply StronglySorted_firstn. apply sorted_by_stars_desc_sorted.
  - unfold len. rewrite length_firstn. lia.
  - exists rs. split; [exact Hrs |]. split.
    + clear - Hrs. revert w w' rs Hrs.
      induction (keyword_batches keywords) as [|b bs IH]; intros w w' rs Hrs; simpl in Hrs.
      * inversion Hrs. reflexivity.
      * unfold bind in Hrs.
        destruct (_search_repos_single since_date max_repos exclude_forks (Some b) w)
          as [[r | e |] w1]; try discriminate.
        destruct (per_batch_results since_date max_repos exclude_forks bs w1)
          as [[rs' | e |] w2] eqn:E; try discriminate.
        inversion Hrs; subst. simpl. f_equal. eapply IH. exact E.
    + intros r Hin. apply firstn_In in Hin.
      apply (Permutation_in _ (sorted_by_stars_desc_perm _)) in Hin.
      apply (first_wins_from_names (concat rs) []) in Hin. destruct Hin as [Hin _].
      apply in_concat in Hin. destruct Hin as (l & Hl & Hr). exists l. auto.
Qed.

Lemma batched_search_result_is_clean_witness :
  exists res w',
    (6 < length seven_keywords)%nat
    /\ search_repos_body "2025-12-10" 100 true (Some seven_keywords)
         (fresh_world two_batch_server) = (Ret res, w')
    /\ NoDup (map full_name res)
    /\ StronglySorted more_stars res
    /\ map full_name res = ["owner/b"; "owner/c"; "owner/a"].
Proof.
  assert (Hlen : (6 < length seven_keywords)%nat) by (simpl; lia).
  destruct (search_repos_body "2025-12-10" 100 true (Some seven_keywords)
              (fresh_world two_batch_server)) as [r w'] eqn:E.
  assert (Hr : exists res, r = Ret res
                           /\ map full_name res = ["owner/b"; "owner/c"; "owner/a"]).
  { vm_compute in E. inversion E. eexists. split; reflexivity. }
  destruct Hr as (res & -> & Hnames).
  destruct (batched_search_result_is_clean _ _ _ _ _ _ _ Hlen E) as (Hnd & Hs & _).
  exists res, w'. auto.
Defined.

(** X4. In the result of a search over more than six keywords, repositories
    with the same number of stars stand in the order in which the batches
    first returned them: the list is the cap-long prefix of a list that, for
    every star count, holds the same repositories in the same order as the
    first copies of the concatenated batch results. *)
Theorem batched_search_keeps_first_seen_order_on_ties :
  forall (since_date : string) (max_repos : Z) (exclude_forks : bool)
         (keywords : list string) (w w' : World) (res : list Repository),
    (6 < length keywords)%nat ->
    search_repos_body since_date max_repos exclude_forks (Some keywords) w = (Ret res, w') ->
    exists rs merged,
      per_batch_results since_date max_repos exclude_forks (keyword_batches keywords) w
      = (Ret rs, w')
      /\ res = firstn (Z.to_nat max_repos) merged
      /\ forall s, filter (has_stars s) merged
                   = filter (has_stars s) (first_wins (concat rs)).
Proof.
  intros since_date max_repos exclude_forks keywords w w' res Hlen H.
  destruct (batched_search_result _ _ _ _ _ _ _ Hlen H) as (rs & Hrs & Hres).
  exists rs, (sorted_by_stars_desc (first_wins (concat rs))).
  split; [exact Hrs |]. split; [exact Hres |].
  intros s. apply sorted_by_stars_desc_stable.
Qed.

Lemma batched_search_keeps_first_seen_order_on_ties_witness :
  exists res w' rs merged,
    (6 < length seven_keywords)%nat
    /\ search_repos_body "2025-12-10" 100 true (Some seven_keywords)
         (fresh_world tie_server) = (Ret res, w')
    /\ map full_name res = ["owner/x"; "owner/y"; "owner/z"]
    /\ res = firstn (Z.to_nat 100) merged
    /\ filter (has_stars 5) merged = filter (has_stars 5) (first_wins (concat rs)).
Proof.
  assert (Hlen : (6 < length seven_keywords)%nat) by (simpl; lia).
  destruct (search_repos_body "2025-12-10" 100 true (Some seven_keywords)
              (fresh_world tie_server)) as [r w'] eqn:E.
  assert (Hr : exists res, r = Ret res
                           /\ map full_name res = ["owner/x"; "owner/y"; "owner/z"]).
  { vm_compute in E. inversion E. eexists. split; reflexivity. }
  destruct Hr as (res & -> & Hnames).
  destruct (batched_search_keeps_first_seen_order_on_ties _ _ _ _ _ _ _ Hlen E)
    as (rs & merged & _ & Hres & Hties).
  exists res, w', rs, merged.
  split; [exact Hlen |]. split; [reflexivity |]. split; [exact Hnames |].
  split; [exact Hres | apply Hties].
Defined.

(** ** Readme texts *)

Lemma length_string_of_list_ascii (l : list ascii) :
  String.length (string_of_list_ascii l) = length l.
Proof. induction l; simpl; auto. Qed.

Lemma length_list_ascii_of_string (s : string) :
  length (list_ascii_of_string s) = String.length s.
Proof. induction s; simpl; auto. Qed.

(** [s[:n]]: the first [n] characters, or all but the last [-n]. *)
Lemma str_slice_to_length (s : string) (n : Z) :
  Z.of_nat (String.length (str_slice_to s n))
  = if 0 <=? n then Z.min n (Z.of_nat (String.length s))
    else Z.max 0 (Z.of_nat (String.length s) + n).
Proof.
  unfold str_slice_to, slice_to, len.
  rewrite length_list_ascii_of_string.
  destruct (Z.leb_spec 0 n);
    rewrite length_string_of_list_ascii, length_firstn, length_list_ascii_of_string; lia.
Qed.

Lemma readme_of_outcome_cases
    (b64decode : string -> option (list Byte.byte))
    (decode_utf8_replace : list Byte.byte -> string)
    (max_chars : Z) (o : Outcome) (c : string) :
  readme_of_outcome b64decode decode_utf8_replace max_chars o = inr c ->
  (http_failure o = true /\ c = "")
  \/ exists st items content raw,
       o = Response st (JsonObject items (Some content))
       /\ is_success st = true
       /\ b64decode content = Some raw
       /\ c = str_slice_to (decode_utf8_replace raw) max_chars.
Proof.
  unfold readme_of_outcome, readme_try, raise_for_status, http_failure.
  destruct o as [|st body]; [intros H; inversion H; auto |].
  destruct (st =? 404); [intros H; inversion H; auto |].
  destruct (is_success st) eqn:Hst; [| intros H; inversion H; auto].
  destruct body as [|items [content |]]; simpl; try discriminate.
  destruct (b64decode content) as [raw |] eqn:Hraw; simpl; [| discriminate].
  intros H. inversion H. right. exists st, items, content, raw. auto.
Qed.

Lemma readme_within_limit
    (b64decode : string -> option (list Byte.byte))
    (decode_utf8_replace : list Byte.byte -> string)
    (max_chars : Z) (o : Outcome) (c : string) :
  readme_of_outcome b64decode decode_utf8_replace max_chars o = inr c ->
  within_limit max_chars c.
Proof.
  intros H Hmax. apply readme_of_outcome_cases in H.
  destruct H as [[_ ->] | (st & items & content & raw & _ & _ & _ & ->)].
  - simpl. lia.
  - rewrite str_slice_to_length. destruct (Z.leb_spec 0 max_chars); lia.
Qed.

Lemma Forall_set_nth {A : Type} (P : A -> Prop) (i : nat) (x : A) (l : list A) :
  Forall P l -> P x -> Forall P (set_nth i x l).
Proof.
  revert i. induction l as [|y l IH]; intros i Hl Hx; [constructor |].
  inversion Hl; subst. destruct i; simpl; constructor; auto.
Qed.

Lemma run_within_limit
    (b64decode : string -> option (list Byte.byte))
    (decode_utf8_replace : list Byte.byte -> string)
    (self : AsyncGitHubClient) (max_chars : Z) :
  forall (sched : list Event) (g g' : Gather),
    run b64decode decode_utf8_replace self max_chars g sched = Some g' ->
    Forall (task_within_limit max_chars) (tasks g) ->
    Forall (task_within_limit max_chars) (tasks g').
Proof.
  induction sched as [|ev sched IH]; intros g g' H HF; simpl in H.
  - inversion H; subst. exact HF.
  - destruct (estep b64decode decode_utf8_replace self max_chars g ev) as [g1 |] eqn:E;
      [| discriminate].
    apply (IH _ _ H). destruct (estep_task _ _ _ _ _ _ _ E) as (i & name & Ht & _ & _).
    rewrite Ht. apply Forall_set_nth; [exact HF |].
    destruct ev as [j | j o].
    + destruct (_client self); simpl; [exact I |].
      unfold within_limit. simpl. intros Hm. exact Hm.
    + unfold task_after.
      destruct (readme_of_outcome b64decode decode_utf8_replace max_chars o) as [e | c] eqn:Ho;
        simpl; [exact I |].
      eapply readme_within_limit. exact Ho.
Qed.

Lemma get_fold_set_in {V : Type} (pairs : list (string * V)) :
  forall (d : PyDict.t V) (k : string) (v : V),
    PyDict.get (fold_left (fun d kv => PyDict.set d (fst kv) (snd kv)) pairs d) k = Some v ->
    PyDict.get d k = Some v \/ In (k, v) pairs.
Proof.
  induction pairs as [|[k' v'] pairs IH]; intros d k v H; simpl in H; [left; exact H |].
  apply IH in H. destruct H as [H | H]; [| right; right; exact H].
  simpl in H. destruct (string_dec k' k) as [-> | Hne].
  - rewrite PyDictFacts.get_set_eq in H. inversion H; subst. right. left. reflexivity.
  - rewrite PyDictFacts.get_set_ne in H by exact Hne. left. exact H.
Qed.

Lemma get_of_pairs_in {V : Type} (pairs : list (string * V)) (k : string) (v : V) :
  PyDict.get (PyDict.of_pairs pairs) k = Some v -> In (k, v) pairs.
Proof.
  unfold PyDict.of_pairs. intros H. apply get_fold_set_in in H.
  destruct H as [H | H]; [discriminate | exact H].
Qed.

(** X5. A readme is cut to the limit: for a limit that is not negative, the
    text that [fetch_readme] returns, and every value of a mapping that
    [fetch_readmes] returns, has at most [max_chars] characters; a fetch that
    succeeds gives the first [max_chars] characters of the decoded text, and
    the whole text when it is shorter. (A negative limit cuts from the end, as
    Python slices do.) *)
Theorem readmes_are_cut_to_the_limit :
  forall (b64decode : string -> option (list Byte.byte))
         (decode_utf8_replace : list Byte.byte -> string)
         (max_chars : Z),
    0 <= max_chars ->
    (forall name w c,
        fst (fetch_readme b64decode decode_utf8_replace name max_chars w) = Ret c ->
        Z.of_nat (String.length c) <= max_chars)
    /\ (forall self repos sched d reqs k v,
          fetch_readmes b64decode decode_utf8_replace self repos max_chars sched
          = Some (inr d, reqs) ->
          PyDict.get d k = Some v ->
          Z.of_nat (String.length v) <= max_chars)
    /\ (forall st items content raw,
          is_success st = true -> st <> 404 ->
          b64decode content = Some raw ->
          exists c,
            readme_of_outcome b64decode decode_utf8_replace max_chars
              (Response st (JsonObject items (Some content))) = inr c
            /\ Z.of_nat (String.length c)
               = Z.min max_chars (Z.of_nat (String.length (decode_utf8_replace raw)))
            /\ c = str_slice_to (decode_utf8_replace raw) max_chars).
Proof.
  intros b64decode decode_utf8_replace max_chars Hmax. split; [| split].
  - intros name w c H. unfold fetch_readme in H.
    destruct (readme_of_outcome b64decode decode_utf8_replace max_chars
                (server w (map fst (exchanged w)) (readme_request name))) as [e | c0] eqn:Ho;
      simpl in H; [discriminate |].
    inversion H; subst c0. exact (readme_within_limit _ _ _ _ _ Ho Hmax).
  - intros self repos sched d reqs k v H Hget. unfold fetch_readmes in H.
    destruct (fetch_readmes_start self repos) as [e | g0] eqn:Hg0.
    { destruct sched; discriminate. }
    destruct (run b64decode decode_utf8_replace self max_chars g0 sched) as [g |] eqn:Hrun;
      [| discriminate].
    destruct (gather g) as [[e | results] |] eqn:Hg; try discriminate.
    inversion H; subst d reqs. apply get_of_pairs_in in Hget.
    assert (HF : Forall (task_within_limit max_chars) (tasks g)).
    { apply (run_within_limit _ _ _ _ _ _ _ Hrun).
      destruct (fetch_readmes_start_inr _ _ _ Hg0) as (_ & _ & Ht & _).
      rewrite Ht. apply Forall_forall. intros t Ht'. apply in_map_iff in Ht'.
      destruct Ht' as (repo & <- & _). exact I. }
    unfold gather in Hg. destruct (first_raised g); [discriminate |].
    destruct (all_returned (tasks g)) as [rs |] eqn:Hall; [| discriminate].
    inversion Hg; subst rs. apply all_returned_map in Hall. rewrite Hall in HF.
    rewrite Forall_forall in HF.
    apply (HF (Returned (k, v))); [apply in_map; exact Hget | exact Hmax].
  - intros st items content raw Hst H404 Hraw.
    exists (str_slice_to (decode_utf8_replace raw) max_chars).
    split; [| split; [| reflexivity]].
    + unfold readme_of_outcome, readme_try, raise_for_status.
      destruct (Z.eqb_spec st 404); [contradiction |].
      rewrite Hst. simpl. rewrite Hraw. reflexivity.
    + rewrite str_slice_to_length. destruct (Z.leb_spec 0 max_chars); lia.
Qed.

(** A decoded text of 1000 characters under a limit of 100 gives exactly 100. *)
Lemma readmes_are_cut_to_the_limit_witness :
  0 <= 100
  /\ exists c,
       readme_of_outcome id_b64decode id_decode 100
         (Response 200 (JsonObject None
            (Some (string_of_list_ascii (repeat "A"%char 1000))))) = inr c
       /\ Z.of_nat (String.length c) = 100.
Proof.
  assert (H : 0 <= 100) by lia. split; [exact H |].
  destruct (readmes_are_cut_to_the_limit id_b64decode id_decode 100 H) as (_ & _ & Hcut).
  destruct (Hcut 200 None (string_of_list_ascii (repeat "A"%char 1000))
              (list_byte_of_string (string_of_list_ascii (repeat "A"%char 1000))))
    as (c & Hc & Hlen & _).
  - reflexivity.
  - discriminate.
  - reflexivity.
  - exists c. split; [exact Hc |]. rewrite Hlen. vm_compute. reflexivity.
Defined.

(** ** The enrichment on a client that was not entered *)

Lemma run_idle
    (b64decode : string -> option (list Byte.byte))
    (decode_utf8_replace : list Byte.byte -> string)
    (self : AsyncGitHubClient) (max_chars : Z) (names : list string) :
  _client self = None ->
  forall (sched : list Event) (g g' : Gather),
    run b64decode decode_utf8_replace self max_chars g sched = Some g' ->
    Forall2 idle_task (tasks g) names ->
    Forall2 idle_task (tasks g') names
    /\ sent g' = sent g /\ first_raised g' = first_raised g.
Proof.
  intros Hnone.
  induction sched as [|ev sched IH]; intros g g' H HF; simpl in H.
  - inversion H; subst. auto.
  - destruct (estep b64decode decode_utf8_replace self max_chars g ev) as [g1 |] eqn:E;
      [| discriminate].
    assert (H1 : Forall2 idle_task (tasks g1) names
                 /\ sent g1 = sent g /\ first_raised g1 = first_raised g).
    { unfold estep in E. destruct ev as [i | i o].
      - destruct (nth_error (tasks g) i) as [[name | name | r | e] |] eqn:Hn; try discriminate.
        rewrite Hnone in E. inversion E; subst g1. simpl.
        split; [| auto].
        eapply Forall2_set_nth; [exact HF | exact Hn |].
        intros n [Hp | Hr]; [inversion Hp; subst; right; reflexivity | discriminate].
      - destruct (nth_error (tasks g) i) as [[name | name | r | e] |] eqn:Hn; try discriminate.
        exfalso. clear - HF Hn. revert i names HF Hn. generalize (tasks g) as ts.
        induction ts as [|t ts IHts]; intros i names HF Hn; [destruct i; discriminate |].
        inversion HF; subst. destruct i; simpl in Hn.
        + inversion Hn; subst t. destruct H1; discriminate.
        + eapply IHts; eauto. }
    destruct H1 as (HF1 & Hs1 & Hr1).
    destruct (IH _ _ H HF1) as (HF' & Hs' & Hr'). split; [exact HF' |].
    split; congruence.
Qed.

Lemma idle_returned (results : list (string * string)) (names : list string) :
  Forall2 idle_task (map Returned results) names ->
  results = map (fun n => (n, "")) names.
Proof.
  revert names. induction results as [|r results IH]; intros names H; inversion H; subst.
  - reflexivity.
  - simpl. f_equal; [| apply IH; assumption].
    destruct H2 as [Hp | Hr]; [discriminate | inversion Hr; reflexivity].
Qed.

Lemma run_start_all_idle
    (b64decode : string -> option (list Byte.byte))
    (decode_utf8_replace : list Byte.byte -> string)
    (self : AsyncGitHubClient) (max_chars : Z) (sem : Z) :
  _client self = None ->
  forall (rest done : list string),
    run b64decode decode_utf8_replace self max_chars
      {| sem_value := sem;
         tasks := map (fun n => Returned (n, "")) done ++ map Pending rest;
         first_raised := None;
         sent := [] |}
      (map Start (seq (length done) (length rest)))
    = Some {| sem_value := sem;
              tasks := map (fun n => Returned (n, "")) (done ++ rest);
              first_raised := None;
              sent := [] |}.
Proof.
  intros Hnone. induction rest as [|n rest IH]; intros done.
  - simpl. rewrite !app_nil_r. reflexivity.
  - cbn [length seq map run]. unfold estep. cbn [tasks].
    rewrite nth_error_app2 by (rewrite length_map; lia).
    rewrite length_map, Nat.sub_diag. cbn [nth_error]. rewrite Hnone.
    cbn [sem_value first_raised sent].
    assert (Hset : set_nth (length done) (Returned (n, ""))
                     (map (fun n0 => Returned (n0, "")) done ++ Pending n :: map Pending rest)
                   = map (fun n0 => Returned (n0, "")) (done ++ [n]) ++ map Pending rest).
    { clear. induction done as [|d done IHd]; simpl; [reflexivity |].
      rewrite IHd. reflexivity. }
    rewrite Hset.
    replace (S (length done)) with (length (done ++ [n]))
      by (rewrite length_app; simpl; lia).
    rewrite IH. rewrite <- app_assoc. reflexivity.
Qed.

(** X6. On a client whose context manager was not entered, and with a
    bound that is not negative, [fetch_readmes] does not raise as
    [search_repos] does: under every schedule it sends no request, and
    whenever it comes back it returns the mapping of every input identifier
    to the empty string; letting every task run once makes it come back.
    With a negative bound it raises the [ValueError] of the semaphore, at
    once and without a request. *)
Theorem fetch_readmes_without_client_is_silent :
  forall (b64decode : string -> option (list Byte.byte))
         (decode_utf8_replace : list Byte.byte -> string)
         (self : AsyncGitHubClient) (repos : list Repository) (max_chars : Z),
    _client self = None ->
    let all_empty := PyDict.of_pairs (map (fun repo => (full_name repo, "")) repos) in
    (0 <= max_concurrency self ->
     (forall sched r reqs,
         fetch_readmes b64decode decode_utf8_replace self repos max_chars sched
         = Some (r, reqs) ->
         r = inr all_empty /\ reqs = [])
     /\ fetch_readmes b64decode decode_utf8_replace self repos max_chars
          (map Start (seq 0 (length repos)))
        = Some (inr all_empty, []))
    /\ (max_concurrency self < 0 ->
        fetch_readmes b64decode decode_utf8_replace self repos max_chars []
        = Some (inl (ValueError "Semaphore initial value must be >= 0"), [])
        /\ forall sched r reqs,
             fetch_readmes b64decode decode_utf8_replace self repos max_chars sched
             = Some (r, reqs) ->
             r = inl (ValueError "Semaphore initial value must be >= 0")
             /\ reqs = [] /\ sched = []).
Proof.
  intros b64decode decode_utf8_replace self repos max_chars Hnone all_empty.
  split.
  - intros Hbound.
    assert (Hstart : fetch_readmes_start self repos
                     = inr {| sem_value := max_concurrency self;
                              tasks := map (fun repo => Pending (full_name repo)) repos;
                              first_raised := None;
                              sent := [] |}).
    { unfold fetch_readmes_start.
      destruct (Z.ltb_spec (max_concurrency self) 0); [lia | reflexivity]. }
    assert (Hidle0 : Forall2 idle_task (map (fun repo => Pending (full_name repo)) repos)
                       (map full_name repos)).
    { clear. induction repos; simpl; constructor; [left; reflexivity | assumption]. }
    split.
    + intros sched r reqs H. unfold fetch_readmes in H. rewrite Hstart in H.
      match type of H with
      | match run _ _ _ _ ?g0 _ with _ => _ end = _ =>
          destruct (run b64decode decode_utf8_replace self max_chars g0 sched)
            as [g |] eqn:Hrun
      end; [| discriminate].
      destruct (run_idle _ _ _ _ _ Hnone _ _ _ Hrun Hidle0) as (Hidle & Hsent & Hraised).
      simpl in Hsent, Hraised.
      unfold gather in H. rewrite Hraised in H.
      destruct (all_returned (tasks g)) as [results |] eqn:Hall; [| discriminate].
      inversion H; subst r reqs. split; [| exact Hsent].
      apply all_returned_map in Hall. rewrite Hall in Hidle.
      apply idle_returned in Hidle. subst results.
      unfold all_empty. rewrite map_map. reflexivity.
    + unfold fetch_readmes. rewrite Hstart.
      pose proof (run_start_all_idle b64decode decode_utf8_replace self max_chars
                    (max_concurrency self) Hnone (map full_name repos) []) as Hrun.
      simpl app in Hrun. simpl length in Hrun. rewrite length_map, map_map in Hrun.
      rewrite Hrun. unfold gather. cbn [first_raised tasks sent].
      assert (Hall : all_returned (map (fun n => Returned (n, "")) (map full_name repos))
                     = Some (map (fun n => (n, "")) (map full_name repos))).
      { apply all_returned_map. rewrite !map_map. reflexivity. }
      rewrite Hall. unfold all_empty. rewrite !map_map. reflexivity.
  - intros Hneg. apply Z.ltb_lt in Hneg. unfold fetch_readmes, fetch_readmes_start.
    rewrite Hneg. split; [reflexivity |].
    intros sched r reqs H. destruct sched; [| discriminate].
    inversion H. auto.
Qed.

Lemma fetch_readmes_without_client_is_silent_witness :
  _client (AsyncGitHubClient_init "t" 10) = None
  /\ fetch_readmes id_b64decode id_decode (AsyncGitHubClient_init "t" 10) two_repos 500
       [Start 1; Start 0]
     = Some (inr [("owner/a", ""); ("owner/b", "")], [])
  /\ fetch_readmes id_b64decode id_decode (AsyncGitHubClient_init "t" (-1)) two_repos 500 []
     = Some (inl (ValueError "Semaphore initial value must be >= 0"), []).
Proof.
  assert (H1 : _client (AsyncGitHubClient_init "t" 10) = None) by reflexivity.
  assert (H2 : 0 <= max_concurrency (AsyncGitHubClient_init "t" 10)) by (simpl; lia).
  assert (H3 : _client (AsyncGitHubClient_init "t" (-1)) = None) by reflexivity.
  assert (H4 : max_concurrency (AsyncGitHubClient_init "t" (-1)) < 0) by (simpl; lia).
  split; [exact H1 |].
  destruct (fetch_readmes_without_client_is_silent id_b64decode id_decode
              (AsyncGitHubClient_init "t" 10) two_repos 500 H1) as [Hpos _].
  destruct (Hpos H2) as [Hall _].
  destruct (fetch_readmes_without_client_is_silent id_b64decode id_decode
              (AsyncGitHubClient_init "t" (-1)) two_repos 500 H3) as [_ Hneg].
  destruct (Hneg H4) as [Hraise _].
  split; [| exact Hraise].
  destruct (fetch_readmes id_b64decode id_decode (AsyncGitHubClient_init "t" 10)
              two_repos 500 [Start 1; Start 0]) as [[r reqs] |] eqn:E.
  - destruct (Hall _ _ _ E) as [-> ->]. reflexivity.
  - vm_compute in E. discriminate.
Defined.

(** ** The requests and the order of the results of the enrichment *)

Section EnrichmentRequests.

Variable b64decode : string -> option (list Byte.byte).
Variable decode_utf8_replace : list Byte.byte -> string.
Variable self : AsyncGitHubClient.
Variable max_chars : Z.

Let step := estep b64decode decode_utf8_replace self max_chars.
Let runs := run b64decode decode_utf8_replace self max_chars.

(** A task that was pending before a step was pending with the same name
    after it only if the step was not about it. *)
Lemma estep_pending_before (g g' : Gather) (ev : Event) (j : nat) (name : string) :
  step g ev = Some g' ->
  nth_error (tasks g') j = Some (Pending name) ->
  nth_error (tasks g) j = Some (Pending name).
Proof.
  intros H Hj. destruct (estep_task _ _ _ _ _ _ _ H) as (i & n & Ht & _ & Hn).
  rewrite Ht, nth_error_set_nth in Hj.
  destruct (Nat.eqb_spec i j) as [-> | Hne]; [| exact Hj].
  rewrite Hn in Hj. exfalso. unfold task_after in Hj.
  destruct ev; [destruct (_client self) |
                destruct (readme_of_outcome b64decode decode_utf8_replace max_chars o)];
    discriminate.
Qed.

Lemma run_started_pending :
  forall (sched : list Event) (g g' : Gather) (j : nat),
    runs g sched = Some g' ->
    In j (started sched) ->
    exists name, nth_error (tasks g) j = Some (Pending name).
Proof.
  unfold runs.
  induction sched as [|ev sched IH]; intros g g' j H Hin; simpl in H; [destruct Hin |].
  destruct (estep b64decode decode_utf8_replace self max_chars g ev) as [g1 |] eqn:E;
    [| discriminate].
  simpl in Hin. apply in_app_or in Hin. destruct Hin as [Hin | Hin].
  - destruct ev as [i | i o]; [| destruct Hin].
    destruct Hin as [<- | []].
    destruct (estep_task _ _ _ _ _ _ _ E) as (i0 & name & _ & Hev & Hn).
    inversion Hev; subst i0. exists name. exact Hn.
  - destruct (IH _ _ _ H Hin) as [name Hn]. exists name.
    eapply estep_pending_before; eauto.
Qed.

Lemma task_for_nth (ts : list Task) (names : list string) (i : nat) (name : string) :
  Forall2 task_for ts names ->
  nth_error ts i = Some (Pending name) ->
  nth i names "" = name /\ (i < length names)%nat.
Proof.
  revert i names. induction ts as [|t ts IH]; intros i names HF Hn; [destruct i; discriminate |].
  inversion HF; subst. destruct i; simpl in *.
  - inversion Hn; subst t. simpl in H1. split; [auto | lia].
  - destruct (IH _ _ H3 Hn). split; [auto | lia].
Qed.

Lemma run_sent (names : list string) :
  _client self <> None ->
  forall (sched : list Event) (g g' : Gather),
    runs g sched = Some g' ->
    Forall2 task_for (tasks g) names ->
    sent g' = sent g ++ map (fun i => readme_request (nth i names "")) (started sched)
    /\ NoDup (started sched)
    /\ (forall i, In i (started sched) -> (i < length names)%nat).
Proof.
  unfold runs. intros Hclient.
  induction sched as [|ev sched IH]; intros g g' H HF; simpl in H.
  - inversion H; subst. simpl. rewrite app_nil_r.
    split; [reflexivity |]. split; [constructor | intros i []].
  - destruct (estep b64decode decode_utf8_replace self max_chars g ev) as [g1 |] eqn:E;
      [| discriminate].
    destruct (estep_tasks_for _ _ _ _ _ _ _ _ E HF) as [HF1 _].
    destruct (IH _ _ H HF1) as (Hsent & Hnd & Hlt).
    destruct ev as [i | i o].
    + pose proof E as E'. unfold estep in E'.
      destruct (nth_error (tasks g) i) as [[name | name | r | e] |] eqn:Hn; try discriminate.
      destruct (_client self) as [c |]; [| contradiction].
      destruct (0 <? sem_value g); [| discriminate]. inversion E'; subst g1.
      destruct (task_for_nth _ _ _ _ HF Hn) as [Hname Hi].
      cbn [sent tasks] in *. cbn [started flat_map app]. fold (started sched).
      split; [| split].
      * rewrite Hsent, <- app_assoc. simpl. rewrite Hname. reflexivity.
      * constructor; [| exact Hnd]. intros Hin.
        destruct (run_started_pending _ _ _ _ H Hin) as [name' Hp].
        cbn [tasks] in Hp. rewrite nth_error_set_nth, Nat.eqb_refl, Hn in Hp.
        discriminate.
      * intros j [<- | Hj]; [exact Hi | apply Hlt; exact Hj].
    + assert (Hs : sent g1 = sent g).
      { unfold estep in E.
        destruct (nth_error (tasks g) i) as [[name | name | r | e] |]; try discriminate.
        destruct (readme_of_outcome b64decode decode_utf8_replace max_chars o);
          inversion E; reflexivity. }
      cbn [started flat_map app]. fold (started sched).
      split; [rewrite Hsent, Hs; reflexivity |]. split; assumption.
Qed.

End EnrichmentRequests.

Lemma NoDup_below_length (l : list nat) (n : nat) :
  NoDup l -> (forall i, In i l -> (i < n)%nat) -> (length l <= n)%nat.
Proof.
  intros Hnd Hlt. rewrite <- (length_seq n 0).
  apply NoDup_incl_length; [exact Hnd |].
  intros i Hi. apply in_seq. specialize (Hlt i Hi). lia.
Qed.

(** X7. On an entered client, whatever the schedule and the answers, the
    requests that [fetch_readmes] has sent are the readme requests of the
    repositories whose tasks were started, in the order of the starts; no
    task is started twice, so no repository of the input list is asked for
    more than once and there are never more requests than repositories. *)
Theorem fetch_readmes_sends_one_request_per_repository :
  forall (b64decode : string -> option (list Byte.byte))
         (decode_utf8_replace : list Byte.byte -> string)
         (self : AsyncGitHubClient) (repos : list Repository) (max_chars : Z)
         (sched : list Event) (g0 g : Gather),
    _client self <> None ->
    fetch_readmes_start self repos = inr g0 ->
    run b64decode decode_utf8_replace self max_chars g0 sched = Some g ->
    sent g = map (fun i => readme_request (nth i (map full_name repos) ""))
               (started sched)
    /\ NoDup (started sched)
    /\ (forall i, In i (started sched) -> (i < length repos)%nat)
    /\ (length (sent g) <= length repos)%nat.
Proof.
  intros b64decode decode_utf8_replace self repos max_chars sched g0 g Hclient Hstart Hrun.
  destruct (fetch_readmes_start_inr _ _ _ Hstart) as (_ & _ & _ & _ & Hs0 & _ & _ & _ & HF0).
  destruct (run_sent _ _ _ _ _ Hclient _ _ _ Hrun HF0) as (Hsent & Hnd & Hlt).
  rewrite Hs0 in Hsent. simpl in Hsent. rewrite length_map in Hlt.
  split; [exact Hsent |]. split; [exact Hnd |]. split; [exact Hlt |].
  rewrite Hsent, length_map. apply NoDup_below_length; assumption.
Qed.

Lemma fetch_readmes_sends_one_request_per_repository_witness :
  exists g0 g,
    _client entered_client <> None
    /\ fetch_readmes_start entered_client two_repos = inr g0
    /\ run id_b64decode id_decode entered_client 500 g0 two_failures = Some g
    /\ sent g = [readme_request "owner/a"; readme_request "owner/b"]
    /\ (length (sent g) <= length two_repos)%nat.
Proof.
  assert (Hc : _client entered_client <> None) by discriminate.
  destruct (fetch_readmes_start entered_client two_repos) as [e | g0] eqn:H0;
    [vm_compute in H0; discriminate |].
  destruct (run id_b64decode id_decode entered_client 500 g0 two_failures) as [g |] eqn:Hrun.
  - destruct (fetch_readmes_sends_one_request_per_repository _ _ _ _ _ _ _ _ Hc H0 Hrun)
      as (Hsent & _ & _ & Hlen).
    exists g0, g. split; [exact Hc |]. split; [reflexivity |]. split; [exact Hrun |].
    split; [rewrite Hsent; reflexivity | exact Hlen].
  - exfalso. vm_compute in H0. inversion H0; subst g0. vm_compute in Hrun. discriminate.
Defined.

(** X8. The results of [fetch_readmes] follow the input list, not the order
    in which the answers arrive: when the call returns, there is one result
    per repository, in the order of the list, and the result at the position
    of a repository is its identifier with the text made of the answer to its
    own request. *)
Theorem fetch_readmes_results_follow_input_order :
  forall (b64decode : string -> option (list Byte.byte))
         (decode_utf8_replace : list Byte.byte -> string)
         (self : AsyncGitHubClient) (repos : list Repository) (max_chars : Z)
         (sched : list Event) (g0 g : Gather) (results : list (string * string)),
    fetch_readmes_start self repos = inr g0 ->
    run b64decode decode_utf8_replace self max_chars g0 sched = Some g ->
    gather g = Some (inr results) ->
    map fst results = map full_name repos
    /\ forall i o, In (Complete i o) sched ->
         exists repo c,
           nth_error repos i = Some repo
           /\ readme_of_outcome b64decode decode_utf8_replace max_chars o = inr c
           /\ nth_error results i = Some (full_name repo, c).
Proof.
  intros b64decode decode_utf8_replace self repos max_chars sched g0 g results
         Hstart Hrun Hg.
  destruct (fetch_readmes_start_inr _ _ _ Hstart) as (_ & _ & _ & _ & _ & _ & _ & _ & HF0).
  destruct (run_tasks_for _ _ _ _ _ _ _ _ Hrun HF0) as [HF _].
  unfold gather in Hg. destruct (first_raised g); [discriminate |].
  destruct (all_returned (tasks g)) as [rs |] eqn:Hall; [| discriminate].
  inversion Hg; subst rs. apply all_returned_map in Hall.
  rewrite Hall in HF. split; [apply returned_names; exact HF |].
  intros i o Hin.
  destruct (run_complete _ _ _ _ _ _ _ _ _ _ Hrun HF0 Hin) as (name & Hname & Htask).
  rewrite nth_error_map in Hname.
  destruct (nth_error repos i) as [repo |] eqn:Hrepo; [| discriminate].
  simpl in Hname. inversion Hname; subst name.
  rewrite Hall, nth_error_map in Htask. unfold task_after in Htask.
  destruct (nth_error results i) as [r |] eqn:Hr; [| discriminate].
  simpl in Htask.
  destruct (readme_of_outcome b64decode decode_utf8_replace max_chars o) as [e | c];
    [discriminate |].
  inversion Htask; subst r. exists repo, c. auto.
Qed.

Lemma fetch_readmes_results_follow_input_order_witness :
  exists g0 g results,
    fetch_readmes_start entered_client two_repos = inr g0
    /\ run id_b64decode id_decode entered_client 500 g0 two_failures = Some g
    /\ gather g = Some (inr results)
    /\ map fst results = ["owner/a"; "owner/b"].
Proof.
  destruct (fetch_readmes_start entered_client two_repos) as [e | g0] eqn:H0;
    [vm_compute in H0; discriminate |].
  destruct (run id_b64decode id_decode entered_client 500 g0 two_failures) as [g |] eqn:Hrun;
    [| exfalso; vm_compute in H0; inversion H0; subst g0; vm_compute in Hrun; discriminate].
  destruct (gather g) as [[e | results] |] eqn:Hg;
    try (exfalso; vm_compute in H0; inversion H0; subst g0;
         vm_compute in Hrun; inversion Hrun; subst g; vm_compute in Hg; discriminate).
  destruct (fetch_readmes_results_follow_input_order _ _ _ _ _ _ _ _ _ H0 Hrun Hg)
    as [Hnames _].
  exists g0, g, results. split; [reflexivity |]. split; [exact Hrun |].
  split; [exact Hg |]. rewrite Hnames. reflexivity.
Defined.

(** ** Marking and pruning *)

Lemma set_same_twice {V : Type} (d : PyDict.t V) (k : string) (v v' : V) :
  PyDict.set (PyDict.set d k v) k v' = PyDict.set d k v'.
Proof.
  induction d as [|[k0 v0] d IH]; simpl.
  - rewrite String.eqb_refl. reflexivity.
  - destruct (String.eqb k0 k) eqn:E; simpl; rewrite E; [reflexivity | rewrite IH; reflexivity].
Qed.

Lemma keys_set_present {V : Type} (d : PyDict.t V) (k : string) (v : V) :
  In k (PyDict.keys d) -> PyDict.keys (PyDict.set d k v) = PyDict.keys d.
Proof.
  induction d as [|[k0 v0] d IH]; simpl; intros H; [destruct H |].
  destruct (String.eqb_spec k0 k) as [-> | Hne]; [reflexivity |].
  simpl. f_equal. apply IH. destruct H as [H | H]; [contradiction | exact H].
Qed.

Lemma keys_set_nodup {V : Type} (d : PyDict.t V) (k : string) (v : V) :
  NoDup (PyDict.keys d) -> NoDup (PyDict.keys (PyDict.set d k v)).
Proof.
  intros Hnd. destruct (in_dec string_dec k (PyDict.keys d)) as [Hin | Hnin].
  - rewrite keys_set_present by exact Hin. exact Hnd.
  - rewrite PyDictFacts.set_fresh by (apply PyDictFacts.get_None_not_in; exact Hnin).
    unfold PyDict.keys in *. rewrite map_app. simpl.
    apply NoDup_app_remove_l with (l := []). simpl.
    apply Permutation_NoDup with (l := k :: map fst d).
    + apply Permutation_cons_append.
    + constructor; assumption.
Qed.

(** X9. [mark_seen] and [is_seen]: after marking, the repository is seen and
    carries today's date; no other identifier changes; a repository that was
    not in the cache goes to the end and one that was keeps its place, so the
    keys stay distinct; marking twice on the same day is marking once. *)
Theorem mark_seen_then_is_seen :
  forall (isoformat : Z -> string) (today : Z) (self : RepoCache) (name : string),
    let marked := mark_seen isoformat today self name in
    is_seen marked name = true
    /\ PyDict.get (_data marked) name = Some (isoformat today)
    /\ (forall other, other <> name ->
          PyDict.get (_data marked) other = PyDict.get (_data self) other
          /\ is_seen marked other = is_seen self other)
    /\ (is_seen self name = false -> _data marked = _data self ++ [(name, isoformat today)])
    /\ (is_seen self name = true -> PyDict.keys (_data marked) = PyDict.keys (_data self))
    /\ (NoDup (PyDict.keys (_data self)) -> NoDup (PyDict.keys (_data marked)))
    /\ mark_seen isoformat today marked name = marked
    /\ cache_path marked = cache_path self /\ cache_days marked = cache_days self.
Proof.
  intros isoformat today self name marked. unfold marked, mark_seen, is_seen, PyDict.contains.
  cbn [_data cache_path cache_days].
  rewrite PyDictFacts.get_set_eq.
  split; [reflexivity |]. split; [reflexivity |]. split; [| split; [| split; [| split; [| split]]]].
  - intros other Hne. rewrite PyDictFacts.get_set_ne by congruence. auto.
  - intros Hunseen. apply PyDictFacts.set_fresh.
    destruct (PyDict.get (_data self) name); [discriminate | reflexivity].
  - intros Hseen. apply keys_set_present.
    apply PyDictFacts.contains_true_in. exact Hseen.
  - apply keys_set_nodup.
  - rewrite set_same_twice. reflexivity.
  - auto.
Qed.

Lemma filter_filter_same {A : Type} (p : A -> bool) (l : list A) :
  filter p (filter p l) = filter p l.
Proof.
  induction l as [|x l IH]; simpl; [reflexivity |].
  destruct (p x) eqn:E; simpl; [rewrite E, IH; reflexivity | exact IH].
Qed.

(** X10. [prune] never adds or changes an entry and is idempotent: when it
    returns, every entry of the pruned cache was in the cache with the same
    date, in the same order, the keys are still distinct, and pruning the
    result again on the same day returns it unchanged. *)
Theorem prune_is_idempotent :
  forall (fromisoformat : string -> option Z) (today : Z) (self pruned : RepoCache),
    NoDup (PyDict.keys (_data self)) ->
    prune fromisoformat today self = inr pruned ->
    prune fromisoformat today pruned = inr pruned
    /\ NoDup (PyDict.keys (_data pruned))
    /\ (forall name s, PyDict.get (_data pruned) name = Some s ->
                       PyDict.get (_data self) name = Some s)
    /\ (forall name, is_seen pruned name = true -> is_seen self name = true)
    /\ (length (_data pruned) <= length (_data self))%nat.
Proof.
  intros fromisoformat today self pruned Hnd H.
  destruct (prune_inr _ _ _ _ Hnd H) as (Hp & Hcut & Hparse).
  set (cutoff := today - cache_days self) in *.
  assert (Hnd' : NoDup (PyDict.keys (_data pruned))).
  { rewrite Hp. cbn [_data]. apply keys_filter_nodup. exact Hnd. }
  assert (Hget : forall name s, PyDict.get (_data pruned) name = Some s ->
                                PyDict.get (_data self) name = Some s).
  { intros name s Hs. rewrite Hp in Hs. cbn [_data] in Hs.
    rewrite get_filter_nodup in Hs by exact Hnd.
    destruct (PyDict.get (_data self) name) as [s0 |]; [| discriminate].
    destruct (not_expired fromisoformat cutoff (name, s0)); [exact Hs | discriminate]. }
  split; [| split; [exact Hnd' | split; [exact Hget | split]]].
  - unfold prune. rewrite Hp at 1. cbn [cache_days]. rewrite Hcut. fold cutoff.
    rewrite prune_entries_filter.
    + rewrite Hp. cbn [_data cache_path cache_days]. unfold PyDict.items.
      rewrite filter_filter_same.
      rewrite PyDictFacts.of_pairs_nodup by (apply (keys_filter_nodup _ _ Hnd)).
      reflexivity.
    + intros name s Hin. rewrite Hp in Hin. cbn [_data] in Hin. unfold PyDict.items in Hin.
      apply filter_In in Hin. destruct Hin as [Hin _]. eapply Hparse. exact Hin.
  - intros name. unfold is_seen, PyDict.contains.
    destruct (PyDict.get (_data pruned) name) as [s |] eqn:Hs; [| discriminate].
    rewrite (Hget _ _ Hs). reflexivity.
  - rewrite Hp. cbn [_data]. apply filter_length_le.
Qed.

Lemma prune_is_idempotent_witness :
  exists pruned,
    NoDup (PyDict.keys (_data boundary_cache))
    /\ prune date_fromisoformat today_2025_12_10 boundary_cache = inr pruned
    /\ prune date_fromisoformat today_2025_12_10 pruned = inr pruned.
Proof.
  assert (Hnd : NoDup (PyDict.keys (_data boundary_cache))).
  { simpl. repeat constructor; simpl; intuition discriminate. }
  destruct (prune date_fromisoformat today_2025_12_10 boundary_cache) as [e | pruned] eqn:E;
    [vm_compute in E; discriminate |].
  destruct (prune_is_idempotent _ _ _ _ Hnd E) as [Hidem _].
  exists pruned. auto.
Defined.

(** X11. A repository marked today survives the pruning of the same day
    exactly when the window is not negative: with a date that
    [fromisoformat] reads back from [isoformat], when [prune] returns on the
    marked cache, the repository is still seen if and only if
    [cache_days >= 0], and then it carries today's date. *)
Theorem marked_today_survives_prune :
  forall (isoformat : Z -> string) (fromisoformat : string -> option Z) (today : Z)
         (self pruned : RepoCache) (name : string),
    NoDup (PyDict.keys (_data self)) ->
    fromisoformat (isoformat today) = Some today ->
    prune fromisoformat today (mark_seen isoformat today self name) = inr pruned ->
    (is_seen pruned name = true <-> 0 <= cache_days self)
    /\ (0 <= cache_days self ->
        PyDict.get (_data pruned) name = Some (isoformat today)).
Proof.
  intros isoformat fromisoformat today self pruned name Hnd Hround H.
  assert (Hnd' : NoDup (PyDict.keys (_data (mark_seen isoformat today self name)))).
  { unfold mark_seen. cbn [_data]. apply keys_set_nodup. exact Hnd. }
  destruct (prune_inr _ _ _ _ Hnd' H) as (Hp & _ & _).
  assert (Hget : PyDict.get (_data pruned) name
                 = if 0 <=? cache_days self then Some (isoformat today) else None).
  { rewrite Hp. cbn [_data]. rewrite get_filter_nodup by exact Hnd'.
    unfold mark_seen. cbn [_data cache_days]. rewrite PyDictFacts.get_set_eq.
    unfold not_expired. cbn [snd]. rewrite Hround.
    destruct (Z.leb_spec (today - cache_days self) today), (Z.leb_spec 0 (cache_days self));
      try reflexivity; lia. }
  unfold is_seen, PyDict.contains. rewrite Hget.
  destruct (Z.leb_spec 0 (cache_days self)); split; try split; intros;
    try reflexivity; try lia; try discriminate.
Qed.

Lemma marked_today_survives_prune_witness :
  exists pruned,
    NoDup (PyDict.keys (_data boundary_cache))
    /\ date_fromisoformat (date_isoformat today_2025_12_10) = Some today_2025_12_10
    /\ prune date_fromisoformat today_2025_12_10
         (mark_seen date_isoformat today_2025_12_10 boundary_cache "owner/new") = inr pruned
    /\ is_seen pruned "owner/new" = true
    /\ _data pruned = [("edge/repo", "2025-11-10"); ("recent/repo", "2025-12-05");
                       ("owner/new", "2025-12-10")].
Proof.
  assert (Hnd : NoDup (PyDict.keys (_data boundary_cache))).
  { simpl. repeat constructor; simpl; intuition discriminate. }
  assert (Hround : date_fromisoformat (date_isoformat today_2025_12_10)
                   = Some today_2025_12_10) by (vm_compute; reflexivity).
  destruct (prune date_fromisoformat today_2025_12_10
              (mark_seen date_isoformat today_2025_12_10 boundary_cache "owner/new"))
    as [e | pruned] eqn:E; [vm_compute in E; discriminate |].
  destruct (marked_today_survives_prune _ _ _ _ _ _ Hnd Hround E) as [Hseen _].
  exists pruned. split; [exact Hnd |]. split; [exact Hround |]. split; [reflexivity |].
  split; [apply Hseen; simpl; lia |].
  vm_compute in E. inversion E. reflexivity.
Defined.

(** ** Saving and loading *)

Lemma all_chars_app (p : ascii -> bool) (a b : string) :
  all_chars p (a ++ b)%string = all_chars p a && all_chars p b.
Proof.
  induction a as [|c a IH]; [reflexivity |]. cbn [append all_chars].
  rewrite IH. apply andb_assoc.
Qed.

Lemma all_chars_join (p : ascii -> bool) (sep : string) (l : list string) :
  all_chars p sep = true -> (forall x, In x l -> all_chars p x = true) ->
  all_chars p (join sep l) = true.
Proof.
  intros Hsep. induction l as [|x l IH]; intros Hl; [reflexivity |].
  cbn [join]. destruct l as [|y l]; [apply Hl; left; reflexivity |].
  rewrite !all_chars_app, Hsep, (Hl x (or_introl eq_refl)). cbn [andb].
  apply IH. intros z Hz. apply Hl. right. exact Hz.
Qed.

(** A dump is plain text: ASCII without carriage returns. *)
Lemma json_escape_char_plain (c : ascii) :
  all_chars is_ascii (json_escape_char c) = true
  /\ all_chars not_cr (json_escape_char c) = true.
Proof. each_ascii c; vm_compute; split; reflexivity. Qed.

Lemma json_dumps_plain (p : ascii -> bool) (d : PyDict.t string) :
  (forall c, all_chars p (json_escape_char c) = true) ->
  (forall c, In c (list_ascii_of_string "{}: ,") -> p c = true) ->
  p (ascii_of_nat 10) = true -> p (ascii_of_nat 34) = true ->
  all_chars p (json_dumps d) = true.
Proof.
  intros Hesc Hpunct Hnl Hq.
  assert (Hbrace1 : p "{"%char = true) by (apply Hpunct; simpl; auto).
  assert (Hbrace2 : p "}"%char = true) by (apply Hpunct; simpl; auto 6).
  assert (Hcolon : p ":"%char = true) by (apply Hpunct; simpl; auto 6).
  assert (Hspace : p " "%char = true) by (apply Hpunct; simpl; auto 6).
  assert (Hcomma : p ","%char = true) by (apply Hpunct; simpl; auto 6).
  assert (Hescape : forall s, all_chars p (json_escape s) = true).
  { induction s as [|c s IH]; [reflexivity |]. cbn [json_escape].
    rewrite all_chars_app, Hesc, IH. reflexivity. }
  assert (Hstring : forall s, all_chars p (json_string s) = true).
  { intros s. unfold json_string, dquote. rewrite !all_chars_app, Hescape.
    cbn [all_chars]. rewrite Hq. reflexivity. }
  unfold json_dumps, PyDict.items. destruct d as [|kv d].
  - cbn [all_chars]. rewrite Hbrace1, Hbrace2. reflexivity.
  - unfold newline. rewrite !all_chars_app. cbn [all_chars].
    rewrite Hbrace1, Hbrace2, Hnl. cbn [andb]. rewrite andb_true_r.
    apply all_chars_join.
    + cbn [append all_chars]. rewrite Hcomma, Hnl. reflexivity.
    + intros x Hx. apply in_map_iff in Hx. destruct Hx as (e & <- & _).
      rewrite !all_chars_app, !Hstring. cbn [all_chars].
      rewrite Hspace, Hcolon. reflexivity.
Qed.

Lemma universal_newlines_no_cr (s : string) :
  no_cr s = true -> universal_newlines s = s.
Proof.
  unfold no_cr. induction s as [|c s IH]; [reflexivity |].
  cbn [all_chars universal_newlines]. intros H.
  apply andb_true_iff in H. destruct H as [Hc Hs].
  unfold not_cr in Hc. apply negb_true_iff in Hc. rewrite Hc, (IH Hs). reflexivity.
Qed.

(** What [read_text] gives back of a dump, under a codec that reads ASCII
    as it is. *)
Lemma read_text_of_dump (decode : string -> option string) (d : PyDict.t string) :
  (forall s, all_ascii s = true -> decode s = Some s) ->
  read_text decode (json_dumps d) = inr (json_dumps d).
Proof.
  intros Hcodec. unfold read_text. rewrite Hcodec.
  - rewrite universal_newlines_no_cr; [reflexivity |].
    apply json_dumps_plain; try reflexivity.
    + intros c. apply json_escape_char_plain.
    + simpl. intros c Hc. repeat (destruct Hc as [<- | Hc]; [reflexivity |]). destruct Hc.
  - apply json_dumps_plain; try reflexivity.
    + intros c. apply json_escape_char_plain.
    + simpl. intros c Hc. repeat (destruct Hc as [<- | Hc]; [reflexivity |]). destruct Hc.
Qed.

(** X12. What [save] writes, [__init__] reads back: under a codec that
    reads ASCII as it is (the dump is ASCII, without carriage returns), if
    [json.loads] inverts [json.dumps] on the mapping of the cache, a cache
    built from the file after [save] holds the same mapping, whatever the
    file held before. And if the save is cut between the truncation and the
    write, and [json.loads] rejects the empty text, the next cache starts
    empty. *)
Theorem save_then_load_round_trip :
  forall (decode : string -> option string)
         (json_loads : string -> Exn + PyDict.t string) (self : RepoCache)
         (fs : FS) (days : Z),
    (forall s, all_ascii s = true -> decode s = Some s) ->
    json_loads (json_dumps (_data self)) = inr (_data self) ->
    RepoCache_init decode json_loads (save self fs) (cache_path self) days
    = inr {| cache_path := cache_path self; cache_days := days; _data := _data self |}
    /\ (json_loads "" = inl JSONDecodeError ->
        RepoCache_init decode json_loads (save_interrupted self fs 1)
          (cache_path self) days
        = inr {| cache_path := cache_path self; cache_days := days;
                 _data := PyDict.empty |}).
Proof.
  intros decode json_loads self fs days Hcodec Hround. unfold RepoCache_init. split.
  - assert (Hfile : PyDict.get (save self fs) (cache_path self)
                    = Some (json_dumps (_data self))).
    { unfold save, save_ops, write_text. simpl.
      rewrite PyDictFacts.get_set_eq, PyDictFacts.get_set_eq. reflexivity. }
    rewrite Hfile, (read_text_of_dump decode _ Hcodec), Hround. reflexivity.
  - intros Hempty.
    assert (Hfile : PyDict.get (save_interrupted self fs 1) (cache_path self) = Some "").
    { unfold save_interrupted, save_ops, write_text. simpl. apply PyDictFacts.get_set_eq. }
    rewrite Hfile. unfold read_text. rewrite (Hcodec "" eq_refl). cbn [universal_newlines].
    rewrite Hempty. reflexivity.
Qed.

Lemma ascii_codec_reads_ascii (s : string) : all_ascii s = true -> ascii_codec s = Some s.
Proof. intros H. unfold ascii_codec. rewrite H. reflexivity. Qed.

Lemma save_then_load_round_trip_witness :
  json_loads_strings (json_dumps (_data awkward_cache)) = inr (_data awkward_cache)
  /\ RepoCache_init ascii_codec json_loads_strings (save awkward_cache old_fs)
       (cache_path awkward_cache) 7
     = inr {| cache_path := "seen_repos.json"; cache_days := 7;
              _data := _data awkward_cache |}
  /\ RepoCache_init ascii_codec json_loads_strings (save_interrupted awkward_cache old_fs 1)
       (cache_path awkward_cache) 7
     = inr {| cache_path := "seen_repos.json"; cache_days := 7; _data := PyDict.empty |}.
Proof.
  assert (H : json_loads_strings (json_dumps (_data awkward_cache))
              = inr (_data awkward_cache)) by (vm_compute; reflexivity).
  destruct (save_then_load_round_trip ascii_codec json_loads_strings awkward_cache old_fs 7
              ascii_codec_reads_ascii H) as [Hload Hcut].
  split; [exact H |]. split; [exact Hload |]. apply Hcut. reflexivity.
Defined.

(** ** Posting to Discord *)

Lemma chunks_concat_any {A : Type} (size : nat) (c : nat) :
  forall l : list A,
    (length l <= c * size)%nat ->
    concat (map (fun k => firstn size (skipn (k * size) l)) (seq 0 c)) = l.
Proof.
  induction c as [|c IH]; intros l Hl.
  - destruct l; [reflexivity | simpl in Hl; lia].
  - rewrite <- cons_seq, <- seq_shift, map_cons, map_map. cbn [concat].
    rewrite (map_ext _ (fun k => firstn size (skipn (k * size) (skipn size l)))).
    + rewrite IH; [apply firstn_skipn | rewrite length_skipn; lia].
    + intros k. rewrite skipn_skipn. f_equal. f_equal. lia.
Qed.

Lemma batches_of_eq {A : Type} (l : list A) (size : nat) :
  batches_of l size
  = map (fun k => firstn size (skipn (k * size) l))
        (seq 0 ((length l + size - 1) / size)).
Proof.
  unfold batches_of, range_step, slice. rewrite map_map.
  apply map_ext. intros k. f_equal. lia.
Qed.

Lemma ceil_bounds (n size : nat) :
  (0 < size)%nat ->
  (n <= (n + size - 1) / size * size /\ (n + size - 1) / size * size < n + size)%nat.
Proof.
  intros Hs.
  pose proof (Nat.div_mod_eq (n + size - 1) size).
  pose proof (Nat.mod_upper_bound (n + size - 1) size).
  nia.
Qed.

Lemma batches_of_concat {A : Type} (l : list A) (size : nat) :
  (0 < size)%nat -> concat (batches_of l size) = l.
Proof.
  intros Hs. rewrite batches_of_eq. apply chunks_concat_any.
  pose proof (ceil_bounds (length l) size Hs). lia.
Qed.

Lemma batches_of_sizes {A : Type} (l : list A) (size : nat) (batch : list A) :
  (0 < size)%nat -> In batch (batches_of l size) ->
  (1 <= length batch <= size)%nat.
Proof.
  intros Hs Hin. rewrite batches_of_eq in Hin. apply in_map_iff in Hin.
  destruct Hin as (k & <- & Hk). apply in_seq in Hk.
  pose proof (ceil_bounds (length l) size Hs).
  rewrite length_firstn, length_skipn. nia.
Qed.

Lemma post_batches_spec (webhook_url : string)
    (l : list (Repository * EvaluationResult)) (size : nat) :
  forall (starts : list nat) (dw : Discord),
    let out := post_batches webhook_url l size starts dw in
    exists k : nat,
      (k <= length starts)%nat
      /\ posted (snd out)
         = posted dw
           ++ map (fun i => batch_payload webhook_url (slice l i (i + size)))
                (firstn k starts)
      /\ webhook (snd out) = webhook dw
      /\ (fst out = Ret tt -> k = length starts)
      /\ (fst out <> Ret tt -> (0 < k)%nat /\ fst out = Raise HTTPError).
Proof.
  induction starts as [|i starts IH]; intros dw out.
  - exists 0%nat. simpl. rewrite app_nil_r.
    split; [lia |]. split; [reflexivity |]. split; [reflexivity |].
    split; [reflexivity | intros H; exfalso; apply H; reflexivity].
  - unfold out. cbn [post_batches]. unfold client_post.
    set (payload := EmbedsPayload
                      (map (fun rr => format_repo_embed (fst rr) (snd rr))
                         (slice l i (i + size)))).
    destruct (webhook dw (posted dw) webhook_url payload) as [|st body].
    + exists 1%nat. simpl. split; [lia |]. split; [reflexivity |].
      split; [reflexivity |]. split; [discriminate | intros _; split; [lia | reflexivity]].
    + unfold raise_for_status. destruct (is_success st).
      * match goal with
        | |- context [post_batches webhook_url l size starts ?d] =>
            destruct (IH d) as (k & Hk & Hposted & Hhook & Hret & Hraise)
        end.
        exists (S k). cbn [posted webhook] in *.
        split; [simpl; lia |].
        split; [rewrite Hposted, <- app_assoc; reflexivity |].
        split; [exact Hhook |].
        split; [intros H; simpl; f_equal; apply Hret; exact H |].
        intros H. destruct (Hraise H) as [_ Hr]. split; [lia | exact Hr].
      * exists 1%nat. simpl. split; [lia |]. split; [reflexivity |].
        split; [reflexivity |]. split; [discriminate | intros _; split; [lia | reflexivity]].
Qed.

(** X13. [send_repos] with a positive batch size posts the matches in
    [ceil(n / batch_size)] messages of at most [batch_size] embeds each,
    which together carry every match once and in order; it stops at the
    first message that fails, so what was posted is always a prefix of those
    batches. With a batch size of zero it raises [ValueError] before posting,
    and with a negative one it posts nothing and returns as if all was sent. *)
Theorem send_repos_posts_batches_in_order :
  forall (webhook_url : string) (l : list (Repository * EvaluationResult))
         (batch_size : Z) (dw : Discord),
    let out := send_repos webhook_url l batch_size dw in
    let batches := batches_of l (Z.to_nat batch_size) in
    (batch_size = 0 ->
     out = (Raise (ValueError "range() arg 3 must not be zero"), dw))
    /\ (batch_size < 0 -> out = (Ret tt, dw))
    /\ (0 < batch_size ->
        concat batches = l
        /\ length batches
           = ((length l + Z.to_nat batch_size - 1) / Z.to_nat batch_size)%nat
        /\ (forall b, In b batches -> 1 <= len b <= batch_size)
        /\ exists k : nat,
             posted (snd out)
             = posted dw ++ map (batch_payload webhook_url) (firstn k batches)
             /\ (fst out = Ret tt -> k = length batches)
             /\ (fst out <> Ret tt ->
                 (0 < k <= length batches)%nat /\ fst out = Raise HTTPError)).
Proof.
  intros webhook_url l batch_size dw out batches.
  unfold out, send_repos, range_from_zero.
  split; [| split].
  - intros ->. reflexivity.
  - intros Hneg. destruct (Z.eqb_spec batch_size 0); [lia |].
    destruct (Z.ltb_spec batch_size 0); [reflexivity | lia].
  - intros Hpos. destruct (Z.eqb_spec batch_size 0); [lia |].
    destruct (Z.ltb_spec batch_size 0); [lia |].
    assert (Hs : (0 < Z.to_nat batch_size)%nat) by lia.
    split; [apply batches_of_concat; exact Hs |].
    split; [unfold batches; rewrite batches_of_eq, length_map, length_seq; reflexivity |].
    split.
    { intros b Hb. apply (batches_of_sizes _ _ _ Hs) in Hb. unfold len. lia. }
    destruct (post_batches_spec webhook_url l (Z.to_nat batch_size)
                (range_step (length l) (Z.to_nat batch_size)) dw)
      as (k & Hk & Hposted & _ & Hret & Hraise).
    exists k. unfold batches, batches_of. rewrite firstn_map, map_map.
    split; [exact Hposted |]. rewrite length_map.
    split; [exact Hret |]. intros Hne. destruct (Hraise Hne) as [Hk0 Hr].
    split; [lia | exact Hr].
Qed.

Lemma send_repos_posts_batches_in_order_witness :
  0 < 2
  /\ length (posted (snd (send_repos "https://hook" five_matches 2
                            (fresh_discord accepting_webhook)))) = 3%nat
  /\ length (posted (snd (send_repos "https://hook" five_matches 2
                            (fresh_discord refusing_webhook)))) = 1%nat
  /\ concat (batches_of five_matches (Z.to_nat 2)) = five_matches.
Proof.
  assert (H : 0 < 2) by lia.
  destruct (send_repos_posts_batches_in_order "https://hook" five_matches 2
              (fresh_discord accepting_webhook)) as (_ & _ & Hpos).
  destruct (Hpos H) as (Hconcat & _).
  split; [exact H |]. split; [reflexivity |]. split; [reflexivity | exact Hconcat].
Defined.

(** ** The evaluation loop and the lines that follow it *)

Section PipelineFacts.

Variable evaluate : Repository -> string -> Exn + EvaluationResult.
Variable isoformat : Z -> string.
Variable fromisoformat : string -> option Z.
Variable today : nat -> Z.
Variable timestamp : nat -> string.

Let loop := evaluate_all evaluate isoformat today timestamp.

Lemma append_text_other (fs : FS) (p q text : string) :
  q <> p -> PyDict.get (append_text fs p text) q = PyDict.get fs q.
Proof. intros H. unfold append_text. apply PyDictFacts.get_set_ne. congruence. Qed.

Lemma append_text_grows (fs : FS) (p text : string) :
  file_text (append_text fs p text) p = (file_text fs p ++ text)%string.
Proof.
  unfold file_text, append_text. rewrite PyDictFacts.get_set_eq.
  destruct (PyDict.get fs p); reflexivity.
Qed.

Lemma string_app_assoc (a b c : string) :
  ((a ++ b) ++ c)%string = (a ++ (b ++ c))%string.
Proof. induction a; simpl; [reflexivity | rewrite IHa; reflexivity]. Qed.

Lemma string_app_nil_r (a : string) : (a ++ "")%string = a.
Proof. induction a; simpl; [reflexivity | rewrite IHa; reflexivity]. Qed.

Lemma evaluate_all_spec (prompt : string) (rejected_log_path : option string) :
  forall (new_repos : list Repository) (k : nat) (st st' : Evaluation),
    loop prompt rejected_log_path k new_repos st = inr st' ->
    map fst (matched st')
    = map fst (matched st) ++ filter (is_match evaluate prompt) new_repos
    /\ rejected_count st'
       = rejected_count st
         + len (filter (fun r => negb (is_match evaluate prompt r)) new_repos)
    /\ (forall rr, In rr (matched st') ->
          In rr (matched st)
          \/ (In (fst rr) new_repos /\ evaluate (fst rr) prompt = inr (snd rr)
              /\ interested (snd rr) = true))
    /\ (forall i repo, nth_error new_repos i = Some repo ->
          last_of_its_name new_repos i repo ->
          PyDict.get (_data (cache st')) (full_name repo)
          = Some (isoformat (today (k + i))))
    /\ (forall repo, In repo new_repos ->
          exists i, (i < length new_repos)%nat
                    /\ PyDict.get (_data (cache st')) (full_name repo)
                       = Some (isoformat (today (k + i))))
    /\ (forall name, ~ In name (map full_name new_repos) ->
          PyDict.get (_data (cache st')) name = PyDict.get (_data (cache st)) name)
    /\ (NoDup (PyDict.keys (_data (cache st))) -> NoDup (PyDict.keys (_data (cache st'))))
    /\ cache_path (cache st') = cache_path (cache st)
    /\ cache_days (cache st') = cache_days (cache st)
    /\ (forall q, rejected_log_path <> Some q ->
          PyDict.get (files st') q = PyDict.get (files st) q)
    /\ (rejected_log_path = None -> files st' = files st)
    /\ (forall p, rejected_log_path = Some p ->
          exists added, file_text (files st') p = (file_text (files st) p ++ added)%string).
Proof.
  unfold loop.
  induction new_repos as [|repo rest IH]; intros k st st' H; simpl in H.
  - inversion H; subst. rewrite app_nil_r. simpl.
    change (len (@nil Repository)) with 0. rewrite Z.add_0_r.
    split; [reflexivity |]. split; [reflexivity |]. split; [auto |].
    split; [intros i repo Hn; destruct i; discriminate |].
    split; [intros repo [] |].
    split; [auto |]. split; [auto |]. split; [reflexivity |]. split; [reflexivity |].
    split; [auto |]. split; [auto |].
    intros p _. exists "". rewrite string_app_nil_r. reflexivity.
  - destruct (evaluate repo prompt) as [e | result] eqn:He; [discriminate |].
    apply IH in H. clear IH.
    destruct H as (Hm & Hr & Hin & Hlast & Hany & Hother & Hnd & Hpath & Hdays
                   & Hfiles & Hnone & Hlog).
    assert (Hmatch : is_match evaluate prompt repo = interested result).
    { unfold is_match. rewrite He. reflexivity. }
    cbn [matched rejected_count cache files] in *.
    assert (Hhead : ~ In (full_name repo) (map full_name rest) ->
                    PyDict.get (_data (cache st')) (full_name repo)
                    = Some (isoformat (today k))).
    { intros Hni. rewrite (Hother _ Hni). unfold mark_seen. cbn [_data].
      apply PyDictFacts.get_set_eq. }
    split; [| split; [| split; [| split; [| split; [| split; [| split; [| split;
           [| split; [| split; [| split]]]]]]]]]].
    + rewrite Hm. cbn [filter]. rewrite Hmatch.
      destruct (interested result); cbn [matched]; [| reflexivity].
      rewrite map_app, <- app_assoc. reflexivity.
    + rewrite Hr. cbn [filter]. rewrite Hmatch.
      destruct (interested result); cbn [rejected_count negb]; rewrite ?len_cons; lia.
    + intros rr Hrr. destruct (Hin rr Hrr) as [Hold | (Hi1 & Hi2 & Hi3)].
      * destruct (interested result) eqn:Hint; cbn [matched] in Hold; [| left; exact Hold].
        apply in_app_or in Hold. destruct Hold as [Hold | [<- | []]]; [left; exact Hold |].
        right. simpl. split; [left; reflexivity | split; assumption].
      * right. split; [right; exact Hi1 | split; assumption].
    + intros i r Hn Hlater. destruct i as [|i].
      * simpl in Hn. inversion Hn; subst r. rewrite Nat.add_0_r. apply Hhead.
        intros Hi. apply in_map_iff in Hi. destruct Hi as (r' & Hname & Hr').
        apply In_nth_error in Hr'. destruct Hr' as [j Hj].
        apply (Hlater (S j) r'); [lia | exact Hj | exact Hname].
      * simpl in Hn. replace (k + S i)%nat with (S k + i)%nat by lia.
        apply Hlast; [exact Hn |].
        intros j r' Hij Hj. apply (Hlater (S j) r'); [lia | exact Hj].
    + intros r [<- | Hr0].
      * destruct (in_dec string_dec (full_name repo) (map full_name rest)) as [Hi | Hni].
        -- apply in_map_iff in Hi. destruct Hi as (r' & Hname & Hr').
           destruct (Hany r' Hr') as (i & Hi & Hget).
           exists (S i). split; [simpl; lia |].
           replace (k + S i)%nat with (S k + i)%nat by lia.
           rewrite <- Hname. exact Hget.
        -- exists 0%nat. split; [simpl; lia |]. rewrite Nat.add_0_r. apply Hhead. exact Hni.
      * destruct (Hany r Hr0) as (i & Hi & Hget).
        exists (S i). split; [simpl; lia |].
        replace (k + S i)%nat with (S k + i)%nat by lia. exact Hget.
    + intros name Hni. rewrite Hother by (intros Hi; apply Hni; right; exact Hi).
      unfold mark_seen. cbn [_data]. rewrite PyDictFacts.get_set_ne.
      * destruct (interested result); reflexivity.
      * intros Heq. apply Hni. left. exact Heq.
    + intros Hnd0. apply Hnd. unfold mark_seen. cbn [_data]. apply keys_set_nodup.
      destruct (interested result); exact Hnd0.
    + rewrite Hpath. unfold mark_seen. cbn [cache_path].
      destruct (interested result); reflexivity.
    + rewrite Hdays. unfold mark_seen. cbn [cache_days].
      destruct (interested result); reflexivity.
    + intros q Hq. rewrite (Hfiles q Hq).
      destruct (interested result); cbn [files]; [reflexivity |].
      destruct rejected_log_path as [p |]; [| reflexivity].
      unfold log_rejected_repo. apply append_text_other. congruence.
    + intros Hn. rewrite (Hnone Hn). subst rejected_log_path.
      destruct (interested result); reflexivity.
    + intros p Hp. destruct (Hlog p Hp) as [added Hadd]. subst rejected_log_path.
      destruct (interested result); cbn [files] in *.
      * exists added. exact Hadd.
      * exists (rejected_entry (timestamp k) repo (reason result) ++ added)%string.
        rewrite Hadd. unfold log_rejected_repo. rewrite append_text_grows.
        apply string_app_assoc.
Qed.

End PipelineFacts.

Lemma filter_partition_len {A : Type} (p : A -> bool) (l : list A) :
  len (filter p l) + len (filter (fun x => negb (p x)) l) = len l.
Proof.
  induction l as [|x l IH]; [reflexivity |].
  cbn [filter]. destruct (p x); cbn [negb]; rewrite ?len_cons; lia.
Qed.

(** X14. When the evaluation loop (lines 132-149) has gone through the list,
    every repository of the list is in the cache, whether it matched or not,
    with the date of the day on which it was marked: [date.today()] is read
    at each [mark_seen], so the date is that of the reading made for the
    repository (for its last occurrence when an identifier is repeated), and
    a list gone through within one day carries that day throughout. No other
    entry of the cache has changed; the matches are exactly the repositories
    that the provider found interesting, in the order of the list, and
    matches plus rejections make the number processed. The loop writes to no
    file but the rejected log, and only appends to that one. *)
Theorem evaluation_marks_every_repository_seen :
  forall (evaluate : Repository -> string -> Exn + EvaluationResult)
         (isoformat : Z -> string) (today : nat -> Z) (timestamp : nat -> string)
         (prompt : string) (rejected_log_path : option string)
         (new_repos : list Repository) (cache0 : RepoCache) (fs : FS) (st : Evaluation),
    evaluate_all evaluate isoformat today timestamp prompt rejected_log_path 0 new_repos
      {| matched := []; rejected_count := 0; cache := cache0; files := fs |} = inr st ->
    (forall i repo, nth_error new_repos i = Some repo ->
       is_seen (cache st) (full_name repo) = true
       /\ (last_of_its_name new_repos i repo ->
           PyDict.get (_data (cache st)) (full_name repo) = Some (isoformat (today i))))
    /\ (forall repo, In repo new_repos ->
          exists i, (i < length new_repos)%nat
                    /\ PyDict.get (_data (cache st)) (full_name repo)
                       = Some (isoformat (today i)))
    /\ ((forall i, (i < length new_repos)%nat -> today i = today 0%nat) ->
        forall repo, In repo new_repos ->
          PyDict.get (_data (cache st)) (full_name repo) = Some (isoformat (today 0%nat)))
    /\ (forall name, ~ In name (map full_name new_repos) ->
          PyDict.get (_data (cache st)) name = PyDict.get (_data cache0) name)
    /\ map fst (matched st) = filter (is_match evaluate prompt) new_repos
    /\ (forall rr, In rr (matched st) ->
          evaluate (fst rr) prompt = inr (snd rr) /\ interested (snd rr) = true)
    /\ len (matched st) + rejected_count st = len new_repos
    /\ (forall q, rejected_log_path <> Some q -> PyDict.get (files st) q = PyDict.get fs q)
    /\ (forall p, rejected_log_path = Some p ->
          exists added, file_text (files st) p = (file_text fs p ++ added)%string).
Proof.
  intros evaluate isoformat today timestamp prompt rejected_log_path new_repos cache0 fs st H.
  apply evaluate_all_spec in H.
  destruct H as (Hm & Hr & Hin & Hlast & Hany & Hother & _ & _ & _ & Hfiles & _ & Hlog).
  cbn [matched rejected_count cache files] in *. simpl in Hm.
  split; [| split; [exact Hany | split; [| split; [exact Hother | split; [exact Hm |
         split; [| split; [| split]]]]]]].
  - intros i repo Hn. split.
    + destruct (Hany repo (nth_error_In _ _ Hn)) as (j & _ & Hget).
      unfold is_seen, PyDict.contains. rewrite Hget. reflexivity.
    + intros Hl. apply (Hlast i repo Hn Hl).
  - intros Hday repo Hrepo. destruct (Hany repo Hrepo) as (i & Hi & Hget).
    rewrite Hget. cbn [Nat.add]. rewrite (Hday i Hi). reflexivity.
  - intros rr Hrr. destruct (Hin rr Hrr) as [[] | (_ & H1 & H2)]. auto.
  - assert (Hl : len (matched st) = len (filter (is_match evaluate prompt) new_repos)).
    { unfold len. rewrite <- Hm, length_map. reflexivity. }
    rewrite Hl, Hr. pose proof (filter_partition_len (is_match evaluate prompt) new_repos).
    lia.
  - exact Hfiles.
  - exact Hlog.
Qed.

Lemma evaluation_marks_every_repository_seen_witness :
  exists st,
    evaluate_all ten_stars date_isoformat past_midnight fixed_clock "prompt"
      (Some "rejected_repos.log") 0 three_found
      {| matched := []; rejected_count := 0; cache := empty_cache; files := [] |} = inr st
    /\ map (fun rr => full_name (fst rr)) (matched st) = ["o/big"; "o/mid"]
    /\ rejected_count st = 1
    /\ _data (cache st)
       = [("o/big", "2025-12-10"); ("o/small", "2025-12-10"); ("o/mid", "2025-12-11")]
    /\ len (matched st) + rejected_count st = len three_found.
Proof.
  destruct (evaluate_all ten_stars date_isoformat past_midnight fixed_clock "prompt"
              (Some "rejected_repos.log") 0 three_found
              {| matched := []; rejected_count := 0; cache := empty_cache; files := [] |})
    as [e | st] eqn:E; [vm_compute in E; discriminate |].
  destruct (evaluation_marks_every_repository_seen _ _ _ _ _ _ _ _ _ _ E)
    as (_ & _ & _ & _ & _ & _ & Hcount & _).
  exists st. split; [reflexivity |].
  vm_compute in E. inversion E; subst st. clear E.
  split; [reflexivity |]. split; [reflexivity |]. split; [reflexivity | exact Hcount].
Defined.

(** ** Lines 130-174 *)

Section RunEnd.

Variable evaluate : Repository -> string -> Exn + EvaluationResult.
Variable isoformat : Z -> string.
Variable fromisoformat : string -> option Z.
Variable today : nat -> Z.
Variable timestamp : nat -> string.

Let finish := evaluate_notify_persist evaluate isoformat fromisoformat today timestamp.

Lemma send_summary_posts (webhook_url : string) (found processed : Z) (dw : Discord) :
  exists payload,
    posted (snd (send_summary webhook_url found processed dw))
    = posted dw ++ [(webhook_url, payload)]
    /\ webhook (snd (send_summary webhook_url found processed dw)) = webhook dw.
Proof.
  unfold send_summary, client_post. eexists.
  destruct (webhook dw (posted dw) webhook_url _) as [|st body]; [split; reflexivity |].
  destruct (raise_for_status st); split; reflexivity.
Qed.

(** The three ways these lines can end, with what each leaves behind. *)
Lemma finish_cases (discord_webhook_url : string) (batch_size : Z) (dry_run : bool)
    (rejected_log_path : option string) (prompt : string)
    (new_repos : list Repository) (cache0 : RepoCache) (fs : FS) (dw : Discord) :
  let out := finish discord_webhook_url batch_size dry_run rejected_log_path prompt
               new_repos cache0 fs dw in
  (exists e fs1,
      evaluate_all evaluate isoformat today timestamp prompt rejected_log_path 0 new_repos
        {| matched := []; rejected_count := 0; cache := cache0; files := fs |}
      = inl (e, fs1)
      /\ out = (Raise e, (fs1, dw)))
  \/ exists st,
       evaluate_all evaluate isoformat today timestamp prompt rejected_log_path 0 new_repos
         {| matched := []; rejected_count := 0; cache := cache0; files := fs |} = inr st
       /\ (dry_run = true \/ matched st = [] -> snd (snd out) = dw)
       /\ ((exists pruned,
              prune fromisoformat (today (length new_repos)) (cache st) = inr pruned
              /\ fst out = Ret (len new_repos, len (matched st))
              /\ fst (snd out) = save pruned (files st))
           \/ ((forall v, fst out <> Ret v) /\ fst (snd out) = files st)).
Proof.
  intros out. unfold out, finish, evaluate_notify_persist.
  destruct (evaluate_all evaluate isoformat today timestamp prompt rejected_log_path 0
              new_repos {| matched := []; rejected_count := 0; cache := cache0; files := fs |})
    as [[e fs1] | st] eqn:E.
  - left. exists e, fs1. auto.
  - right. exists st. split; [reflexivity |].
    assert (Hquiet : dry_run = true \/ matched st = [] ->
                     negb dry_run && negb (len (matched st) =? 0) = false).
    { intros [-> | ->]; [reflexivity |]. rewrite andb_comm. reflexivity. }
    set (notified :=
           if negb dry_run && negb (len (matched st) =? 0)
           then match send_summary discord_webhook_url (len (matched st)) (len new_repos) dw with
                | (Ret _, dw1) => send_repos discord_webhook_url (matched st) batch_size dw1
                | other => other
                end
           else (Ret tt, dw)).
    assert (Hn : dry_run = true \/ matched st = [] -> notified = (Ret tt, dw)).
    { intros Hq. unfold notified. rewrite (Hquiet Hq). reflexivity. }
    split.
    + intros Hq. rewrite (Hn Hq).
      destruct (prune fromisoformat (today (length new_repos)) (cache st)); reflexivity.
    + destruct notified as [[u | e |] dw2].
      * destruct (prune fromisoformat (today (length new_repos)) (cache st))
          as [e | pruned] eqn:Hp.
        -- right. split; [intros v; discriminate | reflexivity].
        -- left. exists pruned. auto.
      * right. split; [intros v; discriminate | reflexivity].
      * right. split; [intros v; discriminate | reflexivity].
Qed.

End RunEnd.

(** X15. The end of a run posts nothing to Discord in dry-run mode, and
    nothing when no repository matched, whatever the provider, the cache and
    the webhook do. *)
Theorem dry_run_never_posts :
  forall (evaluate : Repository -> string -> Exn + EvaluationResult)
         (isoformat : Z -> string) (fromisoformat : string -> option Z)
         (today : nat -> Z)
         (timestamp : nat -> string) (discord_webhook_url : string) (batch_size : Z)
         (dry_run : bool) (rejected_log_path : option string) (prompt : string)
         (new_repos : list Repository) (cache0 : RepoCache) (fs : FS) (dw : Discord),
    dry_run = true \/ filter (is_match evaluate prompt) new_repos = [] ->
    posted (snd (snd (evaluate_notify_persist evaluate isoformat fromisoformat today
                        timestamp discord_webhook_url batch_size dry_run
                        rejected_log_path prompt new_repos cache0 fs dw)))
    = posted dw.
Proof.
  intros evaluate isoformat fromisoformat today timestamp discord_webhook_url batch_size
         dry_run rejected_log_path prompt new_repos cache0 fs dw Hq.
  destruct (finish_cases evaluate isoformat fromisoformat today timestamp
              discord_webhook_url batch_size dry_run rejected_log_path prompt
              new_repos cache0 fs dw) as [(e & fs1 & _ & Hout) | (st & Hst & Hquiet & _)].
  - rewrite Hout. reflexivity.
  - rewrite Hquiet; [reflexivity |].
    destruct Hq as [Hd | Hnone]; [left; exact Hd | right].
    apply evaluate_all_spec in Hst. destruct Hst as (Hm & _).
    cbn [matched] in Hm. simpl in Hm. rewrite Hnone in Hm.
    destruct (matched st); [reflexivity | discriminate].
Qed.

Lemma dry_run_never_posts_witness :
  (true = true \/ filter (is_match ten_stars "prompt") three_found = [])
  /\ posted (snd (snd (evaluate_notify_persist ten_stars date_isoformat date_fromisoformat
                         same_day fixed_clock "https://hook" 10 true None "prompt"
                         three_found empty_cache [] (fresh_discord accepting_webhook))))
     = [].
Proof.
  assert (H : true = true \/ filter (is_match ten_stars "prompt") three_found = [])
    by (left; reflexivity).
  split; [exact H |].
  apply (dry_run_never_posts ten_stars date_isoformat date_fromisoformat same_day
           fixed_clock "https://hook" 10 true None "prompt" three_found empty_cache []
           (fresh_discord accepting_webhook) H).
Defined.

Section RunOutcome.

Variable evaluate : Repository -> string -> Exn + EvaluationResult.
Variable isoformat : Z -> string.
Variable fromisoformat : string -> option Z.
Variable today : nat -> Z.
Variable timestamp : nat -> string.

(** When the loop is left by an exception, the files it has written are
    still those of the rejected log only. *)
Lemma evaluate_all_raised (prompt : string) (rejected_log_path : option string) :
  forall (new_repos : list Repository) (k : nat) (st : Evaluation) (e : Exn) (fs1 : FS),
    evaluate_all evaluate isoformat today timestamp prompt rejected_log_path k new_repos st
    = inl (e, fs1) ->
    forall q, rejected_log_path <> Some q -> PyDict.get fs1 q = PyDict.get (files st) q.
Proof.
  induction new_repos as [|repo rest IH]; intros k st e fs1 H q Hq; simpl in H.
  - discriminate.
  - destruct (evaluate repo prompt) as [e0 | result]; [inversion H; reflexivity |].
    apply IH with (q := q) in H; [| exact Hq]. rewrite H. cbn [files].
    destruct (interested result); cbn [files]; [reflexivity |].
    destruct rejected_log_path as [p |]; [| reflexivity].
    unfold log_rejected_repo. apply append_text_other. congruence.
Qed.

Lemma save_writes_cache_file (self : RepoCache) (fs : FS) :
  PyDict.get (save self fs) (cache_path self) = Some (json_dumps (_data self))
  /\ forall q, q <> cache_path self -> PyDict.get (save self fs) q = PyDict.get fs q.
Proof.
  unfold save, save_ops, write_text. simpl. split.
  - rewrite PyDictFacts.get_set_eq, PyDictFacts.get_set_eq. reflexivity.
  - intros q Hq. rewrite !PyDictFacts.get_set_ne by congruence. reflexivity.
Qed.

End RunOutcome.

(** X16. When lines 130-174 run to their end, they return the number of
    repositories processed and the number of matches, and the cache file
    holds the dump of a mapping with distinct keys. [date.today()] is read
    at each [mark_seen] and again by [prune]: a repository of the list (at
    its last occurrence) is in that mapping, with the date of its marking,
    exactly when that date is not before the cutoff, the date at [prune]
    less [cache_days]. So every repository of the list is saved when all the
    readings fall on one day and the window is not negative, and a window of
    zero days loses those marked before a midnight that the lines run past.
    Any other name is in the mapping exactly when the cache had it at the
    start with a date not before the cutoff. No file but the cache file and
    the rejected log changes. *)
Theorem completed_run_saves_every_evaluated_repository :
  forall (evaluate : Repository -> string -> Exn + EvaluationResult)
         (isoformat : Z -> string) (fromisoformat : string -> option Z)
         (today : nat -> Z)
         (timestamp : nat -> string) (discord_webhook_url : string) (batch_size : Z)
         (dry_run : bool) (rejected_log_path : option string) (prompt : string)
         (new_repos : list Repository) (cache0 : RepoCache) (fs : FS) (dw : Discord)
         (processed found : Z) (fs' : FS) (dw' : Discord),
    NoDup (PyDict.keys (_data cache0)) ->
    (forall k, fromisoformat (isoformat (today k)) = Some (today k)) ->
    evaluate_notify_persist evaluate isoformat fromisoformat today timestamp
      discord_webhook_url batch_size dry_run rejected_log_path prompt
      new_repos cache0 fs dw = (Ret (processed, found), (fs', dw')) ->
    let cutoff := today (length new_repos) - cache_days cache0 in
    processed = len new_repos
    /\ found = len (filter (is_match evaluate prompt) new_repos)
    /\ (forall q, q <> cache_path cache0 -> rejected_log_path <> Some q ->
          PyDict.get fs' q = PyDict.get fs q)
    /\ exists saved,
         PyDict.get fs' (cache_path cache0) = Some (json_dumps saved)
         /\ NoDup (PyDict.keys saved)
         /\ (forall i repo, nth_error new_repos i = Some repo ->
               last_of_its_name new_repos i repo ->
               PyDict.get saved (full_name repo)
               = if cutoff <=? today i then Some (isoformat (today i)) else None)
         /\ ((forall i, (i <= length new_repos)%nat -> today i = today 0%nat) ->
             0 <= cache_days cache0 ->
             forall repo, In repo new_repos ->
               PyDict.get saved (full_name repo) = Some (isoformat (today 0%nat)))
         /\ (forall name s, ~ In name (map full_name new_repos) ->
               (PyDict.get saved name = Some s
                <-> PyDict.get (_data cache0) name = Some s
                    /\ exists d, fromisoformat s = Some d /\ cutoff <= d)).
Proof.
  intros evaluate isoformat fromisoformat today timestamp discord_webhook_url batch_size
         dry_run rejected_log_path prompt new_repos cache0 fs dw processed found fs' dw'
         Hnd Hround Hrun cutoff.
  destruct (finish_cases evaluate isoformat fromisoformat today timestamp
              discord_webhook_url batch_size dry_run rejected_log_path prompt
              new_repos cache0 fs dw)
    as [(e & fs1 & _ & Hout) | (st & Hst & _ & [(pruned & Hp & Hres & Hfs) | [Hfail _]])].
  - rewrite Hrun in Hout. discriminate.
  - rewrite Hrun in Hres, Hfs. cbn [fst snd] in Hres, Hfs. inversion Hres; subst.
    apply evaluate_all_spec in Hst.
    destruct Hst as (Hm & _ & _ & Hlast & Hany & Hother & Hnd1 & Hpath & Hdays1 & Hfiles & _).
    cbn [matched cache files] in *. simpl in Hm. specialize (Hnd1 Hnd).
    destruct (prune_inr _ _ _ _ Hnd1 Hp) as (Hpruned & _ & _).
    rewrite Hpath, Hdays1 in Hpruned. fold cutoff in Hpruned.
    destruct (save_writes_cache_file pruned (files st)) as [Hfile Hrest].
    assert (Hcp : cache_path pruned = cache_path cache0) by (rewrite Hpruned; reflexivity).
    rewrite Hcp in Hfile, Hrest.
    assert (Hkept : forall name i,
               PyDict.get (_data (cache st)) name = Some (isoformat (today i)) ->
               PyDict.get (_data pruned) name
               = if cutoff <=? today i then Some (isoformat (today i)) else None).
    { intros name i Hget. rewrite Hpruned. cbn [_data].
      rewrite get_filter_nodup by exact Hnd1. rewrite Hget.
      unfold not_expired. cbn [snd]. rewrite Hround. reflexivity. }
    split; [reflexivity |]. split.
    { unfold len. rewrite <- Hm, length_map. reflexivity. }
    split.
    { intros q Hq Hlog. rewrite (Hrest q Hq). apply Hfiles. exact Hlog. }
    exists (_data pruned). split; [exact Hfile |].
    split; [rewrite Hpruned; cbn [_data]; apply keys_filter_nodup; exact Hnd1 |].
    split; [| split].
    + intros i repo Hn Hl. apply Hkept. apply (Hlast i repo Hn Hl).
    + intros Hday Hwin repo Hrepo. destruct (Hany repo Hrepo) as (i & Hi & Hget).
      cbn [Nat.add] in Hget. rewrite (Hkept _ _ Hget).
      rewrite (Hday i) by lia.
      assert (Hc : cutoff <= today 0%nat).
      { unfold cutoff. rewrite (Hday (length new_repos)) by lia. lia. }
      apply Z.leb_le in Hc. rewrite Hc. reflexivity.
    + intros name s Hname. rewrite Hpruned. cbn [_data].
      rewrite get_filter_nodup by exact Hnd1.
      rewrite (Hother name Hname).
      destruct (PyDict.get (_data cache0) name) as [s0 |] eqn:Hs0.
      * unfold not_expired. cbn [snd].
        destruct (fromisoformat s0) as [d |] eqn:Hd.
        -- destruct (Z.leb_spec cutoff d); split.
           ++ intros Hs. inversion Hs; subst s0. split; [reflexivity |].
              exists d. split; [exact Hd | assumption].
           ++ intros [Hs _]. exact Hs.
           ++ discriminate.
           ++ intros [Hs (d' & Hd' & Hle)]. inversion Hs; subst s0.
              rewrite Hd in Hd'. inversion Hd'; subst d'. lia.
        -- split; [discriminate |].
           intros [Hs (d' & Hd' & _)]. inversion Hs; subst s0. congruence.
      * split; [discriminate | intros [Hs _]; discriminate].
  - exfalso. apply (Hfail (processed, found)). rewrite Hrun. reflexivity.
Qed.

Lemma date_isoformat_round_trip_2025_12 (k : nat) :
  date_fromisoformat (date_isoformat (past_midnight k)) = Some (past_midnight k).
Proof.
  unfold past_midnight. destruct (k <? 2)%nat; vm_compute; reflexivity.
Qed.

(** Midnight passes after the second repository: the third is saved with
    the date of the next day, and the entry that was exactly thirty days old
    the day before is pruned. *)
Lemma completed_run_saves_every_evaluated_repository_witness :
  exists fs' dw',
    evaluate_notify_persist ten_stars date_isoformat date_fromisoformat past_midnight
      fixed_clock "https://hook" 10 false (Some "rejected_repos.log") "prompt"
      three_found boundary_cache old_fs (fresh_discord accepting_webhook)
    = (Ret (3, 2), (fs', dw'))
    /\ PyDict.get fs' "seen_repos.json"
       = Some (json_dumps [("recent/repo", "2025-12-05");
                           ("o/big", "2025-12-10"); ("o/small", "2025-12-10");
                           ("o/mid", "2025-12-11")])
    /\ length (posted dw') = 2%nat
    /\ 2 = len (filter (is_match ten_stars "prompt") three_found).
Proof.
  assert (Hnd : NoDup (PyDict.keys (_data boundary_cache))).
  { simpl. repeat constructor; simpl; intuition discriminate. }
  destruct (evaluate_notify_persist ten_stars date_isoformat date_fromisoformat
              past_midnight fixed_clock "https://hook" 10 false
              (Some "rejected_repos.log") "prompt" three_found boundary_cache old_fs
              (fresh_discord accepting_webhook)) as [r [fs' dw']] eqn:E.
  assert (Hr : r = Ret (3, 2)).
  { vm_compute in E. inversion E. reflexivity. }
  subst r.
  destruct (completed_run_saves_every_evaluated_repository _ _ _ _ _ _ _ _ _ _ _ _ _ _
              _ _ _ _ Hnd date_isoformat_round_trip_2025_12 E) as (_ & Hfound & _).
  exists fs', dw'. split; [reflexivity |].
  vm_compute in E. inversion E; subst fs' dw'. clear E.
  split; [vm_compute; reflexivity |]. split; [reflexivity | exact Hfound].
Defined.

(** X17. A run that does not complete, because the provider, Discord or the
    pruning raised, writes to no file but the rejected log: the cache file
    is as it was, so a cache built from it afterwards is the cache the run
    started from, and the repositories evaluated in the run are not
    remembered. *)
Theorem failed_run_leaves_cache_file_untouched :
  forall (evaluate : Repository -> string -> Exn + EvaluationResult)
         (isoformat : Z -> string) (fromisoformat : string -> option Z)
         (today : nat -> Z)
         (timestamp : nat -> string) (decode : string -> option string)
         (json_loads : string -> Exn + PyDict.t string)
         (discord_webhook_url : string) (batch_size : Z)
         (dry_run : bool) (rejected_log_path : option string) (prompt : string)
         (new_repos : list Repository) (cache0 : RepoCache) (fs : FS) (dw : Discord)
         (r : Res (Z * Z)) (fs' : FS) (dw' : Discord),
    evaluate_notify_persist evaluate isoformat fromisoformat today timestamp
      discord_webhook_url batch_size dry_run rejected_log_path prompt
      new_repos cache0 fs dw = (r, (fs', dw')) ->
    (forall v, r <> Ret v) ->
    (forall q, rejected_log_path <> Some q -> PyDict.get fs' q = PyDict.get fs q)
    /\ (rejected_log_path <> Some (cache_path cache0) ->
        RepoCache_init decode json_loads fs' (cache_path cache0) (cache_days cache0)
        = RepoCache_init decode json_loads fs (cache_path cache0) (cache_days cache0)).
Proof.
  intros evaluate isoformat fromisoformat today timestamp decode json_loads
         discord_webhook_url
         batch_size dry_run rejected_log_path prompt new_repos cache0 fs dw r fs' dw'
         Hrun Hfail.
  assert (Hfiles : forall q, rejected_log_path <> Some q ->
                             PyDict.get fs' q = PyDict.get fs q).
  { destruct (finish_cases evaluate isoformat fromisoformat today timestamp
                discord_webhook_url batch_size dry_run rejected_log_path prompt
                new_repos cache0 fs dw)
      as [(e & fs1 & Hloop & Hout) | (st & Hst & _ & [(pruned & _ & Hres & _) | [_ Hfs]])].
    - rewrite Hrun in Hout. inversion Hout; subst.
      intros q Hq. apply (evaluate_all_raised _ _ _ _ _ _ _ _ _ _ _ Hloop q Hq).
    - rewrite Hrun in Hres. cbn [fst] in Hres. exfalso. eapply Hfail. exact Hres.
    - rewrite Hrun in Hfs. cbn [fst snd] in Hfs. subst fs'.
      apply evaluate_all_spec in Hst.
      destruct Hst as (_ & _ & _ & _ & _ & _ & _ & _ & _ & Hf & _). exact Hf. }
  split; [exact Hfiles |].
  intros Hlog. unfold RepoCache_init. rewrite (Hfiles _ Hlog). reflexivity.
Qed.

Lemma failed_run_leaves_cache_file_untouched_witness :
  exists fs' dw',
    evaluate_notify_persist ten_stars date_isoformat date_fromisoformat same_day
      fixed_clock "https://hook" 10 false (Some "rejected_repos.log") "prompt"
      three_found boundary_cache old_fs (fresh_discord refusing_webhook)
    = (Raise HTTPError, (fs', dw'))
    /\ PyDict.get fs' "seen_repos.json" = PyDict.get old_fs "seen_repos.json"
    /\ length (posted dw') = 1%nat.
Proof.
  destruct (evaluate_notify_persist ten_stars date_isoformat date_fromisoformat
              same_day fixed_clock "https://hook" 10 false
              (Some "rejected_repos.log") "prompt" three_found boundary_cache old_fs
              (fresh_discord refusing_webhook)) as [r [fs' dw']] eqn:E.
  assert (Hr : r = Raise HTTPError).
  { vm_compute in E. inversion E. reflexivity. }
  subst r.
  assert (Hfail : forall v : Z * Z, Raise HTTPError <> Ret v) by (intros v; discriminate).
  destruct (failed_run_leaves_cache_file_untouched _ _ _ _ _ latin1_codec
              json_loads_strings _ _ _ _ _
              _ _ _ _ _ _ _ E Hfail) as [Hfiles _].
  exists fs', dw'. split; [reflexivity |]. split.
  - apply Hfiles. discriminate.
  - vm_compute in E. inversion E. reflexivity.
Defined.

(** ** Attaching the readmes *)

Lemma attach_readmes_nth (new_repos : list Repository) (readmes : PyDict.t string)
    (i : nat) (repo : Repository) :
  nth_error new_repos i = Some repo ->
  nth_error (attach_readmes new_repos readmes) i
  = Some (with_readme repo (match PyDict.get readmes (full_name repo) with
                            | Some text => text
                            | None => ""
                            end)).
Proof.
  intros H. unfold attach_readmes. rewrite nth_error_map, H. reflexivity.
Qed.

(** X18. Fetching the readmes and attaching them composes as expected when
    the identifiers of the list are distinct: after a completed
    [fetch_readmes], the repository at each position is the one of the input
    with only its readme replaced, and that readme is the text made of the
    answer to its own request, whatever the order of the answers. *)
Theorem attached_readme_is_the_answer_to_own_request :
  forall (b64decode : string -> option (list Byte.byte))
         (decode_utf8_replace : list Byte.byte -> string)
         (self : AsyncGitHubClient) (repos : list Repository) (max_chars : Z)
         (sched : list Event) (g0 g : Gather) (results : list (string * string)),
    NoDup (map full_name repos) ->
    fetch_readmes_start self repos = inr g0 ->
    run b64decode decode_utf8_replace self max_chars g0 sched = Some g ->
    gather g = Some (inr results) ->
    length (attach_readmes repos (PyDict.of_pairs results)) = length repos
    /\ forall i o, In (Complete i o) sched ->
         exists repo c,
           nth_error repos i = Some repo
           /\ readme_of_outcome b64decode decode_utf8_replace max_chars o = inr c
           /\ nth_error (attach_readmes repos (PyDict.of_pairs results)) i
              = Some (with_readme repo c).
Proof.
  intros b64decode decode_utf8_replace self repos max_chars sched g0 g results
         Hnd Hstart Hrun Hg.
  split; [unfold attach_readmes; apply length_map |].
  destruct (fetch_readmes_start_inr _ _ _ Hstart) as (_ & _ & _ & _ & _ & _ & _ & _ & HF0).
  destruct (run_tasks_for _ _ _ _ _ _ _ _ Hrun HF0) as [HF _].
  unfold gather in Hg. destruct (first_raised g); [discriminate |].
  destruct (all_returned (tasks g)) as [rs |] eqn:Hall; [| discriminate].
  inversion Hg; subst rs. apply all_returned_map in Hall.
  rewrite Hall in HF. apply returned_names in HF.
  intros i o Hin.
  destruct (run_complete _ _ _ _ _ _ _ _ _ _ Hrun HF0 Hin) as (name & Hname & Htask).
  rewrite nth_error_map in Hname.
  destruct (nth_error repos i) as [repo |] eqn:Hrepo; [| discriminate].
  simpl in Hname. inversion Hname; subst name.
  rewrite Hall, nth_error_map in Htask. unfold task_after in Htask.
  destruct (nth_error results i) as [r |] eqn:Hr; [| discriminate].
  simpl in Htask.
  destruct (readme_of_outcome b64decode decode_utf8_replace max_chars o) as [e | c];
    [discriminate |].
  inversion Htask; subst r. exists repo, c.
  split; [reflexivity |]. split; [reflexivity |].
  rewrite (attach_readmes_nth _ _ _ _ Hrepo).
  assert (Hget : PyDict.get (PyDict.of_pairs results) (full_name repo) = Some c).
  { rewrite PyDictFacts.of_pairs_nodup by (rewrite HF; exact Hnd).
    apply PyDictFacts.get_in_nodup.
    - unfold PyDict.keys. rewrite HF. exact Hnd.
    - eapply nth_error_In. exact Hr. }
  rewrite Hget. reflexivity.
Qed.

Lemma attached_readme_is_the_answer_to_own_request_witness :
  exists g0 g results,
    NoDup (map full_name two_repos)
    /\ fetch_readmes_start entered_client two_repos = inr g0
    /\ run id_b64decode id_decode entered_client 500 g0 readme_then_missing = Some g
    /\ gather g = Some (inr results)
    /\ map readme (attach_readmes two_repos (PyDict.of_pairs results)) = [""; "# B"]
    /\ length (attach_readmes two_repos (PyDict.of_pairs results)) = length two_repos.
Proof.
  assert (Hnd : NoDup (map full_name two_repos)).
  { simpl. repeat constructor; simpl; intuition discriminate. }
  destruct (fetch_readmes_start entered_client two_repos) as [e | g0] eqn:H0;
    [vm_compute in H0; discriminate |].
  destruct (run id_b64decode id_decode entered_client 500 g0 readme_then_missing)
    as [g |] eqn:Hrun;
    [| exfalso; vm_compute in H0; inversion H0; subst g0; vm_compute in Hrun; discriminate].
  destruct (gather g) as [[e | results] |] eqn:Hg;
    try (exfalso; vm_compute in H0; inversion H0; subst g0;
         vm_compute in Hrun; inversion Hrun; subst g; vm_compute in Hg; discriminate).
  destruct (attached_readme_is_the_answer_to_own_request _ _ _ _ _ _ _ _ _ Hnd H0 Hrun Hg)
    as [Hlen _].
  exists g0, g, results. split; [exact Hnd |]. split; [reflexivity |].
  split; [exact Hrun |]. split; [exact Hg |]. split; [| exact Hlen].
  vm_compute in H0. inversion H0; subst g0.
  vm_compute in Hrun. inversion Hrun; subst g.
  vm_compute in Hg. inversion Hg; subst results. reflexivity.
Defined.

(** ** Strings: prefixes, occurrences, splitting and stripping *)

Lemma strlen_app (a b : string) :
  String.length (a ++ b)%string = (String.length a + String.length b)%nat.
Proof. induction a; simpl; [reflexivity | rewrite IHa; reflexivity]. Qed.

Lemma prefix_app (p r : string) : prefix p (p ++ r)%string = true.
Proof.
  induction p as [|c p IH]; simpl; [destruct r; reflexivity |].
  destruct (ascii_dec c c) as [_ | Hne]; [exact IH | congruence].
Qed.

Lemma prefix_inv (p s : string) :
  prefix p s = true -> exists r, s = (p ++ r)%string.
Proof.
  revert s. induction p as [|c p IH]; intros s H.
  - exists s. reflexivity.
  - destruct s as [|d s]; simpl in H; [discriminate |].
    destruct (ascii_dec c d) as [-> | Hne]; [| discriminate].
    destruct (IH s H) as [r ->]. exists r. reflexivity.
Qed.

Lemma str_contains_spec (sub s : string) :
  str_contains sub s = true <-> exists a b, s = (a ++ sub ++ b)%string.
Proof.
  split.
  - induction s as [|c s IH]; cbn [str_contains]; intros H.
    + rewrite orb_false_r in H. apply prefix_inv in H. destruct H as [r ->].
      exists "", r. reflexivity.
    + apply orb_true_iff in H. destruct H as [H | H].
      * apply prefix_inv in H. destruct H as [r Hr]. exists "", r. exact Hr.
      * destruct (IH H) as (a & b & ->). exists (String c a), b. reflexivity.
  - intros (a & b & ->). induction a as [|c a IH].
    + cbn [append]. destruct (sub ++ b)%string eqn:E; cbn [str_contains];
        rewrite <- E, prefix_app; reflexivity.
    + cbn [append str_contains]. rewrite IH. apply orb_true_r.
Qed.

Lemma absent_not_contains (sub s : string) :
  absent sub s <-> str_contains sub s = false.
Proof.
  split.
  - intros H. destruct (str_contains sub s) eqn:E; [| reflexivity].
    apply str_contains_spec in E. destruct E as (a & b & E). exfalso. eapply H. exact E.
  - intros H a b E.
    assert (str_contains sub s = true) by (apply str_contains_spec; eauto). congruence.
Qed.

(** An occurrence has a first one. *)
Lemma first_occurrence (sub s : string) :
  str_contains sub s = true -> exists a b, first_at sub s a b.
Proof.
  induction s as [|c s IH]; intros H.
  - cbn [str_contains] in H. rewrite orb_false_r in H.
    apply prefix_inv in H. destruct H as [r Hr].
    exists "", r. split; [exact Hr | intros; simpl; lia].
  - destruct (prefix sub (String c s)) eqn:Hp.
    + apply prefix_inv in Hp. destruct Hp as [r Hr].
      exists "", r. split; [exact Hr | intros; simpl; lia].
    + cbn [str_contains] in H. rewrite Hp in H. cbn [orb] in H.
      destruct (IH H) as (a & b & Hs & Hmin).
      exists (String c a), b. split; [rewrite Hs; reflexivity |].
      intros a' b' E. destruct a' as [|c' a'].
      * exfalso. cbn [append] in E.
        assert (Ht : prefix sub (String c s) = true) by (rewrite E; apply prefix_app).
        congruence.
      * cbn [append] in E. inversion E as [[Hc' Hrest]]. simpl. apply le_n_S.
        apply (Hmin a' b'). exact Hrest.
Qed.

Lemma split_from_skip (sep : string) :
  forall (p b : string) (n : nat) (cur : string),
    String.length p = n ->
    split_from sep (p ++ b)%string n cur = split_from sep b 0 cur.
Proof.
  induction p as [|c p IH]; intros b n cur Hn; simpl in Hn; subst n; [reflexivity |].
  simpl. apply IH. reflexivity.
Qed.

Lemma split_from_first (sep : string) :
  sep <> EmptyString ->
  forall (a b s cur : string),
    first_at sep s a b ->
    split_from sep s 0 cur = (cur ++ a)%string :: split_from sep b 0 "".
Proof.
  intros Hsep. induction a as [|c a IH]; intros b s cur [Hs Hmin].
  - cbn [append] in Hs. subst s. rewrite string_app_nil_r.
    destruct sep as [|d sep]; [congruence |].
    cbn [append]. cbn [split_from].
    change (String d (sep ++ b)%string) with (String d sep ++ b)%string.
    rewrite prefix_app. f_equal.
    apply split_from_skip. simpl. lia.
  - subst s. cbn [append]. cbn [split_from].
    destruct (prefix sep (String c (a ++ sep ++ b)%string)) eqn:Hp.
    + exfalso. apply prefix_inv in Hp. destruct Hp as [r Hr].
      specialize (Hmin "" r). cbn [append] in Hmin. specialize (Hmin Hr).
      simpl in Hmin. lia.
    + rewrite (IH b (a ++ sep ++ b)%string (cur ++ String c "")%string).
      * rewrite string_app_assoc. reflexivity.
      * split; [reflexivity |]. intros a' b' E.
        specialize (Hmin (String c a') b'). cbn [append] in Hmin. rewrite E in Hmin.
        specialize (Hmin eq_refl). simpl in Hmin. lia.
Qed.

Lemma split_from_absent (sep : string) :
  forall (s cur : string),
    absent sep s -> split_from sep s 0 cur = [(cur ++ s)%string].
Proof.
  induction s as [|c s IH]; intros cur Hab.
  - simpl. rewrite string_app_nil_r. reflexivity.
  - cbn [split_from]. destruct (prefix sep (String c s)) eqn:Hp.
    + exfalso. apply prefix_inv in Hp. destruct Hp as [r Hr]. apply (Hab "" r). exact Hr.
    + rewrite IH.
      * rewrite string_app_assoc. reflexivity.
      * intros a b E. apply (Hab (String c a) b). rewrite E. reflexivity.
Qed.

Lemma split_head (sep s : string) :
  sep <> EmptyString ->
  exists head tail,
    split_from sep s 0 "" = head :: tail /\ piece_before sep s head.
Proof.
  intros Hsep. destruct (str_contains sep s) eqn:Hc.
  - destruct (first_occurrence _ _ Hc) as (a & b & Hf).
    exists a, (split_from sep b 0 ""). split.
    + rewrite (split_from_first sep Hsep a b s "" Hf). reflexivity.
    + right. exists b. exact Hf.
  - apply absent_not_contains in Hc. exists s, []. split.
    + rewrite (split_from_absent sep s "" Hc). reflexivity.
    + left. auto.
Qed.

Lemma append_inj_l (p x y : string) : (p ++ x)%string = (p ++ y)%string -> x = y.
Proof. induction p as [|c p IH]; cbn [append]; intros E; [exact E | inversion E; auto]. Qed.

Lemma first_at_unique (sep s a b a' b' : string) :
  first_at sep s a b -> first_at sep s a' b' -> a = a' /\ b = b'.
Proof.
  intros [Hs Hmin] [Hs' Hmin'].
  assert (Hlen : String.length a = String.length a').
  { apply Nat.le_antisymm; [eapply Hmin; exact Hs' | eapply Hmin'; exact Hs]. }
  rewrite Hs in Hs'. clear Hs Hmin Hmin'.
  revert a' Hlen Hs'. induction a as [|c a IH]; intros a' Hlen E.
  - destruct a'; [| discriminate]. cbn [append] in E. split; [reflexivity |].
    eapply append_inj_l. exact E.
  - destruct a' as [|c' a']; [discriminate |]. cbn [append] in E. simpl in Hlen.
    inversion E; subst.
    destruct (IH a') as [-> ->]; [lia | assumption |]. auto.
Qed.

Lemma piece_before_unique (sep s h h' : string) :
  piece_before sep s h -> piece_before sep s h' -> h = h'.
Proof.
  intros [[Ha ->] | [b Hf]] [[Ha' ->] | [b' Hf']].
  - reflexivity.
  - exfalso. destruct Hf' as [E _]. eapply Ha. exact E.
  - exfalso. destruct Hf as [E _]. eapply Ha'. exact E.
  - destruct (first_at_unique _ _ _ _ _ _ Hf Hf'). assumption.
Qed.

(** The piece before the first [sep] does not contain [sep]. *)
Lemma piece_before_absent (sep s h : string) :
  sep <> EmptyString -> piece_before sep s h -> absent sep h.
Proof.
  intros Hsep [[Ha ->] | [b [Hs Hmin]]]; [exact Ha |].
  intros a' b' E. subst h.
  specialize (Hmin a' (b' ++ sep ++ b)%string).
  rewrite Hs, !string_app_assoc in Hmin. specialize (Hmin eq_refl).
  rewrite !strlen_app in Hmin. destruct sep; [congruence |]. simpl in Hmin. lia.
Qed.

(** [between_fences] on a text in which the opening fence occurs: the text
    after the first opening fence, up to the next opening fence, and of that
    the piece before the first closing fence, stripped. *)
Lemma between_fences_spec (opening c pre rest segment body : string) :
  opening <> EmptyString ->
  first_at opening c pre rest ->
  piece_before opening rest segment ->
  piece_before fence segment body ->
  between_fences c opening = inr (strip body).
Proof.
  intros Hne Hf Hseg Hbody. unfold between_fences, str_split.
  destruct opening as [|o opening]; [congruence |].
  rewrite (split_from_first _ Hne pre rest c "" Hf).
  destruct (split_head (String o opening) rest Hne) as (h1 & t1 & E1 & Hh1).
  rewrite E1. cbn [getitem nth_error].
  rewrite (piece_before_unique _ _ _ _ Hseg Hh1) in Hbody.
  assert (Hfence : fence <> EmptyString) by discriminate.
  destruct (split_head fence h1 Hfence) as (h2 & t2 & E2 & Hh2).
  unfold fence at 1. change (split_from "```" h1 0 "") with (split_from fence h1 0 "").
  rewrite E2. cbn [nth_error].
  rewrite (piece_before_unique _ _ _ _ Hbody Hh2). reflexivity.
Qed.

Lemma app_eq_split (a x a' y : string) :
  (a ++ x)%string = (a' ++ y)%string ->
  (exists m, a = (a' ++ m)%string /\ y = (m ++ x)%string)
  \/ (exists m, a' = (a ++ m)%string /\ x = (m ++ y)%string).
Proof.
  revert a'. induction a as [|c a IH]; intros a' E.
  - right. exists a'. split; [reflexivity | exact E].
  - destruct a' as [|c' a'].
    + left. exists (String c a). split; [reflexivity | symmetry; exact E].
    + cbn [append] in E. inversion E as [[Hc Hrest]].
      destruct (IH a' Hrest) as [(m & -> & ->) | (m & -> & ->)].
      * left. exists m. auto.
      * right. exists m. auto.
Qed.

(** A separator that begins with a character the text before it does not
    have is found first where it stands. *)
Lemma first_at_fresh_head (c : ascii) (sep' pre rest : string) :
  absent (String c "") pre ->
  first_at (String c sep') (pre ++ String c sep' ++ rest)%string pre rest.
Proof.
  intros Hab. split; [reflexivity |]. intros a' b' E.
  destruct (app_eq_split _ _ _ _ E) as [(m & Hpre & Hm) | (m & Ha' & _)].
  - destruct m as [|d m].
    + rewrite string_app_nil_r in Hpre. subst. lia.
    + exfalso. cbn [append] in Hm. inversion Hm; subst d.
      apply (Hab a' m). exact Hpre.
  - subst a'. rewrite strlen_app. lia.
Qed.

Lemma absent_longer (c : ascii) (sep' s : string) :
  absent (String c "") s -> absent (String c sep') s.
Proof. intros Hab a b E. apply (Hab a (sep' ++ b)%string). exact E. Qed.

Lemma first_char_is_true (c : ascii) (s : string) :
  first_char_is c s = true -> exists r, s = String c r.
Proof.
  destruct s as [|d s]; simpl; [discriminate |].
  intros H. apply Ascii.eqb_eq in H. subst d. eauto.
Qed.

(** The block after an opening fence, when it has no backtick and the text
    after the closing fence does not go on with one. *)
Lemma closed_block (opening' body post segment : string) :
  absent backtick body ->
  first_char_is "`" post = false ->
  piece_before (fence ++ opening') (body ++ fence ++ post)%string segment ->
  piece_before fence segment body.
Proof.
  intros Hbody Hpost [[_ ->] | [more [E _]]].
  - right. exists post. apply (first_at_fresh_head "`" "``" body post Hbody).
  - assert (Hno : absent fence body) by (apply (absent_longer "`" "``"); exact Hbody).
    destruct (app_eq_split _ _ _ _ E) as [(m & Hb & Hm) | (m & Hs & Hm)].
    + destruct m as [|d m].
      * rewrite string_app_nil_r in Hb. subst segment. left. auto.
      * exfalso. cbn [append fence] in Hm. inversion Hm; subst d.
        apply (Hbody segment m). exact Hb.
    + destruct m as [|d1 m]; [rewrite string_app_nil_r in Hs; subst segment; left; auto |].
      cbn [append fence] in Hm. inversion Hm as [[Hd1 Hm1]]. subst d1.
      destruct m as [|d2 m].
      { exfalso. cbn [append] in Hm1. inversion Hm1 as [[Hm2]].
        rewrite Hm2 in Hpost. simpl in Hpost. discriminate Hpost. }
      cbn [append] in Hm1. inversion Hm1 as [[Hd2 Hm2]]. subst d2.
      destruct m as [|d3 m].
      { exfalso. cbn [append] in Hm2. inversion Hm2 as [[Hm3]].
        rewrite Hm3 in Hpost. simpl in Hpost. discriminate Hpost. }
      cbn [append] in Hm2. inversion Hm2 as [[Hd3 Hm3]]. subst d3.
      right. exists m. subst segment.
      apply (first_at_fresh_head "`" "``" body m Hbody).
Qed.

Lemma piece_before_exists (sep s : string) :
  sep <> EmptyString -> exists head, piece_before sep s head.
Proof.
  intros Hsep. destruct (split_head sep s Hsep) as (h & t & _ & H). exists h. exact H.
Qed.

(** ** [strip] *)

Lemma lstrip_spec (s : string) :
  exists lead,
    s = (lead ++ lstrip s)%string /\ all_space lead = true
    /\ forall c, first_char (lstrip s) = Some c -> isspace c = false.
Proof.
  induction s as [|c s (lead & Hs & Hl & Hc)].
  - exists "". simpl. repeat split. intros c H. discriminate.
  - cbn [lstrip]. destruct (isspace c) eqn:Hsp.
    + exists (String c lead). cbn [append all_space]. rewrite Hsp, Hl, <- Hs. auto.
    + exists "". simpl. repeat split. intros d Hd. inversion Hd; subst. exact Hsp.
Qed.

Lemma rstrip_spec (s : string) :
  exists trail,
    s = (rstrip s ++ trail)%string /\ all_space trail = true
    /\ forall c, last_char (rstrip s) = Some c -> isspace c = false.
Proof.
  induction s as [|c s (trail & Hs & Ht & Hc)].
  - exists "". simpl. repeat split. intros c H. discriminate.
  - cbn [rstrip]. destruct (rstrip s) as [|d kept] eqn:Hr.
    + cbn [append] in Hs. subst trail. destruct (isspace c) eqn:Hsp.
      * exists (String c s). cbn [append all_space]. rewrite Hsp, Ht.
        repeat split. intros d Hd. discriminate.
      * exists s. cbn [append]. repeat split; [exact Ht |].
        intros d Hd. inversion Hd; subst. exact Hsp.
    + exists trail. cbn [append]. rewrite Hs at 1. cbn [append].
      repeat split; [exact Ht |]. intros e He. apply Hc. exact He.
Qed.

Lemma rstrip_first_char (s : string) :
  rstrip s <> EmptyString -> first_char (rstrip s) = first_char s.
Proof.
  destruct s as [|c s]; [intros H; reflexivity |]. cbn [rstrip].
  destruct (rstrip s); [destruct (isspace c); [congruence | reflexivity] | reflexivity].
Qed.

Lemma lstrip_fixed (s : string) :
  (forall c, first_char s = Some c -> isspace c = false) -> lstrip s = s.
Proof.
  destruct s as [|c s]; [reflexivity |]. intros H. cbn [lstrip].
  rewrite (H c eq_refl). reflexivity.
Qed.

Lemma rstrip_fixed (s : string) :
  (forall c, last_char s = Some c -> isspace c = false) -> rstrip s = s.
Proof.
  induction s as [|c s IH]; [reflexivity |]. intros H. cbn [rstrip].
  destruct s as [|d s].
  - simpl. rewrite (H c eq_refl). reflexivity.
  - rewrite IH; [reflexivity |]. intros e He. apply H. exact He.
Qed.

Lemma all_space_lstrip (s : string) : all_space s = true -> lstrip s = EmptyString.
Proof.
  induction s as [|c s IH]; [reflexivity |]. cbn [all_space lstrip]. intros H.
  apply andb_true_iff in H. destruct H as [Hc Hs]. rewrite Hc. apply IH. exact Hs.
Qed.

(** What [strip] returns: the text without the spaces at its two ends. *)
Lemma strip_spec (s : string) :
  exists lead trail,
    s = (lead ++ strip s ++ trail)%string
    /\ all_space lead = true /\ all_space trail = true
    /\ trimmed (strip s) = true
    /\ strip (strip s) = strip s
    /\ (all_space s = true -> strip s = EmptyString).
Proof.
  destruct (lstrip_spec s) as (lead & Hs & Hl & Hfirst).
  destruct (rstrip_spec (lstrip s)) as (trail & Hr & Ht & Hlast).
  fold (strip s) in Hr, Hlast.
  assert (Hf : forall c, first_char (strip s) = Some c -> isspace c = false).
  { intros c Hc. apply Hfirst. unfold strip in Hc.
    rewrite rstrip_first_char in Hc; [exact Hc |].
    intros E. rewrite E in Hc. discriminate. }
  exists lead, trail. split; [rewrite <- Hr; exact Hs |].
  split; [exact Hl |]. split; [exact Ht |]. split; [| split].
  - unfold trimmed. destruct (first_char (strip s)) as [c |] eqn:Hc; [| reflexivity].
    destruct (last_char (strip s)) as [d |] eqn:Hd; [| reflexivity].
    rewrite (Hf c eq_refl), (Hlast d eq_refl). reflexivity.
  - unfold strip at 1. rewrite (lstrip_fixed _ Hf). apply rstrip_fixed. exact Hlast.
  - intros Hall. unfold strip. rewrite (all_space_lstrip _ Hall). reflexivity.
Qed.

Lemma universal_newlines_no_cr_left (s : string) : no_cr (universal_newlines s) = true.
Proof.
  unfold no_cr. induction s as [|c s IH]; [reflexivity |]. cbn [universal_newlines].
  destruct (Ascii.eqb c CR) eqn:Hc.
  - destruct s as [|d s]; [reflexivity |].
    destruct (Ascii.eqb d LF); [exact IH |]. cbn [all_chars]. rewrite IH. reflexivity.
  - cbn [all_chars]. unfold not_cr at 1. rewrite Hc, IH. reflexivity.
Qed.

Lemma all_space_universal_newlines (s : string) :
  all_space s = true -> all_space (universal_newlines s) = true.
Proof.
  induction s as [|c s IH]; [reflexivity |]. cbn [all_space universal_newlines].
  intros H. apply andb_true_iff in H. destruct H as [Hc Hs].
  destruct (Ascii.eqb c CR).
  - destruct s as [|d s]; [reflexivity |].
    destruct (Ascii.eqb d LF); [apply IH; exact Hs |].
    cbn [all_space]. rewrite (IH Hs). reflexivity.
  - cbn [all_space]. rewrite Hc, (IH Hs). reflexivity.
Qed.

(** X19. [load_prompt] raises [FileNotFoundError] for a missing file and
    [UnicodeDecodeError] for a file that the codec rejects. Otherwise it
    returns the text as text mode reads it (CR LF and CR turned into LF)
    without the white space at its two ends: that text is the prompt
    between two runs of white space, the prompt neither begins nor ends with
    a space, holds no carriage return, and stripping it again changes
    nothing. A file of white space only, or an empty one, is accepted and
    gives the empty prompt. *)
Theorem load_prompt_strips_whitespace :
  forall (decode : string -> option string) (fs : FS) (prompt_path : string),
    (PyDict.get fs prompt_path = None ->
     load_prompt decode fs prompt_path
     = inl (FileNotFoundError ("Prompt file not found: " ++ prompt_path)))
    /\ (forall content, PyDict.get fs prompt_path = Some content ->
          (decode content = None ->
           load_prompt decode fs prompt_path = inl (ReadError UnicodeDecodeError))
          /\ forall text, decode content = Some text ->
               exists lead prompt trail,
                 load_prompt decode fs prompt_path = inr prompt
                 /\ universal_newlines text = (lead ++ prompt ++ trail)%string
                 /\ all_space lead = true /\ all_space trail = true
                 /\ trimmed prompt = true
                 /\ strip prompt = prompt
                 /\ no_cr prompt = true
                 /\ (all_space text = true -> prompt = EmptyString)
                 /\ (no_cr text = true -> text = (lead ++ prompt ++ trail)%string)).
Proof.
  intros decode fs prompt_path. unfold load_prompt, read_text. split.
  - intros ->. reflexivity.
  - intros content ->. split; [intros ->; reflexivity |]. intros text ->.
    destruct (strip_spec (universal_newlines text))
      as (lead & trail & Hs & Hl & Ht & Htr & Hid & Hall).
    exists lead, (strip (universal_newlines text)), trail.
    split; [reflexivity |]. split; [exact Hs |]. split; [exact Hl |].
    split; [exact Ht |]. split; [exact Htr |]. split; [exact Hid |].
    split; [| split].
    + pose proof (universal_newlines_no_cr_left text) as Hn.
      rewrite Hs in Hn. unfold no_cr in *. rewrite !all_chars_app in Hn.
      apply andb_true_iff in Hn. destruct Hn as [_ Hn].
      apply andb_true_iff in Hn. destruct Hn as [Hn _]. exact Hn.
    + intros Hsp. apply Hall. apply all_space_universal_newlines. exact Hsp.
    + intros Hn. rewrite <- Hs. symmetry. apply universal_newlines_no_cr. exact Hn.
Qed.

Lemma load_prompt_strips_whitespace_witness :
  load_prompt latin1_codec prompt_fs "prompt.md"
  = inr ("I like AI tools" ++ String LF "and CLIs")%string
  /\ load_prompt ascii_codec damaged_fs "seen_repos.json"
     = inl (ReadError UnicodeDecodeError).
Proof.
  destruct (load_prompt_strips_whitespace latin1_codec prompt_fs "prompt.md")
    as (_ & Hread).
  destruct (Hread crlf_prompt eq_refl) as (_ & Htext).
  destruct (Htext crlf_prompt eq_refl) as (lead & prompt & trail & Hp & _).
  destruct (load_prompt_strips_whitespace ascii_codec damaged_fs "seen_repos.json")
    as (_ & Hbad).
  destruct (Hbad _ eq_refl) as (Hraise & _).
  split; [| apply Hraise; reflexivity].
  rewrite Hp. vm_compute in Hp. inversion Hp. reflexivity.
Defined.

(** ** The answer of the model *)

Lemma not_empty_with_fence (a sep' b : string) :
  String.eqb (a ++ String "`" sep' ++ b)%string "" = false.
Proof. destruct a; reflexivity. Qed.

Lemma absent_fence_json (s : string) : absent fence s -> absent fence_json s.
Proof.
  intros H a b E. apply (H a ("json" ++ b)%string). rewrite E. reflexivity.
Qed.

Lemma strip_code_block_fenced (opening' c pre rest segment body : string) :
  (opening' = "json" \/ (opening' = EmptyString /\ absent fence_json c)) ->
  first_at (fence ++ opening') c pre rest ->
  piece_before (fence ++ opening') rest segment ->
  piece_before fence segment body ->
  strip_code_block (Some c) = inr (Some (strip body)).
Proof.
  intros Hop Hf Hseg Hbody.
  assert (Hne : (fence ++ opening')%string <> EmptyString) by discriminate.
  pose proof (between_fences_spec _ _ _ _ _ _ Hne Hf Hseg Hbody) as Hb.
  assert (Hc : str_contains (fence ++ opening') c = true).
  { apply str_contains_spec. destruct Hf as [E _]. eauto. }
  unfold strip_code_block.
  assert (Hnon : String.eqb c "" = false).
  { destruct Hf as [E _]. rewrite E. apply not_empty_with_fence. }
  rewrite Hnon. destruct Hop as [-> | [-> Hnj]].
  - change (fence ++ "json")%string with fence_json in *. rewrite Hc, Hb. reflexivity.
  - apply absent_not_contains in Hnj. rewrite Hnj.
    change (fence ++ "")%string with fence in *. rewrite Hc, Hb. reflexivity.
Qed.

(** X20. The extraction of the JSON from the answer never fails, and leaves
    a text without a fence exactly as it is. When the texts before and
    inside the first block have no backtick: a closed [```json] block gives
    its stripped content (provided the closing fence is not followed by a
    backtick), an unclosed one gives the stripped rest of the answer, and a
    block opened by a bare fence, in an answer without [```json], gives its
    stripped content, a language tag included. *)
Theorem code_block_is_the_first_fenced_text :
  forall (content : option string),
    (exists r, strip_code_block content = inr r)
    /\ (forall c, content = Some c -> absent fence c ->
          strip_code_block content = inr (Some c))
    /\ (forall pre body post,
          absent backtick pre -> absent backtick body ->
          (content = Some (pre ++ fence_json ++ body ++ fence ++ post)%string ->
           first_char_is "`" post = false ->
           strip_code_block content = inr (Some (strip body)))
          /\ (content = Some (pre ++ fence_json ++ body)%string ->
              strip_code_block content = inr (Some (strip body)))
          /\ (content = Some (pre ++ fence ++ body ++ fence ++ post)%string ->
              absent fence_json (pre ++ fence ++ body ++ fence ++ post)%string ->
              strip_code_block content = inr (Some (strip body)))).
Proof.
  intros content.
  assert (Hfj : (fence ++ "json")%string <> EmptyString) by discriminate.
  assert (Hfe : fence <> EmptyString) by discriminate.
  split; [| split].
  - destruct content as [c |]; [| exists None; reflexivity].
    destruct (str_contains fence_json c) eqn:Hj.
    + destruct (first_occurrence _ _ Hj) as (pre & rest & Hf).
      destruct (piece_before_exists fence_json rest Hfj) as [segment Hseg].
      destruct (piece_before_exists fence segment Hfe) as [body Hbody].
      exists (Some (strip body)).
      apply (strip_code_block_fenced "json" c pre rest segment body); auto.
    + destruct (str_contains fence c) eqn:Hp.
      * destruct (first_occurrence _ _ Hp) as (pre & rest & Hf).
        destruct (piece_before_exists fence rest Hfe) as [segment Hseg].
        destruct (piece_before_exists fence segment Hfe) as [body Hbody].
        exists (Some (strip body)).
        apply (strip_code_block_fenced "" c pre rest segment body); auto.
        right. split; [reflexivity |]. apply absent_not_contains. exact Hj.
      * exists (Some c). unfold strip_code_block. rewrite Hj, Hp.
        destruct (String.eqb c ""); reflexivity.
  - intros c -> Hab. unfold strip_code_block.
    pose proof (absent_fence_json _ Hab) as Habj.
    apply absent_not_contains in Hab. apply absent_not_contains in Habj.
    rewrite Hab, Habj. destruct (String.eqb c ""); reflexivity.
  - intros pre body post Hpre Hbody.
    assert (Hnf : absent fence body) by (apply (absent_longer "`" "``"); exact Hbody).
    split; [| split].
    + intros -> Hpost.
      destruct (piece_before_exists fence_json (body ++ fence ++ post)%string Hfj)
        as [segment Hseg].
      apply (strip_code_block_fenced "json" _ pre (body ++ fence ++ post)%string segment body).
      * left. reflexivity.
      * apply (first_at_fresh_head "`" "``json" pre _ Hpre).
      * exact Hseg.
      * apply (closed_block "json" body post segment Hbody Hpost Hseg).
    + intros ->.
      apply (strip_code_block_fenced "json" _ pre body body body).
      * left. reflexivity.
      * apply (first_at_fresh_head "`" "``json" pre _ Hpre).
      * left. split; [| reflexivity]. apply (absent_longer "`" "``json"). exact Hbody.
      * left. auto.
    + intros -> Hnj.
      apply (strip_code_block_fenced "" _ pre (body ++ fence ++ post)%string body body).
      * right. auto.
      * apply (first_at_fresh_head "`" "``" pre _ Hpre).
      * right. exists post. apply (first_at_fresh_head "`" "``" body post Hbody).
      * left. auto.
Qed.

Lemma code_block_is_the_first_fenced_text_witness :
  strip_code_block (Some fenced_answer) = inr (Some "{}")
  /\ strip_code_block (Some tagged_answer)
     = inr (Some ("javascript" ++ newline ++ "{}")%string).
Proof.
  destruct (code_block_is_the_first_fenced_text (Some fenced_answer)) as (_ & _ & H1).
  destruct (code_block_is_the_first_fenced_text (Some tagged_answer)) as (_ & _ & H2).
  split.
  - destruct (H1 ("Here is my verdict:" ++ newline)%string
                (newline ++ "{}" ++ newline)%string
                (newline ++ "Hope this helps.")%string) as (Hclosed & _).
    + apply absent_not_contains. vm_compute. reflexivity.
    + apply absent_not_contains. vm_compute. reflexivity.
    + apply Hclosed; reflexivity.
  - destruct (H2 EmptyString ("javascript" ++ newline ++ "{}" ++ newline)%string
                EmptyString) as (_ & _ & Hbare).
    + apply absent_not_contains. vm_compute. reflexivity.
    + apply absent_not_contains. vm_compute. reflexivity.
    + apply Hbare; [reflexivity |]. apply absent_not_contains. vm_compute. reflexivity.
Defined.

Lemma parse_failure_reason_length (content : option string) :
  (String.length (reason (parse_failure content)) <= 230)%nat.
Proof.
  unfold parse_failure. cbn [reason]. rewrite strlen_app.
  change (String.length "Failed to parse LLM response: ") with 30%nat.
  destruct content as [c |]; [| simpl; lia].
  destruct (String.eqb c ""); [simpl; lia |].
  pose proof (str_slice_to_length c 200) as H.
  change (0 <=? 200) with true in H. cbv beta iota in H. lia.
Qed.

(** X21. A provider reports a repository as interesting only when the call
    returned a text, the text taken out of it parsed to a JSON object, and
    that object has a true [interested]; every failure on the way is a
    rejection, never an exception: an exception of the call gives the reason
    [Error: ...] with its message, a call without text gives the
    [TypeError] of [json.loads] as reason, and a text that does not parse
    gives [Failed to parse LLM response: ...], of at most 230 characters. An
    object without [interested] is a rejection, one without [reason] gets
    [No reason provided]. *)
Theorem provider_is_interested_only_on_a_parsed_yes :
  forall (Value : Type) (truth : Value -> bool) (py_str : Value -> string)
         (json_loads : string -> Failure + Parsed Value)
         (call : Failure + option string),
    let result := evaluate_answer Value truth py_str json_loads call in
    (interested result = true <->
     exists content text data v,
       call = inr (Some content)
       /\ strip_code_block (Some content) = inr (Some text)
       /\ json_loads text = inr (PDict data)
       /\ PyDict.get data "interested" = Some v /\ truth v = true)
    /\ (forall message, call = inl (OtherException message) ->
          result = error_result message)
    /\ (call = inr None ->
        result = error_result
                   "the JSON object must be str, bytes or bytearray, not NoneType")
    /\ (forall content text,
          call = inr (Some content) ->
          strip_code_block (Some content) = inr (Some text) ->
          (json_loads text = inl DecodeFailure ->
           result = parse_failure (Some text)
           /\ (String.length (reason result) <= 230)%nat)
          /\ (forall data, json_loads text = inr (PDict data) ->
                (PyDict.get data "interested" = None -> interested result = false)
                /\ (PyDict.get data "reason" = None ->
                    reason result = "No reason provided"))).
Proof.
  intros Value truth py_str json_loads call result. unfold result. clear result.
  split; [| split; [| split]].
  - split.
    + unfold evaluate_answer. destruct call as [[| message] | [content |]];
        try (cbn; discriminate).
      destruct (strip_code_block (Some content)) as [[| message] | [text |]] eqn:Hs;
        try (cbn; discriminate).
      cbn [loads].
      destruct (json_loads text) as [[| message] | [data | type_name]] eqn:Hl;
        try (cbn; discriminate).
      cbn [interested].
      destruct (PyDict.get data "interested") as [v |] eqn:Hv; [| discriminate].
      intros Ht. exists content, text, data, v. auto.
    + intros (content & text & data & v & -> & Hs & Hl & Hv & Ht).
      unfold evaluate_answer. rewrite Hs. cbn [loads]. rewrite Hl. cbn [interested].
      rewrite Hv. exact Ht.
  - intros message ->. reflexivity.
  - intros ->. reflexivity.
  - intros content text -> Hs. unfold evaluate_answer. rewrite Hs. cbn [loads]. split.
    + intros ->. split; [reflexivity | apply parse_failure_reason_length].
    + intros data ->. cbn [interested reason]. split; intros ->; reflexivity.
Qed.

Lemma provider_is_interested_only_on_a_parsed_yes_witness :
  interested (evaluate_answer bool (fun b => b) bool_str two_texts (inr (Some "yes"))) = true
  /\ evaluate_answer bool (fun b => b) bool_str two_texts (inr (Some fenced_answer))
     = {| interested := false; reason := "No reason provided" |}
  /\ evaluate_answer bool (fun b => b) bool_str two_texts (inl (OtherException "timeout"))
     = {| interested := false; reason := "Error: timeout" |}.
Proof.
  destruct (provider_is_interested_only_on_a_parsed_yes bool (fun b => b) bool_str
              two_texts (inr (Some "yes"))) as ([_ Hyes] & _).
  destruct (provider_is_interested_only_on_a_parsed_yes bool (fun b => b) bool_str
              two_texts (inl (OtherException "timeout"))) as (_ & Herr & _).
  split; [| split].
  - apply Hyes. exists "yes", "yes", [("interested", true); ("reason", true)], true.
    repeat split; reflexivity.
  - vm_compute. reflexivity.
  - apply Herr. reflexivity.
Defined.

(** ** [parse_since_date] *)

Lemma lower_digit (c : ascii) : is_digit c = true -> lower_char c = c.
Proof. each_ascii c; vm_compute; intros H; try reflexivity; discriminate H. Qed.

Lemma lower_is_digit (c : ascii) : is_digit (lower_char c) = true -> lower_char c = c.
Proof. each_ascii c; vm_compute; intros H; try reflexivity; discriminate H. Qed.

Lemma unit_of_letter_lower (c u : ascii) :
  unit_of_letter c = Some u ->
  lower_char c = u /\ is_unit u = true /\ is_digit u = false.
Proof.
  each_ascii c; vm_compute; intros H; try discriminate H;
    inversion H; subst u; repeat split; reflexivity.
Qed.

Lemma lower_is_unit (c : ascii) :
  is_unit (lower_char c) = true -> unit_of_letter c = Some (lower_char c).
Proof. each_ascii c; vm_compute; intros H; try reflexivity; discriminate H. Qed.

Lemma lower_is_newline (c : ascii) :
  lower_char c = ascii_of_nat 10 -> c = ascii_of_nat 10.
Proof. each_ascii c; vm_compute; intros H; try reflexivity; discriminate H. Qed.

Lemma str_lower_app (a b : string) :
  str_lower (a ++ b)%string = (str_lower a ++ str_lower b)%string.
Proof. induction a as [|c a IH]; simpl; [reflexivity | rewrite IH; reflexivity]. Qed.

Lemma str_lower_digits (ds : string) : all_digits ds = true -> str_lower ds = ds.
Proof.
  induction ds as [|c ds IH]; simpl; [reflexivity |]. intros H.
  apply andb_true_iff in H. destruct H as [Hc Hds].
  rewrite (lower_digit c Hc), (IH Hds). reflexivity.
Qed.

Lemma leading_digits_app (ds : string) (u : ascii) (tail : string) :
  all_digits ds = true -> is_digit u = false ->
  leading_digits (ds ++ String u tail)%string = (ds, String u tail).
Proof.
  intros Hds Hu. induction ds as [|c ds IH].
  - cbn [append leading_digits]. rewrite Hu. reflexivity.
  - cbn [all_digits] in Hds. apply andb_true_iff in Hds. destruct Hds as [Hc Hds].
    cbn [append leading_digits]. rewrite Hc, (IH Hds). reflexivity.
Qed.

Lemma leading_digits_spec (s : string) :
  s = (fst (leading_digits s) ++ snd (leading_digits s))%string
  /\ all_digits (fst (leading_digits s)) = true.
Proof.
  induction s as [|c s [IH1 IH2]]; [split; reflexivity |].
  cbn [leading_digits]. destruct (is_digit c) eqn:Hc; cbn [fst snd append all_digits].
  - rewrite Hc, IH2, <- IH1. split; reflexivity.
  - split; reflexivity.
Qed.

Lemma str_lower_empty (s : string) : str_lower s = EmptyString -> s = EmptyString.
Proof. destruct s; [reflexivity | discriminate]. Qed.

Lemma str_lower_newline (s : string) : str_lower s = newline -> s = newline.
Proof.
  destruct s as [|c s]; [discriminate |]. unfold newline. cbn [str_lower]. intros H.
  inversion H as [[Hc Hs]]. apply str_lower_empty in Hs. subst s.
  rewrite (lower_is_newline c Hc). reflexivity.
Qed.

(** A text whose lower case begins with digits begins with the same digits. *)
Lemma str_lower_digits_inv (ds : string) :
  all_digits ds = true ->
  forall value rest,
    str_lower value = (ds ++ rest)%string ->
    exists rest', value = (ds ++ rest')%string /\ str_lower rest' = rest.
Proof.
  induction ds as [|c ds IH]; intros Hds value rest E.
  - exists value. split; [reflexivity | exact E].
  - cbn [all_digits] in Hds. apply andb_true_iff in Hds. destruct Hds as [Hc Hds].
    destruct value as [|v value]; [discriminate |].
    cbn [str_lower append] in E. injection E as Hv Hrest.
    destruct (IH Hds value rest Hrest) as (rest' & Hvalue & Hr).
    exists rest'. split; [| exact Hr].
    assert (Hlv : is_digit (lower_char v) = true) by (rewrite Hv; exact Hc).
    rewrite (lower_is_digit v Hlv) in Hv. rewrite Hv, Hvalue. reflexivity.
Qed.

Lemma relative_matches (value digits : string) (unit : ascii) :
  relative_time value digits unit ->
  match_relative (str_lower value) = Some (digits, unit).
Proof.
  intros (Hne & Hds & letter & tail & Hu & Htail & ->).
  destruct (unit_of_letter_lower _ _ Hu) as (Hl & Hunit & Hnd).
  rewrite str_lower_app, (str_lower_digits _ Hds). cbn [str_lower]. rewrite Hl.
  unfold match_relative. rewrite (leading_digits_app _ _ _ Hds Hnd).
  destruct digits as [|d digits]; [congruence |]. rewrite Hunit.
  destruct Htail as [-> | ->]; reflexivity.
Qed.

Lemma match_is_relative (value digits : string) (unit : ascii) :
  match_relative (str_lower value) = Some (digits, unit) ->
  relative_time value digits unit.
Proof.
  unfold match_relative. intros H.
  destruct (leading_digits_spec (str_lower value)) as [Hs Hds].
  destruct (leading_digits (str_lower value)) as [ds rest]. cbn [fst snd] in Hs, Hds.
  destruct ds as [|d ds]; [discriminate |].
  destruct rest as [|u tail]; [discriminate |].
  destruct (is_unit u) eqn:Hu; [| discriminate].
  destruct (String.eqb tail "" || String.eqb tail newline)%bool eqn:Ht; [| discriminate].
  cbn [andb] in H. inversion H; subst digits unit. clear H.
  destruct (str_lower_digits_inv _ Hds _ _ Hs) as (rest' & Hv & Hr).
  destruct rest' as [|letter tail']; [discriminate |].
  cbn [str_lower] in Hr. inversion Hr as [[Hl Htl]].
  split; [discriminate |]. split; [exact Hds |].
  exists letter, tail'. split; [| split; [| exact Hv]].
  - rewrite <- Hl in Hu. rewrite (lower_is_unit _ Hu). reflexivity.
  - apply orb_true_iff in Ht. destruct Ht as [Ht | Ht]; apply String.eqb_eq in Ht; subst tail.
    + left. apply str_lower_empty. exact Htl.
    + right. apply str_lower_newline. exact Htl.
Qed.

(** X22. [parse_since_date] treats a value as a relative time exactly when
    it is digits followed by one of the letters h, d, m, in either case,
    and by nothing or one newline; the result is then the date that the
    amount leads back to (or the exception of the conversion or of the date
    arithmetic). Every other value is returned exactly as it came, without
    any check that it is a date. *)
Theorem parse_since_date_passes_other_values_through :
  forall (now_date now_seconds max_str_digits : Z) (value : string),
    (exists digits unit,
        relative_time value digits unit
        /\ parse_since_date now_date now_seconds max_str_digits value
           = match py_int max_str_digits digits with
             | inl e => inl e
             | inr amount =>
                 match (if Ascii.eqb unit "h" then hours_back now_date now_seconds amount
                        else if Ascii.eqb unit "d" then days_back now_date amount
                        else months_back now_date amount) with
                 | inl e => inl e
                 | inr result => inr (date_isoformat result)
                 end
             end)
    \/ ((forall digits unit, ~ relative_time value digits unit)
        /\ parse_since_date now_date now_seconds max_str_digits value = inr value).
Proof.
  intros now_date now_seconds max_str_digits value. unfold parse_since_date.
  destruct (match_relative (str_lower value)) as [[digits unit] |] eqn:Hm.
  - left. exists digits, unit. pose proof (match_is_relative _ _ _ Hm) as Hrel.
    split; [exact Hrel |].
    destruct Hrel as (_ & _ & letter & tail & Hu & _ & _).
    destruct (py_int max_str_digits digits) as [e | amount]; [reflexivity |].
    unfold date_back.
    assert (Hcases : unit = "h"%char \/ unit = "d"%char \/ unit = "m"%char).
    { unfold unit_of_letter in Hu.
      destruct (Ascii.eqb letter "h" || Ascii.eqb letter "H")%bool;
        [inversion Hu; auto |].
      destruct (Ascii.eqb letter "d" || Ascii.eqb letter "D")%bool;
        [inversion Hu; auto |].
      destruct (Ascii.eqb letter "m" || Ascii.eqb letter "M")%bool;
        [inversion Hu; auto | discriminate]. }
    destruct Hcases as [-> | [-> | ->]]; reflexivity.
  - right. split; [| reflexivity].
    intros digits unit Hrel. apply relative_matches in Hrel. congruence.
Qed.

Lemma parse_since_date_passes_other_values_through_witness :
  parse_since_date day_2025_03_31 quarter_past_nine 4300 "2024-12-10" = inr "2024-12-10"
  /\ parse_since_date day_2025_03_31 quarter_past_nine 4300 "last week" = inr "last week"
  /\ parse_since_date day_2025_03_31 quarter_past_nine 4300 "7D" = inr "2025-03-24"
  /\ parse_since_date day_2025_03_31 quarter_past_nine 4300 "1m" = inr "2025-02-28".
Proof.
  assert (Hno : forall value,
             match_relative (str_lower value) = None ->
             parse_since_date day_2025_03_31 quarter_past_nine 4300 value = inr value).
  { intros value Hm.
    destruct (parse_since_date_passes_other_values_through
                day_2025_03_31 quarter_past_nine 4300 value)
      as [(digits & unit & Hrel & _) | [_ H]]; [| exact H].
    apply relative_matches in Hrel. congruence. }
  split; [apply Hno; reflexivity |]. split; [apply Hno; reflexivity |].
  split; vm_compute; reflexivity.
Defined.

Lemma hours_of_whole_days (now_date now_seconds k : Z) :
  0 <= now_seconds < 86400 ->
  hours_back now_date now_seconds (24 * k) = days_back now_date k.
Proof.
  intros Hs. unfold hours_back, days_back.
  replace (24 * k / 24) with k by (symmetry; rewrite Z.mul_comm; apply Z.div_mul; lia).
  replace ((now_seconds - 24 * k * 3600) / 86400) with (- k).
  - replace (now_date + - k) with (now_date - k) by lia. reflexivity.
  - replace (now_seconds - 24 * k * 3600) with (now_seconds + (- k) * 86400) by lia.
    rewrite Z.div_add by lia. rewrite (Z.div_small now_seconds 86400) by lia. lia.
Qed.

(** X23. A number of hours that makes whole days leads back to the same
    date as that number of days, whatever the time of day; any other number
    of hours leads to the date of the whole days it holds or to the day
    before, depending on the time of day. *)
Theorem hours_lead_back_like_days :
  forall (now_date now_seconds max_str_digits : Z) (hours days : string) (k : Z),
    0 <= now_seconds < 86400 ->
    hours <> EmptyString -> all_digits hours = true ->
    days <> EmptyString -> all_digits days = true ->
    py_int max_str_digits hours = inr (24 * k) ->
    py_int max_str_digits days = inr k ->
    parse_since_date now_date now_seconds max_str_digits (hours ++ "h")
    = parse_since_date now_date now_seconds max_str_digits (days ++ "d")
    /\ forall n d, 0 <= n ->
         hours_back now_date now_seconds n = inr d ->
         now_date - n / 24 - 1 <= d <= now_date - n / 24.
Proof.
  intros now_date now_seconds max_str_digits hours days k Hs Hh Hhd Hd Hdd Hih Hid.
  split.
  - assert (Hrh : relative_time (hours ++ "h") hours "h").
    { split; [exact Hh |]. split; [exact Hhd |]. exists "h"%char, EmptyString. auto. }
    assert (Hrd : relative_time (days ++ "d") days "d").
    { split; [exact Hd |]. split; [exact Hdd |]. exists "d"%char, EmptyString. auto. }
    unfold parse_since_date.
    rewrite (relative_matches _ _ _ Hrh), (relative_matches _ _ _ Hrd), Hih, Hid.
    unfold date_back. cbn [Ascii.eqb Bool.eqb]. cbv beta iota.
    rewrite (hours_of_whole_days now_date now_seconds k Hs). reflexivity.
  - intros n d Hn H. unfold hours_back in H.
    destruct (999999999 <? n / 24); [discriminate |].
    destruct (valid_date (now_date + (now_seconds - n * 3600) / 86400)); [| discriminate].
    inversion H; subst d. clear H.
    assert (Hq : - (n / 24) - 1 <= (now_seconds - n * 3600) / 86400 <= - (n / 24)).
    { pose proof (Z.div_mod n 24 ltac:(lia)) as Hdm.
      pose proof (Z.mod_pos_bound n 24 ltac:(lia)) as Hmb.
      set (q := n / 24) in *. set (r := n mod 24) in *.
      replace (now_seconds - n * 3600)
        with ((now_seconds - r * 3600) + (- q) * 86400) by lia.
      rewrite Z.div_add by lia.
      assert (-1 <= (now_seconds - r * 3600) / 86400 <= 0).
      { split.
        - apply Z.div_le_lower_bound; lia.
        - apply Z.lt_succ_r. apply Z.div_lt_upper_bound; lia. }
      lia. }
    lia.
Qed.

Lemma hours_lead_back_like_days_witness :
  parse_since_date day_2025_03_31 quarter_past_nine 4300 "48h"
  = parse_since_date day_2025_03_31 quarter_past_nine 4300 "2d"
  /\ parse_since_date day_2025_03_31 quarter_past_nine 4300 "2d" = inr "2025-03-29".
Proof.
  assert (Hs : 0 <= quarter_past_nine < 86400) by (unfold quarter_past_nine; lia).
  assert (H1 : "48" <> EmptyString) by discriminate.
  assert (H2 : all_digits "48" = true) by reflexivity.
  assert (H3 : "2" <> EmptyString) by discriminate.
  assert (H4 : all_digits "2" = true) by reflexivity.
  assert (H5 : py_int 4300 "48" = inr (24 * 2)) by reflexivity.
  assert (H6 : py_int 4300 "2" = inr 2) by reflexivity.
  destruct (hours_lead_back_like_days day_2025_03_31 quarter_past_nine 4300 "48" "2" 2
              Hs H1 H2 H3 H4 H5 H6) as [Heq _].
  split; [exact Heq | vm_compute; reflexivity].
Defined.
